(** * FS2D: a shallow embedding of the farm simulation core of [src/fs2d.js]

    The JavaScript program keeps all quantities in [number]s.  Pixel
    coordinates, velocities, fuel and the time of day are embedded as exact
    rationals ([Q]); tile indices, growth stages, inventory counts and
    millisecond timestamps are embedded as integers ([Z]).  Arrays are
    lists read with stdpp's lookup, and a read of [undefined.field] is the
    explicit outcome [TypeError].

    The handlers live in React callbacks: they read state from their
    closure and write it through setters.  Each handler is embedded as a
    function from the state it reads to the state it writes and the status
    messages it shows; the value a setter's updater receives and the value
    the closure holds are taken to be the same, current one.  [Date.now()]
    is the argument [now].  Particles are visual only and are left out. *)

From Stdlib Require Import ZArith QArith Qround Qabs Lqa String Ascii List Bool DecimalString.
From stdpp Require Import base list.
Import ListNotations.

Local Open Scope Z_scope.

(** ** JavaScript numbers and comparisons *)

Definition Qltb (a b : Q) : bool := negb (Qle_bool b a).
Definition Qleb (a b : Q) : bool := Qle_bool a b.
Definition Qgeb (a b : Q) : bool := Qle_bool b a.
Definition Qgtb (a b : Q) : bool := negb (Qle_bool a b).

(** [Math.round x] is [floor (x + 1/2)]. *)
Definition Math_round (x : Q) : Z := Qfloor (x + (1 # 2)).

Definition Math_floor (x : Q) : Z := Qfloor x.

Definition Math_max (a b : Q) : Q := if Qltb a b then b else a.

(** ** Strings *)

Definition upper_ascii (c : ascii) : ascii :=
  let n := nat_of_ascii c in
  if (97 <=? n)%nat && (n <=? 122)%nat then ascii_of_nat (n - 32) else c.

Definition toUpperCase (s : string) : string :=
  string_of_list_ascii (List.map upper_ascii (list_ascii_of_string s)).

(** [s.charAt(0).toUpperCase() + s.slice(1)]. *)
Definition capitalize (s : string) : string :=
  match s with
  | EmptyString => EmptyString
  | String c rest => String (upper_ascii c) rest
  end.

(** ** Constants *)

Definition TILE_SIZE : Z := 20.
Definition GRAVITY : Q := 1 # 2.
Definition WORLD_WIDTH_TILES : Z := 150.
Definition WORLD_HEIGHT_TILES : Z := 30.
Definition WORLD_WIDTH_PIXELS : Z := WORLD_WIDTH_TILES * TILE_SIZE.
Definition WORLD_HEIGHT_PIXELS : Z := WORLD_HEIGHT_TILES * TILE_SIZE.
Definition GROWTH_TIME_PER_STAGE : Z := 5000.

(** ** Celestial and lighting model *)

Module Celestial.

Definition DEEP_NIGHT_SKY_COLOR : string := "#1A1A2E".
Definition DAWN_SKY_COLOR : string := "#4682B4".
Definition SUNRISE_TINT_COLOR : string := "#FFC0CB".
Definition MORNING_SKY_COLOR : string := "#87CEEB".
Definition AFTERNOON_SKY_COLOR : string := "#6A5ACD".
Definition SUNSET_TINT_COLOR : string := "#FF7F50".
Definition DUSK_SKY_COLOR : string := "#483D8B".

(** The object handed to [getSkyColor] as [colors]. *)
Record SkyColors := mkSkyColors {
  c_DEEP_NIGHT : string;
  c_DAWN : string;
  c_SUNRISE_TINT : string;
  c_MORNING : string;
  c_AFTERNOON : string;
  c_SUNSET_TINT : string;
  c_DUSK : string
}.

Definition skyColors : SkyColors :=
  mkSkyColors DEEP_NIGHT_SKY_COLOR DAWN_SKY_COLOR SUNRISE_TINT_COLOR
              MORNING_SKY_COLOR AFTERNOON_SKY_COLOR SUNSET_TINT_COLOR
              DUSK_SKY_COLOR.

(** *** Hexadecimal strings *)

Definition hex_value (c : ascii) : option Z :=
  let n := Z.of_nat (nat_of_ascii c) in
  if (48 <=? n) && (n <=? 57) then Some (n - 48)
  else if (65 <=? n) && (n <=? 70) then Some (n - 55)
  else if (97 <=? n) && (n <=? 102) then Some (n - 87)
  else None.

(** Longest prefix of hexadecimal digits, most significant first. *)
Fixpoint hex_prefix (s : string) (acc : option Z) : option Z :=
  match s with
  | EmptyString => acc
  | String c s' =>
      match hex_value c with
      | Some d => hex_prefix s' (Some (match acc with Some a => 16 * a + d | None => d end))
      | None => acc
      end
  end.

(** [StrWhiteSpaceChar]: tab, line feed, vertical tab, form feed, carriage
    return, space and no-break space.  A character of a string is a code
    unit below 256. *)
Definition is_white_space (c : ascii) : bool :=
  let n := Z.of_nat (nat_of_ascii c) in
  ((9 <=? n) && (n <=? 13)) || (n =? 32) || (n =? 160).

Fixpoint skip_white_space (s : string) : string :=
  match s with
  | EmptyString => EmptyString
  | String c s' => if is_white_space c then skip_white_space s' else s
  end.

(** The sign that a leading [-] or [+] gives, and the rest of the string. *)
Definition take_sign (s : string) : Z * string :=
  match s with
  | EmptyString => (1, s)
  | String c s' =>
      if Ascii.eqb c "-" then (-1, s')
      else if Ascii.eqb c "+" then (1, s')
      else (1, s)
  end.

(** A leading [0x] or [0X] is dropped. *)
Definition strip_0x (s : string) : string :=
  match s with
  | String c0 (String c1 s') =>
      if Ascii.eqb c0 "0" && (Ascii.eqb c1 "x" || Ascii.eqb c1 "X") then s' else s
  | _ => s
  end.

(** [parseInt(s, 16)]: leading white space is skipped, then a sign and a
    [0x] prefix are read, then the longest run of hexadecimal digits; [None]
    is [NaN].  The integers have one zero, which stands for [-0] too: both
    print and shift as 0. *)
Definition parseInt16 (s : string) : option Z :=
  let '(sign, digits) := take_sign (skip_white_space s) in
  match hex_prefix (strip_0x digits) None with
  | Some v => Some (sign * v)
  | None => None
  end.

Definition hex_digit (d : Z) : ascii :=
  ascii_of_nat (Z.to_nat (if d <? 10 then 48 + d else 87 + d)).

Definition hex_digits (n : Z) : string :=
  if n =? 0 then "0"%string
  else
    let k := Z.to_nat (Z.log2 n / 4 + 1) in
    string_of_list_ascii
      (List.map (fun i => hex_digit ((n / 16 ^ Z.of_nat i) mod 16)) (rev (seq 0 k))).

(** [n.toString(16)] for an integer [n]. *)
Definition toString16 (n : Z) : string :=
  if n <? 0 then ("-" ++ hex_digits (- n))%string else hex_digits n.

(** [s.slice(1)]. *)
Definition slice1 (s : string) : string :=
  match s with EmptyString => EmptyString | String _ s' => s' end.

(** *** 32-bit integer operators *)

Definition toInt32 (z : Z) : Z := (z + 2 ^ 31) mod 2 ^ 32 - 2 ^ 31.

(** Operand conversion of [<<] and [|]: [NaN] becomes 0. *)
Definition numToInt32 (n : option Z) : Z :=
  match n with Some z => toInt32 z | None => 0 end.

Definition js_shl (a : Z) (k : Z) : Z := toInt32 (Z.shiftl a k).
Definition js_or (a b : Z) : Z := Z.lor a b.

(** *** lerpColor *)

Definition hexToRgb (hex : string) : option Z * option Z * option Z :=
  (parseInt16 (substring 1 2 hex),
   parseInt16 (substring 3 2 hex),
   parseInt16 (substring 5 2 hex)).

Definition rgbToHex (r g b : option Z) : string :=
  ("#" ++ toUpperCase (slice1 (toString16
    (js_or (js_or (js_or (js_shl 1 24) (js_shl (numToInt32 r) 16))
                  (js_shl (numToInt32 g) 8))
           (numToInt32 b)))))%string.

(** [Math.round(c1 + factor * (c2 - c1))], [NaN] when a channel is. *)
Definition lerpChannel (c1 c2 : option Z) (factor : Q) : option Z :=
  match c1, c2 with
  | Some a, Some b => Some (Math_round (inject_Z a + factor * (inject_Z b - inject_Z a)))
  | _, _ => None
  end.

Definition lerpColor (color1 color2 : string) (factor : Q) : string :=
  let '(r1, g1, b1) := hexToRgb color1 in
  let '(r2, g2, b2) := hexToRgb color2 in
  let r := lerpChannel r1 r2 factor in
  let g := lerpChannel g1 g2 factor in
  let b := lerpChannel b1 b2 factor in
  rgbToHex r g b.

(** *** getSkyColor *)

Definition getSkyColor (time : Q) (colors : SkyColors) : string :=
  if Qgeb time 0 && Qltb time 5 then c_DEEP_NIGHT colors
  else if Qgeb time 5 && Qltb time 6 then
    lerpColor (c_DEEP_NIGHT colors) (c_DAWN colors) ((time - 5) / 1)
  else if Qgeb time 6 && Qltb time 7 then
    lerpColor (c_DAWN colors) (c_SUNRISE_TINT colors) ((time - 6) / 1)
  else if Qgeb time 7 && Qltb time 9 then
    lerpColor (c_SUNRISE_TINT colors) (c_MORNING colors) ((time - 7) / 2)
  else if Qgeb time 9 && Qltb time 16 then c_MORNING colors
  else if Qgeb time 16 && Qltb time 18 then
    lerpColor (c_MORNING colors) (c_AFTERNOON colors) ((time - 16) / 2)
  else if Qgeb time 18 && Qltb time 19 then
    lerpColor (c_AFTERNOON colors) (c_SUNSET_TINT colors) ((time - 18) / 1)
  else if Qgeb time 19 && Qltb time 21 then
    lerpColor (c_SUNSET_TINT colors) (c_DEEP_NIGHT colors) ((time - 19) / 2)
  else c_DEEP_NIGHT colors.

(** *** getAmbientLightFactor *)

Definition getAmbientLightFactor (time : Q) : Q :=
  if Qgeb time 5 && Qltb time 7 then (1 # 10) + (time - 5) / 2 * (4 # 10)
  else if Qgeb time 7 && Qltb time 9 then (5 # 10) + (time - 7) / 2 * (5 # 10)
  else if Qgeb time 9 && Qltb time 17 then 1
  else if Qgeb time 17 && Qltb time 19 then 1 - (time - 17) / 2 * (5 # 10)
  else if Qgeb time 19 && Qltb time 21 then (5 # 10) - (time - 19) / 2 * (4 # 10)
  else 1 # 10.

(** Breakpoints of the two piecewise definitions. *)
Definition skyBreakpoints : list Q := [0; 5; 6; 7; 9; 16; 18; 19; 21]%Q.
Definition lightBreakpoints : list Q := [5; 7; 9; 17; 19; 21]%Q.

(** The values just below [b] tend to the value at [b], which is the first
    value of the segment that starts there. *)
Definition light_limit_below (b : Q) : Prop :=
  forall eps : Q, (0 < eps)%Q ->
    exists delta : Q, (0 < delta)%Q /\
      forall t : Q, (b - delta < t)%Q -> (t < b)%Q ->
        (Qabs (getAmbientLightFactor t - getAmbientLightFactor b) < eps)%Q.

(** Colours are strings: the values just below [b] are eventually the value
    at [b]. *)
Definition sky_limit_below (colors : SkyColors) (b : Q) : Prop :=
  exists delta : Q, (0 < delta)%Q /\
    forall t : Q, (b - delta < t)%Q -> (t < b)%Q ->
      getSkyColor t colors = getSkyColor b colors.

End Celestial.

(** ** Outcomes, loops and arrays *)

(** A handler either finishes with a value or dies with the [TypeError] of
    reading a property of [undefined]. *)
Inductive res (A : Type) : Type :=
| Ok (a : A)
| TypeError.
Arguments Ok {A} a.
Arguments TypeError {A}.

(** What one run of a loop body does to the loop. *)
Inductive step (S : Type) : Type :=
| Next (s : S)
| Break (s : S)
| Raise.
Arguments Next {S} s.
Arguments Break {S} s.
Arguments Raise {S}.

(** [n] consecutive runs of [body], the counter starting at [i]. *)
Fixpoint for_range {S : Type} (n : nat) (i : Z) (body : Z -> S -> step S) (s : S) : res S :=
  match n with
  | O => Ok s
  | Datatypes.S n' =>
      match body i s with
      | Next s' => for_range n' (i + 1) body s'
      | Break s' => Ok s'
      | Raise => TypeError
      end
  end.

(** [for (let i = lo; i < hi; i++) body], for a bound [hi] that the body does
    not change. *)
Definition forZ {S : Type} (lo hi : Z) (body : Z -> S -> step S) (s : S) : res S :=
  for_range (Z.to_nat (hi - lo)) lo body s.

(** A nested loop as the body of the enclosing one. *)
Definition inner {S : Type} (r : res S) : step S :=
  match r with Ok s => Next s | TypeError => Raise end.

(** [a[i]] for an integer [i]; [None] is [undefined]. *)
Definition js_index {A : Type} (l : list A) (i : Z) : option A :=
  if i <? 0 then None else l !! Z.to_nat i.

(** The integers [lo, lo+1, ...], [n] of them. *)
Fixpoint zrange (lo : Z) (n : nat) : list Z :=
  match n with
  | O => []
  | Datatypes.S n' => lo :: zrange (lo + 1) n'
  end.

(** ** World grid *)

Inductive TileType := SKY | GRASS | DIRT | TILLED | CROP_PLANTED | CROP_GROWN.
Inductive CropType := WHEAT | CORN | POTATO.

#[global] Instance CropType_eq_dec : EqDecision CropType.
Proof. solve_decision. Defined.

Definition TileType_eqb (a b : TileType) : bool :=
  match a, b with
  | SKY, SKY | GRASS, GRASS | DIRT, DIRT | TILLED, TILLED
  | CROP_PLANTED, CROP_PLANTED | CROP_GROWN, CROP_GROWN => true
  | _, _ => false
  end.

(** Growth stages are the numbers 0, 1, 2 of [CROP_STAGE]. *)
Definition SEED : Z := 0.
Definition YOUNG : Z := 1.
Definition MATURE : Z := 2.

Record Crop := mkCrop {
  crop_type : CropType;
  stage : Z;
  plantedTime : Z
}.

Record Tile := mkTile {
  type : TileType;
  crop : option Crop
}.

(** The grid: rows from the top, each row from the left. *)
Abbreviation World := (list (list Tile)).

(** [world[y][x]] followed by a property read of the tile: a missing row or
    a missing tile ends in [TypeError]. *)
Definition getTile (world : World) (y x : Z) : res Tile :=
  match js_index world y with
  | None => TypeError
  | Some row =>
      match js_index row x with
      | None => TypeError
      | Some tile => Ok tile
      end
  end.

(** Every row has [w] tiles. *)
Definition is_grid (w : Z) (world : World) : Prop :=
  Forall (fun row => Z.of_nat (length row) = w) world.

(** ** Physics and collision resolver *)

Module Physics.

(** The fields the resolver works on, and the rest of the object, which the
    spread [{ ...entity }] carries over. *)
Record Entity (X : Type) := mkEntity {
  ent_x : Q;
  ent_y : Q;
  ent_width : Q;
  ent_height : Q;
  ent_vx : Q;
  ent_vy : Q;
  ent_onGround : bool;
  ent_extra : X
}.
Arguments mkEntity {X}.
Arguments ent_x {X}. Arguments ent_y {X}.
Arguments ent_width {X}. Arguments ent_height {X}.
Arguments ent_vx {X}. Arguments ent_vy {X}.
Arguments ent_onGround {X}. Arguments ent_extra {X}.

Section Resolver.
Context {X : Type}.

Definition set_x (e : Entity X) (v : Q) : Entity X :=
  mkEntity v (ent_y e) (ent_width e) (ent_height e) (ent_vx e) (ent_vy e) (ent_onGround e) (ent_extra e).
Definition set_y (e : Entity X) (v : Q) : Entity X :=
  mkEntity (ent_x e) v (ent_width e) (ent_height e) (ent_vx e) (ent_vy e) (ent_onGround e) (ent_extra e).
Definition set_vx (e : Entity X) (v : Q) : Entity X :=
  mkEntity (ent_x e) (ent_y e) (ent_width e) (ent_height e) v (ent_vy e) (ent_onGround e) (ent_extra e).
Definition set_vy (e : Entity X) (v : Q) : Entity X :=
  mkEntity (ent_x e) (ent_y e) (ent_width e) (ent_height e) (ent_vx e) v (ent_onGround e) (ent_extra e).
Definition set_onGround (e : Entity X) (v : bool) : Entity X :=
  mkEntity (ent_x e) (ent_y e) (ent_width e) (ent_height e) (ent_vx e) (ent_vy e) v (ent_extra e).

(** The four assignments that open [updateEntityPosition]. *)
Definition integrate (entity : Entity X) : Entity X :=
  let e := set_vy entity (ent_vy entity + GRAVITY) in
  let e := set_y e (ent_y e + ent_vy e) in
  let e := set_x e (ent_x e + ent_vx e) in
  set_onGround e false.

(** The two world-edge tests. *)
Definition clampToWorld (e : Entity X) : Entity X :=
  let e := if Qltb (ent_x e) 0 then set_x e 0 else e in
  if Qgtb (ent_x e + ent_width e) (inject_Z WORLD_WIDTH_PIXELS)
  then set_x e (inject_Z WORLD_WIDTH_PIXELS - ent_width e) else e.

(** The body of the innermost [if]: the entity against one solid tile. *)
Definition collide (tileTop tileBottom tileLeft tileRight : Q) (e : Entity X) : Entity X :=
  if Qltb (ent_x e) tileRight && Qgtb (ent_x e + ent_width e) tileLeft &&
     Qltb (ent_y e) tileBottom && Qgtb (ent_y e + ent_height e) tileTop
  then
    if Qgtb (ent_vy e) 0 && Qleb (ent_y e + ent_height e) tileBottom &&
       Qgeb (ent_y e + ent_height e) tileTop
    then set_onGround (set_vy (set_y e (tileTop - ent_height e)) 0) true
    else if Qltb (ent_vy e) 0
    then set_vy (set_y e tileBottom) 0
    else if Qgtb (ent_vx e) 0
    then set_vx (set_x e (tileLeft - ent_width e)) 0
    else if Qltb (ent_vx e) 0
    then set_vx (set_x e tileRight) 0
    else e
  else e.

(** The body of the two nested loops at tile [(x, y)]. *)
Definition visitTile (world : World) (widthTiles : Z) (y x : Z) (e : Entity X) : step (Entity X) :=
  if (0 <=? x) && (x <? widthTiles) && (0 <=? y) && (y <? Z.of_nat (length world)) then
    match getTile world y x with
    | TypeError => Raise
    | Ok tile =>
        if negb (TileType_eqb (type tile) SKY) then
          let tileTop := inject_Z (y * TILE_SIZE) in
          let tileBottom := (tileTop + inject_Z TILE_SIZE)%Q in
          let tileLeft := inject_Z (x * TILE_SIZE) in
          let tileRight := (tileLeft + inject_Z TILE_SIZE)%Q in
          Next (collide tileTop tileBottom tileLeft tileRight e)
        else Next e
    end
  else Next e.

Definition leftTile (e : Entity X) : Z := Math_floor (ent_x e / inject_Z TILE_SIZE).
Definition rightTile (e : Entity X) : Z :=
  Math_floor ((ent_x e + ent_width e - 1) / inject_Z TILE_SIZE).
Definition topTile (e : Entity X) : Z := Math_floor (ent_y e / inject_Z TILE_SIZE).
Definition bottomTile (e : Entity X) : Z :=
  Math_floor ((ent_y e + ent_height e - 1) / inject_Z TILE_SIZE).

Definition updateEntityPosition (entity : Entity X) (world : World) (widthTiles : Z)
  : res (Entity X) :=
  let newEntity := clampToWorld (integrate entity) in
  let leftTile := leftTile newEntity in
  let rightTile := rightTile newEntity in
  let topTile := topTile newEntity in
  let bottomTile := bottomTile newEntity in
  forZ topTile (bottomTile + 1)
    (fun y e => inner (forZ leftTile (rightTile + 1) (visitTile world widthTiles y) e))
    newEntity.

(** *** The resolver as the specification words it *)

(** Clamp [v] into [[lo, hi]]. *)
Definition clamp (lo hi v : Q) : Q :=
  let m := if Qltb v lo then lo else v in
  if Qltb hi m then hi else m.

(** The entity moves down and its bottom edge is within the tile's
    vertical span. *)
Definition landing (tileTop tileBottom : Q) (e : Entity X) : Prop :=
  (0 < ent_vy e /\ tileTop <= ent_y e + ent_height e /\
   ent_y e + ent_height e <= tileBottom)%Q.

Inductive Resolution := LandOnTop | HitFromBelow | HitMovingRight | HitMovingLeft | NoMove.

(** Which of the four resolutions applies, in the order of precedence. *)
Definition chooseResolution (tileTop tileBottom : Q) (e : Entity X) : Resolution :=
  let bottomEdge := (ent_y e + ent_height e)%Q in
  if Qgtb (ent_vy e) 0 && (Qleb tileTop bottomEdge && Qleb bottomEdge tileBottom) then LandOnTop
  else if Qltb (ent_vy e) 0 then HitFromBelow
  else if Qgtb (ent_vx e) 0 then HitMovingRight
  else if Qltb (ent_vx e) 0 then HitMovingLeft
  else NoMove.

Definition applyResolution (r : Resolution) (tileTop tileBottom tileLeft tileRight : Q)
  (e : Entity X) : Entity X :=
  match r with
  | LandOnTop =>
      mkEntity (ent_x e) (tileTop - ent_height e) (ent_width e) (ent_height e)
               (ent_vx e) 0 true (ent_extra e)
  | HitFromBelow =>
      mkEntity (ent_x e) tileBottom (ent_width e) (ent_height e)
               (ent_vx e) 0 (ent_onGround e) (ent_extra e)
  | HitMovingRight =>
      mkEntity (tileLeft - ent_width e) (ent_y e) (ent_width e) (ent_height e)
               0 (ent_vy e) (ent_onGround e) (ent_extra e)
  | HitMovingLeft =>
      mkEntity tileRight (ent_y e) (ent_width e) (ent_height e)
               0 (ent_vy e) (ent_onGround e) (ent_extra e)
  | NoMove => e
  end.

(** The entity's box and the box of tile [(x, y)] intersect. *)
Definition tileTopOf (y : Z) : Q := inject_Z (y * TILE_SIZE).
Definition tileBottomOf (y : Z) : Q := tileTopOf y + inject_Z TILE_SIZE.
Definition tileLeftOf (x : Z) : Q := inject_Z (x * TILE_SIZE).
Definition tileRightOf (x : Z) : Q := tileLeftOf x + inject_Z TILE_SIZE.

Definition overlaps (y x : Z) (e : Entity X) : bool :=
  Qltb (ent_x e) (tileRightOf x) &&
  Qltb (tileLeftOf x) (ent_x e + ent_width e) &&
  Qltb (ent_y e) (tileBottomOf y) &&
  Qltb (tileTopOf y) (ent_y e + ent_height e).

(** The tile at [(x, y)] is inside the grid and is not sky. *)
Definition solidAt (world : World) (widthTiles : Z) (y x : Z) : bool :=
  (0 <=? x) && (x <? widthTiles) && (0 <=? y) && (y <? Z.of_nat (length world)) &&
  match getTile world y x with
  | Ok tile => negb (TileType_eqb (type tile) SKY)
  | TypeError => false
  end.

Definition resolveTile (world : World) (widthTiles : Z) (e : Entity X) (yx : Z * Z) : Entity X :=
  let '(y, x) := yx in
  if solidAt world widthTiles y x && overlaps y x e then
    applyResolution (chooseResolution (tileTopOf y) (tileBottomOf y) e)
                    (tileTopOf y) (tileBottomOf y) (tileLeftOf x) (tileRightOf x) e
  else e.

(** Tiles of the rectangle row by row from the top, each row left to right. *)
Definition scanOrder (top bottom left right : Z) : list (Z * Z) :=
  flat_map (fun y => List.map (fun x => (y, x)) (zrange left (Z.to_nat (right + 1 - left))))
           (zrange top (Z.to_nat (bottom + 1 - top))).

(** Gravity, then the two position updates. *)
Definition integrateSpec (e : Entity X) : Entity X :=
  let vy' := (ent_vy e + GRAVITY)%Q in
  mkEntity (ent_x e + ent_vx e) (ent_y e + vy') (ent_width e) (ent_height e)
           (ent_vx e) vy' false (ent_extra e).

Definition clampSpec (e : Entity X) : Entity X :=
  mkEntity (clamp 0 (inject_Z WORLD_WIDTH_PIXELS - ent_width e) (ent_x e))
           (ent_y e) (ent_width e) (ent_height e) (ent_vx e) (ent_vy e)
           (ent_onGround e) (ent_extra e).

(** The tick as the specification words it: the rectangle of tile indices
    is [floor] of each edge of the moved box, inclusive, so it holds every
    tile the box overlaps. *)
Definition physicsTickWorded (e : Entity X) (world : World) (widthTiles : Z) : Entity X :=
  let e0 := clampSpec (integrateSpec e) in
  fold_left (resolveTile world widthTiles)
            (scanOrder (Math_floor (ent_y e0 / inject_Z TILE_SIZE))
                       (Math_floor ((ent_y e0 + ent_height e0) / inject_Z TILE_SIZE))
                       (Math_floor (ent_x e0 / inject_Z TILE_SIZE))
                       (Math_floor ((ent_x e0 + ent_width e0) / inject_Z TILE_SIZE)))
            e0.

(** The tick with the rectangle of the amended statement: the right and the
    bottom edge are taken one pixel inside the moved box before [floor], so
    a tile that the box enters by no more than a pixel from the left or
    from above is not in the rectangle. *)
Definition physicsTickSpec (e : Entity X) (world : World) (widthTiles : Z) : Entity X :=
  let e0 := clampSpec (integrateSpec e) in
  fold_left (resolveTile world widthTiles)
            (scanOrder (Math_floor (ent_y e0 / inject_Z TILE_SIZE))
                       (Math_floor ((ent_y e0 + ent_height e0 - 1) / inject_Z TILE_SIZE))
                       (Math_floor (ent_x e0 / inject_Z TILE_SIZE))
                       (Math_floor ((ent_x e0 + ent_width e0 - 1) / inject_Z TILE_SIZE)))
            e0.

(** The fields the resolver never assigns are the same in [e] and [e']. *)
Definition sameFrame (e e' : Entity X) : Prop :=
  ent_width e' = ent_width e /\ ent_height e' = ent_height e /\ ent_extra e' = ent_extra e.

End Resolver.
End Physics.

(** ** Game objects *)

Inductive Facing := FacingLeft | FacingRight.
Inductive VehicleType := Tractor | CombineHarvester.
Inductive AttachmentType := Plow | Seeder.

(** A status toast: the message and how long it stays, in milliseconds. *)
Definition Status : Type := string * Z.

Definition cropName (c : CropType) : string :=
  match c with WHEAT => "wheat" | CORN => "corn" | POTATO => "potato" end.

Definition vehicleName (v : VehicleType) : string :=
  match v with Tractor => "tractor" | CombineHarvester => "combine harvester" end.

(** The six fixed keys of [player.inventory]. *)
Record Inventory := mkInventory {
  wheatSeeds : Z;
  cornSeeds : Z;
  potatoSeeds : Z;
  wheat : Z;
  corn : Z;
  potato : Z
}.

(** [inventory[cropType]] *)
Definition cropCount (inv : Inventory) (c : CropType) : Z :=
  match c with WHEAT => wheat inv | CORN => corn inv | POTATO => potato inv end.

(** [inventory[seedInventoryKey]] for the seed key of a crop kind *)
Definition seedCount (inv : Inventory) (c : CropType) : Z :=
  match c with WHEAT => wheatSeeds inv | CORN => cornSeeds inv | POTATO => potatoSeeds inv end.

(** [{ ...inventory, [cropType]: v }] *)
Definition setCropCount (inv : Inventory) (c : CropType) (v : Z) : Inventory :=
  match c with
  | WHEAT => mkInventory (wheatSeeds inv) (cornSeeds inv) (potatoSeeds inv) v (corn inv) (potato inv)
  | CORN => mkInventory (wheatSeeds inv) (cornSeeds inv) (potatoSeeds inv) (wheat inv) v (potato inv)
  | POTATO => mkInventory (wheatSeeds inv) (cornSeeds inv) (potatoSeeds inv) (wheat inv) (corn inv) v
  end.

(** [{ ...inventory, [seedInventoryKey]: v }] *)
Definition setSeedCount (inv : Inventory) (c : CropType) (v : Z) : Inventory :=
  match c with
  | WHEAT => mkInventory v (cornSeeds inv) (potatoSeeds inv) (wheat inv) (corn inv) (potato inv)
  | CORN => mkInventory (wheatSeeds inv) v (potatoSeeds inv) (wheat inv) (corn inv) (potato inv)
  | POTATO => mkInventory (wheatSeeds inv) (cornSeeds inv) v (wheat inv) (corn inv) (potato inv)
  end.

(** What the player object holds besides position, size and velocity. *)
Record PlayerX := mkPlayerX {
  p_speed : Q;
  p_jumpPower : Q;
  p_isInVehicle : bool;
  p_facing : Facing;
  inventory : Inventory;
  money : Q;
  maxStorage : Z;
  siloBuilt : bool
}.

Record AttachmentX := mkAttachmentX {
  a_isHitched : bool;
  a_type : AttachmentType
}.

Definition Player := Physics.Entity PlayerX.
Definition Attachment := Physics.Entity AttachmentX.

(** Tractor and combine harvester.  Only the tractor has [equipment], which
    holds the attachment object it was hitched to; only the combine
    harvester has [isHitched], which no code reads. *)
Record VehicleX := mkVehicleX {
  v_speed : Q;
  v_jumpPower : Q;
  v_equipment : option Attachment;
  v_isHitched : bool;
  v_isInVehicle : bool;
  v_type : VehicleType;
  v_facing : Facing;
  fuel : Q;
  maxFuel : Q;
  fuelConsumption : Q;
  upgradeLevel : Z
}.

Definition Vehicle := Physics.Entity VehicleX.

Import Physics.

Definition withExtra {X : Type} (e : Entity X) (x : X) : Entity X :=
  mkEntity (ent_x e) (ent_y e) (ent_width e) (ent_height e) (ent_vx e) (ent_vy e)
           (ent_onGround e) x.

Definition isInVehicle (p : Player) : bool := p_isInVehicle (ent_extra p).

(** [{ ...player, inventory: inv }] *)
Definition setInventory (p : Player) (inv : Inventory) : Player :=
  let r := ent_extra p in
  withExtra p (mkPlayerX (p_speed r) (p_jumpPower r) (p_isInVehicle r) (p_facing r)
                         inv (money r) (maxStorage r) (siloBuilt r)).

(** [player.isInVehicle = b] *)
Definition setPlayerInVehicle (p : Player) (b : bool) : Player :=
  let r := ent_extra p in
  withExtra p (mkPlayerX (p_speed r) (p_jumpPower r) b (p_facing r)
                         (inventory r) (money r) (maxStorage r) (siloBuilt r)).

(** [{ ...vehicle, isInVehicle: b }] *)
Definition setVehicleOccupied (v : Vehicle) (b : bool) : Vehicle :=
  let r := ent_extra v in
  withExtra v (mkVehicleX (v_speed r) (v_jumpPower r) (v_equipment r) (v_isHitched r) b (v_type r)
                          (v_facing r) (fuel r) (maxFuel r) (fuelConsumption r)
                          (upgradeLevel r)).

(** [{ ...vehicle, vx: newVx, fuel: newFuel, facing: newFacing }] *)
Definition setDrive (v : Vehicle) (newVx newFuel : Q) (newFacing : Facing) : Vehicle :=
  let r := ent_extra v in
  mkEntity (ent_x v) (ent_y v) (ent_width v) (ent_height v) newVx (ent_vy v) (ent_onGround v)
           (mkVehicleX (v_speed r) (v_jumpPower r) (v_equipment r) (v_isHitched r)
                       (v_isInVehicle r)
                       (v_type r) newFacing newFuel (maxFuel r) (fuelConsumption r)
                       (upgradeLevel r)).

(** The keys the movement handlers look at. *)
Record Keys := mkKeys {
  key_a : bool;
  key_arrowleft : bool;
  key_d : bool;
  key_arrowright : bool;
  key_w : bool;
  key_arrowup : bool
}.

(** ** World generation *)

Definition groundStartRow : Z := Math_floor (inject_Z WORLD_HEIGHT_TILES * (75 # 100)).

Definition generatedTile (y : Z) : Tile :=
  if (groundStartRow <=? y) && (y <? groundStartRow + 3) then mkTile GRASS None
  else if groundStartRow + 3 <=? y then mkTile DIRT None
  else mkTile SKY None.

(** The two nested loops of [generateWorld] that push tiles and rows. *)
Definition generateWorld : World :=
  List.map (fun y => List.map (fun _ => generatedTile y)
                              (zrange 0 (Z.to_nat WORLD_WIDTH_TILES)))
           (zrange 0 (Z.to_nat WORLD_HEIGHT_TILES)).

(** ** Manual field work *)

(** [world.map((row, y) => row.map((tile, x) => f))] for a callback that also
    shows status messages: the new world and the messages in call order. *)
Definition mapTiles (f : Z -> Z -> Tile -> Tile * list Status) (world : World)
  : World * list Status :=
  let rows :=
    imap (fun y row =>
            let cells := imap (fun x tile => f (Z.of_nat y) (Z.of_nat x) tile) row in
            (fst <$> cells, concat (snd <$> cells)))
         world in
  (fst <$> rows, concat (snd <$> rows)).

(** [newWorld[y][x] = tile], reached only after [newWorld[y][x]] was read. *)
Definition setTile (world : World) (y x : Z) (tile : Tile) : World :=
  if (y <? 0) || (x <? 0) then world
  else
    match world !! Z.to_nat y with
    | Some row => <[Z.to_nat y := <[Z.to_nat x := tile]> row]> world
    | None => world
    end.

(** The tile under the middle of the player's feet. *)
Definition targetTileX (p : Player) : Z :=
  Math_floor ((ent_x p + ent_width p / 2) / inject_Z TILE_SIZE).
Definition targetTileY (p : Player) : Z :=
  Math_floor ((ent_y p + ent_height p) / inject_Z TILE_SIZE).

Definition isGrassOrDirt (t : TileType) : bool :=
  TileType_eqb t GRASS || TileType_eqb t DIRT.

Definition hasCrop (tile : Tile) : bool :=
  match crop tile with Some _ => true | None => false end.

Definition handleTillSoil (world : World) (prevPlayer : Player)
  : World * Player * list Status :=
  if isInVehicle prevPlayer then (world, prevPlayer, [])
  else if Z.of_nat (length world) =? 0 then (world, prevPlayer, [])
  else
    let tileX := targetTileX prevPlayer in
    let tileY := targetTileY prevPlayer in
    if (tileY <? WORLD_HEIGHT_TILES) && (tileX <? WORLD_WIDTH_TILES) then
      let '(newWorld, shown) :=
        mapTiles (fun y x tile =>
                    if (x =? tileX) && (y =? tileY) && isGrassOrDirt (type tile)
                    then (mkTile TILLED (crop tile), [("Tilled soil"%string, 1000)])
                    else (tile, []))
                 world in
      (newWorld, prevPlayer, shown)
    else (world, prevPlayer, []).

Definition handlePlantCrop (world : World) (prevPlayer : Player)
  (selectedCropType : CropType) (now : Z) : res (World * Player * list Status) :=
  if isInVehicle prevPlayer then Ok (world, prevPlayer, [])
  else if Z.of_nat (length world) =? 0 then Ok (world, prevPlayer, [])
  else
    let tileX := targetTileX prevPlayer in
    let tileY := targetTileY prevPlayer in
    if (tileY <? WORLD_HEIGHT_TILES) && (tileX <? WORLD_WIDTH_TILES) then
      match getTile world tileY tileX with
      | TypeError => TypeError
      | Ok tile =>
          if TileType_eqb (type tile) TILLED && negb (hasCrop tile) then
            let inv := inventory (ent_extra prevPlayer) in
            if seedCount inv selectedCropType >? 0 then
              let '(newWorld, shown) :=
                mapTiles (fun y x t =>
                            if (x =? tileX) && (y =? tileY)
                            then (mkTile CROP_PLANTED (Some (mkCrop selectedCropType SEED now)),
                                  [((capitalize (cropName selectedCropType) ++ " planted!")%string, 1500)])
                            else (t, []))
                         world in
              Ok (newWorld,
                  setInventory prevPlayer
                    (setSeedCount inv selectedCropType (seedCount inv selectedCropType - 1)),
                  shown)
            else Ok (world, prevPlayer,
                     [(("No " ++ cropName selectedCropType ++ " seeds!")%string, 1000)])
          else if hasCrop tile then
            Ok (world, prevPlayer, [("Already something here!"%string, 1000)])
          else Ok (world, prevPlayer, [("Needs tilled soil!"%string, 1000)])
      end
    else Ok (world, prevPlayer, []).

(** [tile.type === CROP_GROWN && tile.crop && tile.crop.stage === MATURE] *)
Definition matureCrop (tile : Tile) : option Crop :=
  match crop tile with
  | Some c => if TileType_eqb (type tile) CROP_GROWN && (stage c =? MATURE) then Some c else None
  | None => None
  end.

Definition handleHarvestCrop (world : World) (prevPlayer : Player)
  : res (World * Player * list Status) :=
  if isInVehicle prevPlayer then Ok (world, prevPlayer, [])
  else if Z.of_nat (length world) =? 0 then Ok (world, prevPlayer, [])
  else
    let tileX := targetTileX prevPlayer in
    let tileY := targetTileY prevPlayer in
    if (tileY <? WORLD_HEIGHT_TILES) && (tileX <? WORLD_WIDTH_TILES) then
      match getTile world tileY tileX with
      | TypeError => TypeError
      | Ok tile =>
          match matureCrop tile with
          | Some c =>
              let harvestedCropType := crop_type c in
              let inv := inventory (ent_extra prevPlayer) in
              let currentCropCount := cropCount inv harvestedCropType in
              if currentCropCount <? maxStorage (ent_extra prevPlayer) then
                let '(newWorld, shown) :=
                  mapTiles (fun y x t =>
                              if (x =? tileX) && (y =? tileY)
                              then (mkTile TILLED None,
                                    [(("Harvested " ++ capitalize (cropName harvestedCropType) ++ "!")%string, 1500)])
                              else (t, []))
                           world in
                Ok (newWorld,
                    setInventory prevPlayer
                      (setCropCount inv harvestedCropType (cropCount inv harvestedCropType + 1)),
                    shown)
              else Ok (world, prevPlayer,
                       [("Storage full! Sell crops to make space."%string, 1500)])
          | None =>
              match crop tile with
              | Some c =>
                  if negb (stage c =? MATURE)
                  then Ok (world, prevPlayer, [("Crop not mature yet!"%string, 1000)])
                  else Ok (world, prevPlayer, [("Nothing to harvest here!"%string, 1000)])
              | None => Ok (world, prevPlayer, [("Nothing to harvest here!"%string, 1000)])
              end
          end
      end
    else Ok (world, prevPlayer, []).

(** ** Automated field work *)

(** [tractor.equipment?.type !== kind] *)
Definition equipmentIsNot (tractor : Vehicle) (kind : AttachmentType) : bool :=
  match v_equipment (ent_extra tractor) with
  | Some a =>
      match a_type (ent_extra a), kind with
      | Plow, Plow | Seeder, Seeder => false
      | _, _ => true
      end
  | None => true
  end.

(** The guard that opens the plow and the seeder action. *)
Definition implementIdle (tractor : Vehicle) (kind : AttachmentType) : bool :=
  equipmentIsNot tractor kind || Qeq_bool (ent_vx tractor) 0 ||
  Qleb (fuel (ent_extra tractor)) 0.

(** Number of runs of [for (let i = 0; i < width / TILE_SIZE; i++)]: an
    integer [i] is below the quotient exactly when it is below its ceiling. *)
Definition footprint (a : Attachment) : Z :=
  Qceiling (ent_width a / inject_Z TILE_SIZE).

Definition plowStep (plow : Attachment) (plowY : Z) (i : Z) (newWorld : World) : step World :=
  let plowX := Math_floor ((ent_x plow + inject_Z (i * TILE_SIZE)) / inject_Z TILE_SIZE) in
  if (plowY <? WORLD_HEIGHT_TILES) && (0 <=? plowX) && (plowX <? WORLD_WIDTH_TILES) then
    match getTile newWorld plowY plowX with
    | TypeError => Raise
    | Ok tile =>
        if isGrassOrDirt (type tile) && negb (hasCrop tile)
        then Next (setTile newWorld plowY plowX (mkTile TILLED (crop tile)))
        else Next newWorld
    end
  else Next newWorld.

Definition applyPlowAction (tractor : Vehicle) (plow : Attachment) (world : World)
  : res World :=
  if implementIdle tractor Plow then Ok world
  else if Z.of_nat (length world) =? 0 then Ok world
  else
    let plowY := Math_floor ((ent_y plow + ent_height plow) / inject_Z TILE_SIZE) in
    forZ 0 (footprint plow) (plowStep plow plowY) world.

(** Loop state of the seeder: the world copy, [seedsConsumed] and the
    messages shown so far. *)
Definition SeederState : Type := World * Z * list Status.

Definition seederStep (seeder : Attachment) (seederY : Z) (player : Player)
  (selectedCropType : CropType) (now : Z) (i : Z) (st : SeederState) : step SeederState :=
  let '(newWorld, seedsConsumed, shown) := st in
  let seederX := Math_floor ((ent_x seeder + inject_Z (i * TILE_SIZE)) / inject_Z TILE_SIZE) in
  if (seederY <? WORLD_HEIGHT_TILES) && (0 <=? seederX) && (seederX <? WORLD_WIDTH_TILES) then
    match getTile newWorld seederY seederX with
    | TypeError => Raise
    | Ok tile =>
        if TileType_eqb (type tile) TILLED && negb (hasCrop tile) then
          if seedCount (inventory (ent_extra player)) selectedCropType - seedsConsumed >? 0 then
            Next (setTile newWorld seederY seederX
                    (mkTile CROP_PLANTED (Some (mkCrop selectedCropType SEED now))),
                  seedsConsumed + 1, shown)
          else
            Next (newWorld, seedsConsumed,
                  shown ++ [(("No " ++ cropName selectedCropType ++ " seeds to plant!")%string, 100)])
        else Next st
    end
  else Next st.

Definition applySeederAction (tractor : Vehicle) (seeder : Attachment) (world : World)
  (player : Player) (selectedCropType : CropType) (now : Z)
  : res (World * Player * list Status) :=
  if implementIdle tractor Seeder then Ok (world, player, [])
  else if Z.of_nat (length world) =? 0 then Ok (world, player, [])
  else
    let seederY := Math_floor ((ent_y seeder + ent_height seeder) / inject_Z TILE_SIZE) in
    match forZ 0 (footprint seeder)
               (seederStep seeder seederY player selectedCropType now) (world, 0, []) with
    | TypeError => TypeError
    | Ok (newWorld, seedsConsumed, shown) =>
        let inv := inventory (ent_extra player) in
        if seedsConsumed >? 0
        then Ok (newWorld,
                 setInventory player
                   (setSeedCount inv selectedCropType
                      (seedCount inv selectedCropType - seedsConsumed)),
                 shown)
        else Ok (newWorld, player, shown)
    end.

(** [harvestedCount], the units of each kind cut in this pass. *)
Record Harvested := mkHarvested {
  h_wheat : Z;
  h_corn : Z;
  h_potato : Z
}.

Definition harvestedOf (h : Harvested) (c : CropType) : Z :=
  match c with WHEAT => h_wheat h | CORN => h_corn h | POTATO => h_potato h end.

(** [harvestedCount[kind]++] *)
Definition bump (h : Harvested) (c : CropType) : Harvested :=
  match c with
  | WHEAT => mkHarvested (h_wheat h + 1) (h_corn h) (h_potato h)
  | CORN => mkHarvested (h_wheat h) (h_corn h + 1) (h_potato h)
  | POTATO => mkHarvested (h_wheat h) (h_corn h) (h_potato h + 1)
  end.

Definition CombineState : Type := World * Harvested * list Status.

Definition combineStep (combineY : Z) (player : Player) (x : Z) (st : CombineState)
  : step CombineState :=
  let '(newWorld, harvestedCount, shown) := st in
  if (combineY <? WORLD_HEIGHT_TILES) && (0 <=? x) && (x <? WORLD_WIDTH_TILES) then
    match getTile newWorld combineY x with
    | TypeError => Raise
    | Ok tile =>
        match matureCrop tile with
        | Some c =>
            let currentCropCount := cropCount (inventory (ent_extra player)) (crop_type c) in
            if currentCropCount + harvestedOf harvestedCount (crop_type c)
               <? maxStorage (ent_extra player)
            then Next (setTile newWorld combineY x (mkTile TILLED None),
                       bump harvestedCount (crop_type c), shown)
            else Break (newWorld, harvestedCount,
                        shown ++ [("Storage full! Cannot harvest more."%string, 1500)])
        | None => Next st
        end
    end
  else Next st.

Definition combineIdle (combineHarvester : Vehicle) : bool :=
  negb (v_isInVehicle (ent_extra combineHarvester)) ||
  Qeq_bool (ent_vx combineHarvester) 0 ||
  Qleb (fuel (ent_extra combineHarvester)) 0.

Definition headerWidth : Z := TILE_SIZE * 2.

(** [startX] and [endX] of the header, by the direction the combine faces. *)
Definition headerSpan (combineHarvester : Vehicle) : Z * Z :=
  match v_facing (ent_extra combineHarvester) with
  | FacingRight =>
      (Math_floor ((ent_x combineHarvester + ent_width combineHarvester) / inject_Z TILE_SIZE),
       Math_floor ((ent_x combineHarvester + ent_width combineHarvester + inject_Z headerWidth)
                   / inject_Z TILE_SIZE))
  | FacingLeft =>
      (Math_floor ((ent_x combineHarvester - inject_Z headerWidth) / inject_Z TILE_SIZE),
       Math_floor (ent_x combineHarvester / inject_Z TILE_SIZE))
  end.

Definition applyCombineAction (combineHarvester : Vehicle) (world : World) (player : Player)
  : res (World * Player * list Status) :=
  if combineIdle combineHarvester then Ok (world, player, [])
  else if Z.of_nat (length world) =? 0 then Ok (world, player, [])
  else
    let combineY :=
      Math_floor ((ent_y combineHarvester + ent_height combineHarvester) / inject_Z TILE_SIZE) in
    let '(startX, endX) := headerSpan combineHarvester in
    match forZ (Z.min startX endX) (Z.max startX endX)
               (combineStep combineY player) (world, mkHarvested 0 0 0, []) with
    | TypeError => TypeError
    | Ok (newWorld, harvestedCount, shown) =>
        if (h_wheat harvestedCount >? 0) || (h_corn harvestedCount >? 0) ||
           (h_potato harvestedCount >? 0)
        then
          let inv := inventory (ent_extra player) in
          Ok (newWorld,
              setInventory player
                (mkInventory (wheatSeeds inv) (cornSeeds inv) (potatoSeeds inv)
                             (wheat inv + h_wheat harvestedCount)
                             (corn inv + h_corn harvestedCount)
                             (potato inv + h_potato harvestedCount)),
              shown ++ [("Harvested with combine!"%string, 1500)])
        else Ok (newWorld, player, shown)
    end.

(** ** Crop growth *)

(** The growth rule for one tile, as a function of the tile alone. *)
Definition growTile (now : Z) (tile : Tile) : Tile :=
  match crop tile with
  | Some c =>
      if TileType_eqb (type tile) CROP_PLANTED then
        let timeElapsed := now - plantedTime c in
        if timeElapsed >=? GROWTH_TIME_PER_STAGE * (stage c + 1) then
          let newStage := stage c + 1 in
          mkTile (if newStage >=? MATURE then CROP_GROWN else CROP_PLANTED)
                 (Some (mkCrop (crop_type c) newStage (plantedTime c)))
        else tile
      else tile
  | None => tile
  end.

(** The body of the two nested loops of [updateCropGrowth]. *)
Definition growStep (now : Z) (y x : Z) (newWorld : World) : step World :=
  match getTile newWorld y x with
  | TypeError => Raise
  | Ok tile =>
      match crop tile with
      | Some c =>
          if TileType_eqb (type tile) CROP_PLANTED then
            let timeElapsed := now - plantedTime c in
            if timeElapsed >=? GROWTH_TIME_PER_STAGE * (stage c + 1) then
              let newStage := stage c + 1 in
              Next (setTile newWorld y x
                      (mkTile (if newStage >=? MATURE then CROP_GROWN else CROP_PLANTED)
                              (Some (mkCrop (crop_type c) newStage (plantedTime c)))))
            else Next newWorld
          else Next newWorld
      | None => Next newWorld
      end
  end.

Definition updateCropGrowth (now : Z) (world : World) : res World :=
  if Z.of_nat (length world) =? 0 then Ok world
  else
    forZ 0 WORLD_HEIGHT_TILES
      (fun y w => inner (forZ 0 WORLD_WIDTH_TILES (growStep now y) w))
      world.

(** Growth ticks at the given times, one after the other. *)
Fixpoint growthTicks (times : list Z) (world : World) : res World :=
  match times with
  | [] => Ok world
  | now :: rest =>
      match updateCropGrowth now world with
      | Ok world' => growthTicks rest world'
      | TypeError => TypeError
      end
  end.

(** ** Vehicles *)

Definition isMovingKey (keys : Keys) : bool :=
  key_a keys || key_arrowleft keys || key_d keys || key_arrowright keys.

Definition handleTractorMovement (keys : Keys) (prevTractor : Vehicle)
  : Vehicle * list Status :=
  let r := ent_extra prevTractor in
  if negb (v_isInVehicle r) then (set_vx prevTractor 0, [])
  else if Qleb (fuel r) 0 && isMovingKey keys then
    (set_vx prevTractor 0, [("Tractor out of fuel!"%string, 1000)])
  else if key_a keys || key_arrowleft keys then
    (setDrive prevTractor (- v_speed r) (Math_max 0 (fuel r - fuelConsumption r)) FacingLeft, [])
  else if key_d keys || key_arrowright keys then
    (setDrive prevTractor (v_speed r) (Math_max 0 (fuel r - fuelConsumption r)) FacingRight, [])
  else (setDrive prevTractor 0 (fuel r) (v_facing r), []).

Definition enterRange : Q := 80.

(** Square of the distance between the top-left corners of player and
    vehicle.  [Math.sqrt] is strictly increasing, so the handler's
    comparisons of distances are comparisons of these squares, and
    [distance < enterRange] is [distance2 < enterRange * enterRange]. *)
Definition distance2 (p : Player) (v : Vehicle) : Q :=
  (ent_x p - ent_x v) * (ent_x p - ent_x v) + (ent_y p - ent_y v) * (ent_y p - ent_y v).

(** One run of [for (const vehicle of [tractor, combineHarvester])]; the
    state is [closestVehicle] with the square of [minDistance], [None]
    while [minDistance] is [Infinity]. *)
Definition closerVehicle (p : Player) (best : option (Vehicle * Q)) (vehicle : Vehicle)
  : option (Vehicle * Q) :=
  let d2 := distance2 p vehicle in
  let belowMin := match best with Some (_, m2) => Qltb d2 m2 | None => true end in
  if belowMin && Qltb d2 (enterRange * enterRange) then Some (vehicle, d2) else best.

Definition closestVehicle (p : Player) (vehicles : list Vehicle) : option Vehicle :=
  option_map fst (fold_left (closerVehicle p) vehicles None).

Definition groundLevelY : Z := groundStartRow * TILE_SIZE.

(** The vehicle the player sits in, tractor first. *)
Definition currentVehicle (tractor combineHarvester : Vehicle) : option Vehicle :=
  if v_isInVehicle (ent_extra tractor) then Some tractor
  else if v_isInVehicle (ent_extra combineHarvester) then Some combineHarvester
  else None.

(** The [setTractor] or [setCombineHarvester] call chosen by
    [vehicle.type]. *)
Definition markVehicle (vehicle : Vehicle) (b : bool) (tractor combineHarvester : Vehicle)
  : Vehicle * Vehicle :=
  match v_type (ent_extra vehicle) with
  | Tractor => (setVehicleOccupied tractor b, combineHarvester)
  | CombineHarvester => (tractor, setVehicleOccupied combineHarvester b)
  end.

(** The result is the new player, tractor and combine harvester and the
    message shown. *)
Definition handleEnterExitVehicle (prevPlayer : Player) (tractor combineHarvester : Vehicle)
  : Player * Vehicle * Vehicle * list Status :=
  if isInVehicle prevPlayer then
    match currentVehicle tractor combineHarvester with
    | Some vehicle =>
        let newPlayer := setPlayerInVehicle prevPlayer false in
        let '(tractor', combine') := markVehicle vehicle false tractor combineHarvester in
        let newPlayer :=
          mkEntity (ent_x vehicle + ent_width vehicle / 2 - ent_width newPlayer / 2)
                   (inject_Z groundLevelY - ent_height newPlayer)
                   (ent_width newPlayer) (ent_height newPlayer) 0 0 false
                   (ent_extra newPlayer) in
        (newPlayer, tractor', combine',
         [(("Exited " ++ capitalize (vehicleName (v_type (ent_extra vehicle))))%string, 1500)])
    | None => (prevPlayer, tractor, combineHarvester, [])
    end
  else
    match closestVehicle prevPlayer [tractor; combineHarvester] with
    | Some vehicle =>
        let newPlayer := setPlayerInVehicle prevPlayer true in
        let '(tractor', combine') := markVehicle vehicle true tractor combineHarvester in
        let newPlayer := set_x newPlayer (ent_x vehicle + ent_width vehicle / 2) in
        let newPlayer := set_y newPlayer (ent_y vehicle + ent_height vehicle / 2) in
        (newPlayer, tractor', combine',
         [(("Entered " ++ capitalize (vehicleName (v_type (ent_extra vehicle))))%string, 1500)])
    | None =>
        (prevPlayer, tractor, combineHarvester,
         [("No vehicle close enough to enter!"%string, 1000)])
    end.

(** ** Invariants of the world *)

(** The invariant of the data model: a crop is present only on a planted or
    grown tile, and a grown tile carries a mature crop. *)
Definition tileWellFormed (tile : Tile) : Prop :=
  (crop tile <> None -> type tile = CROP_PLANTED \/ type tile = CROP_GROWN) /\
  (type tile = CROP_GROWN -> exists c, crop tile = Some c /\ stage c = MATURE).

(** What the operations keep true: a planted tile carries a crop that is
    not mature yet, a grown tile a mature one, any other tile no crop. *)
Definition tileInv (tile : Tile) : Prop :=
  match crop tile with
  | Some c =>
      (type tile = CROP_PLANTED /\ SEED <= stage c < MATURE) \/
      (type tile = CROP_GROWN /\ stage c = MATURE)
  | None => type tile <> CROP_PLANTED /\ type tile <> CROP_GROWN
  end.

Definition allTiles (P : Tile -> Prop) (world : World) : Prop :=
  Forall (Forall P) world.

(** The shape [generateWorld] gives the grid. *)
Definition worldShape (world : World) : Prop :=
  Z.of_nat (length world) = WORLD_HEIGHT_TILES /\ is_grid WORLD_WIDTH_TILES world.

Definition worldInv (world : World) : Prop :=
  worldShape world /\ allTiles tileInv world.

(** Progress of a growth tick at time [now] that started from [world0]:
    the tiles before [(y, x)] in scan order have grown, the others are as
    they were. *)
Definition grownBefore (now : Z) (world0 : World) (y x : Z) (world : World) : Prop :=
  worldShape world /\
  forall r c tile0, getTile world0 r c = Ok tile0 ->
    getTile world r c =
    Ok (if (r <? y) || ((r =? y) && (c <? x)) then growTile now tile0 else tile0).

(** The worlds the program can be in: the generated one and what the
    world-changing operations make of a world it can be in. *)
Inductive reachable : World -> Prop :=
| reach_generate : reachable generateWorld
| reach_till world player world' player' shown :
    reachable world ->
    handleTillSoil world player = (world', player', shown) ->
    reachable world'
| reach_plant world player selected now world' player' shown :
    reachable world ->
    handlePlantCrop world player selected now = Ok (world', player', shown) ->
    reachable world'
| reach_harvest world player world' player' shown :
    reachable world ->
    handleHarvestCrop world player = Ok (world', player', shown) ->
    reachable world'
| reach_plow world tractor plow world' :
    reachable world ->
    applyPlowAction tractor plow world = Ok world' ->
    reachable world'
| reach_seeder world tractor seeder player selected now world' player' shown :
    reachable world ->
    applySeederAction tractor seeder world player selected now = Ok (world', player', shown) ->
    reachable world'
| reach_combine world combineHarvester player world' player' shown :
    reachable world ->
    applyCombineAction combineHarvester world player = Ok (world', player', shown) ->
    reachable world'
| reach_growth world now world' :
    reachable world ->
    updateCropGrowth now world = Ok world' ->
    reachable world'.

(** ** The objects at the start of a session *)

(** The [useState] initial values with the positions [generateWorld] sets. *)
Definition initialInventory : Inventory := mkInventory 50 20 20 0 0 0.

Definition initialPlayer : Player :=
  mkEntity (inject_Z WORLD_WIDTH_PIXELS / 4)
           (inject_Z groundLevelY - inject_Z TILE_SIZE * (18 # 10))
           (inject_Z TILE_SIZE * (9 # 10)) (inject_Z TILE_SIZE * (18 # 10))
           0 0 false
           (mkPlayerX 3 10 false FacingRight initialInventory 100 100 false).

Definition initialTractor : Vehicle :=
  mkEntity (inject_Z WORLD_WIDTH_PIXELS / 4 + 100)
           (inject_Z groundLevelY - inject_Z TILE_SIZE * (25 # 10))
           (inject_Z TILE_SIZE * 4) (inject_Z TILE_SIZE * (25 # 10))
           0 0 false
           (mkVehicleX (25 # 10) 10 None false false Tractor FacingRight 100 100 (5 # 100) 0).

Definition initialCombineHarvester : Vehicle :=
  mkEntity (inject_Z WORLD_WIDTH_PIXELS / 2 + 200)
           (inject_Z groundLevelY - inject_Z TILE_SIZE * 3)
           (inject_Z TILE_SIZE * 5) (inject_Z TILE_SIZE * 3)
           0 0 false
           (mkVehicleX 2 10 None false false CombineHarvester FacingRight 100 100 (7 # 100) 0).

Definition initialPlow : Attachment :=
  mkEntity (inject_Z WORLD_WIDTH_PIXELS / 4 + 100 - 100)
           (inject_Z groundLevelY - inject_Z TILE_SIZE * (15 # 10))
           (inject_Z TILE_SIZE * 3) (inject_Z TILE_SIZE * (15 # 10))
           0 0 false (mkAttachmentX false Plow).

Definition initialSeeder : Attachment :=
  mkEntity (inject_Z WORLD_WIDTH_PIXELS / 4 + 100 + 100)
           (inject_Z groundLevelY - inject_Z TILE_SIZE * (18 # 10))
           (inject_Z TILE_SIZE * (35 # 10)) (inject_Z TILE_SIZE * (18 # 10))
           0 0 false (mkAttachmentX false Seeder).

(** ** Statements about the manual handlers *)

(** Planting may go ahead on this tile. *)
Definition plantable (tile : Tile) (player : Player) (selected : CropType) : Prop :=
  type tile = TILLED /\ crop tile = None /\
  0 < seedCount (inventory (ent_extra player)) selected.

(** Harvesting may go ahead on this tile. *)
Definition harvestable (tile : Tile) : Prop :=
  type tile = CROP_GROWN /\ exists c, crop tile = Some c /\ stage c = MATURE.

(** On the tile under the player, a plant or harvest request whose
    precondition fails changes neither world nor player and shows one
    message. *)
Definition rejectsCleanly (world : World) (player : Player) (selected : CropType) (now : Z)
  : Prop :=
  forall tile, getTile world (targetTileY player) (targetTileX player) = Ok tile ->
    (~ plantable tile player selected ->
     exists message, handlePlantCrop world player selected now = Ok (world, player, [message]))
    /\
    (~ harvestable tile ->
     exists message, handleHarvestCrop world player = Ok (world, player, [message])).

(** A plant or harvest request that changes world or player met its
    precondition. *)
Definition succeedsOnlyWhenAllowed (world : World) (player : Player) (selected : CropType)
  (now : Z) : Prop :=
  (forall world' player' shown,
     handlePlantCrop world player selected now = Ok (world', player', shown) ->
     (world', player') <> (world, player) ->
     exists tile, getTile world (targetTileY player) (targetTileX player) = Ok tile /\
                  plantable tile player selected) /\
  (forall world' player' shown,
     handleHarvestCrop world player = Ok (world', player', shown) ->
     (world', player') <> (world, player) ->
     exists tile, getTile world (targetTileY player) (targetTileX player) = Ok tile /\
                  harvestable tile).

(** What the combine loop keeps true of [harvestedCount]: a kind that was
    credited is still within the limit. *)
Definition creditedWithin (player : Player) (st : CombineState) : Prop :=
  forall kind,
    0 <= harvestedOf st.1.2 kind /\
    (harvestedOf st.1.2 kind = 0 \/
     cropCount (inventory (ent_extra player)) kind + harvestedOf st.1.2 kind
     <= maxStorage (ent_extra player)).

(** No crop count is above the storage limit. *)
Definition withinStorage (player : Player) : Prop :=
  forall kind, cropCount (inventory (ent_extra player)) kind <= maxStorage (ent_extra player).

(** The player of the start of the session, seated in a vehicle. *)
Definition ridingPlayer : Player := setPlayerInVehicle initialPlayer true.


(** An occupied tractor with an empty tank. *)
Definition dryTractor : Vehicle :=
  setDrive (setVehicleOccupied initialTractor true) 0 0 FacingRight.

Definition keysRight : Keys := mkKeys false false true false false false.

(** ** Statements about entering and leaving a vehicle *)

Definition inEnterRange (p : Player) (v : Vehicle) : Prop :=
  (distance2 p v < enterRange * enterRange)%Q.

(** [v] is one of [vehicles], is within range, and no vehicle is nearer. *)
Definition nearestInRange (p : Player) (vehicles : list Vehicle) (v : Vehicle) : Prop :=
  In v vehicles /\ inEnterRange p v /\
  forall u, In u vehicles -> (distance2 p v <= distance2 p u)%Q.

(** What the search loop keeps true of [closestVehicle] and [minDistance]
    after the vehicles [seen]. *)
Definition closestSoFar (p : Player) (seen : list Vehicle) (best : option (Vehicle * Q))
  : Prop :=
  match best with
  | Some (b, m2) => m2 = distance2 p b /\ nearestInRange p seen b
  | None => forall u, In u seen -> ~ inEnterRange p u
  end.


(** ** Sample situations *)

(** The generated world with wheat just sown, at time 0, on the tile under
    the player of the start of the session. *)
Definition sownField : World :=
  setTile generateWorld (targetTileY initialPlayer) (targetTileX initialPlayer)
          (mkTile CROP_PLANTED (Some (mkCrop WHEAT SEED 0))).

(** The player of the start of the session, walked up to the tractor. *)
Definition playerByTractor : Player := set_x initialPlayer 800.

(** The tractor of the start of the session with the player in it. *)
Definition occupiedTractor : Vehicle := setVehicleOccupied initialTractor true.

(* ================================================================== *)
(** * Further handlers *)
(* ================================================================== *)

(** ** Walking, driving, hitching *)

(** [{ ...prevPlayer, vx, vy, onGround, facing }] *)
Definition setWalk (p : Player) (newVx newVy : Q) (newOnGround : bool) (newFacing : Facing)
  : Player :=
  let r := ent_extra p in
  mkEntity (ent_x p) (ent_y p) (ent_width p) (ent_height p) newVx newVy newOnGround
           (mkPlayerX (p_speed r) (p_jumpPower r) (p_isInVehicle r) newFacing
                      (inventory r) (money r) (maxStorage r) (siloBuilt r)).

Definition handlePlayerMovement (keys : Keys) (prevPlayer : Player) : Player :=
  if isInVehicle prevPlayer then prevPlayer
  else
    let r := ent_extra prevPlayer in
    let '(newVx, newFacing) :=
      if key_a keys || key_arrowleft keys then ((- p_speed r)%Q, FacingLeft)
      else if key_d keys || key_arrowright keys then (p_speed r, FacingRight)
      else (0%Q, p_facing r) in
    let '(newVy, newOnGround) :=
      if (key_w keys || key_arrowup keys) && ent_onGround prevPlayer
      then ((- p_jumpPower r)%Q, false)
      else (ent_vy prevPlayer, ent_onGround prevPlayer) in
    setWalk prevPlayer newVx newVy newOnGround newFacing.

Definition handleCombineMovement (keys : Keys) (prevCombine : Vehicle)
  : Vehicle * list Status :=
  let r := ent_extra prevCombine in
  if negb (v_isInVehicle r) then (set_vx prevCombine 0, [])
  else if Qleb (fuel r) 0 && isMovingKey keys then
    (set_vx prevCombine 0, [("Combine out of fuel!"%string, 1000)])
  else if key_a keys || key_arrowleft keys then
    (setDrive prevCombine (- v_speed r) (Math_max 0 (fuel r - fuelConsumption r)) FacingLeft, [])
  else if key_d keys || key_arrowright keys then
    (setDrive prevCombine (v_speed r) (Math_max 0 (fuel r - fuelConsumption r)) FacingRight, [])
  else (setDrive prevCombine 0 (fuel r) (v_facing r), []).

Definition attachmentName (a : AttachmentType) : string :=
  match a with Plow => "plow" | Seeder => "seeder" end.

(** [{ ...attachment, isHitched: b }] *)
Definition setHitched (a : Attachment) (b : bool) : Attachment :=
  withExtra a (mkAttachmentX b (a_type (ent_extra a))).

(** [tractor.equipment = e] *)
Definition setEquipment (v : Vehicle) (e : option Attachment) : Vehicle :=
  let r := ent_extra v in
  withExtra v (mkVehicleX (v_speed r) (v_jumpPower r) e (v_isHitched r) (v_isInVehicle r)
                          (v_type r) (v_facing r) (fuel r) (maxFuel r) (fuelConsumption r)
                          (upgradeLevel r)).

Definition hitchRange : Q := 60.

(** [Math.abs(tractor.x - attachment.x)] *)
Definition hitchDistance (tractor : Vehicle) (a : Attachment) : Q :=
  Qabs (ent_x tractor - ent_x a).

(** One run of [for (const attachment of [plow, seeder])]; the state is
    [closestAttachment] with [minDistance], [None] while it is [Infinity]. *)
Definition closerAttachment (tractor : Vehicle) (best : option (Attachment * Q))
  (attachment : Attachment) : option (Attachment * Q) :=
  if negb (a_isHitched (ent_extra attachment)) then
    let distance := hitchDistance tractor attachment in
    let belowMin := match best with Some (_, m) => Qltb distance m | None => true end in
    if belowMin && Qltb distance hitchRange then Some (attachment, distance) else best
  else best.

Definition closestAttachment (tractor : Vehicle) (attachments : list Attachment)
  : option Attachment :=
  option_map fst (fold_left (closerAttachment tractor) attachments None).

(** The [setPlow] or [setSeeder] call chosen by the attachment's type. *)
Definition markAttachment (kind : AttachmentType) (b : bool) (plow seeder : Attachment)
  : Attachment * Attachment :=
  match kind with
  | Plow => (setHitched plow b, seeder)
  | Seeder => (plow, setHitched seeder b)
  end.

(** The result is the new tractor, plow and seeder and the message shown. *)
Definition handleHitchClosestAttachment (prevTractor : Vehicle) (plow seeder : Attachment)
  : Vehicle * Attachment * Attachment * list Status :=
  if negb (v_isInVehicle (ent_extra prevTractor)) then
    (prevTractor, plow, seeder, [("Must be in tractor to hitch attachments!"%string, 1000)])
  else
    match v_equipment (ent_extra prevTractor) with
    | Some equipment =>
        let kind := a_type (ent_extra equipment) in
        let '(plow', seeder') := markAttachment kind false plow seeder in
        (setEquipment prevTractor None, plow', seeder',
         [((capitalize (attachmentName kind) ++ " Detached")%string, 1500)])
    | None =>
        match closestAttachment prevTractor [plow; seeder] with
        | Some closest =>
            let kind := a_type (ent_extra closest) in
            let '(plow', seeder') := markAttachment kind true plow seeder in
            (setEquipment prevTractor (Some closest), plow', seeder',
             [((capitalize (attachmentName kind) ++ " Attached")%string, 1500)])
        | None =>
            (prevTractor, plow, seeder,
             [("No attachment close enough to hitch!"%string, 1000)])
        end
    end.

(** ** Shop *)

(** [`${n}`] for an integer. *)
Definition showInteger (z : Z) : string := NilZero.string_of_int (Z.to_int z).

(** [`${n}`] for a number that is an integer or an integer and a half, which
    is what prices times integer quantities are. *)
Definition showNumber (q : Q) : string :=
  let twice := Qfloor (q * 2) in
  let whole := Z.quot twice 2 in
  let sign := if (twice <? 0) && (whole =? 0) then "-"%string else ""%string in
  if Z.rem twice 2 =? 0 then showInteger whole
  else (sign ++ showInteger whole ++ ".5")%string.

Definition CROP_PRICES (c : CropType) : Z :=
  match c with WHEAT => 10 | CORN => 15 | POTATO => 12 end.

(** [SEED_PRICES], by the crop kind of the seed key. *)
Definition SEED_PRICES (c : CropType) : Q :=
  match c with WHEAT => 2 | CORN => 3 | POTATO => 25 # 10 end.

Definition STRUCTURE_PRICE_silo : Q := 500.

(** [{ ...player, money: m }] *)
Definition setMoney (p : Player) (m : Q) : Player :=
  let r := ent_extra p in
  withExtra p (mkPlayerX (p_speed r) (p_jumpPower r) (p_isInVehicle r) (p_facing r)
                         (inventory r) m (maxStorage r) (siloBuilt r)).

(** [handleBuySeeds(seedType, quantity)], [seedType] being the seed key of
    the crop kind [kind]. *)
Definition handleBuySeeds (kind : CropType) (quantity : Z) (prev : Player)
  : Player * list Status :=
  let seedCost := (SEED_PRICES kind * inject_Z quantity)%Q in
  let r := ent_extra prev in
  if Qgeb (money r) seedCost then
    (setInventory (setMoney prev (money r - seedCost))
       (setSeedCount (inventory r) kind (seedCount (inventory r) kind + quantity)),
     [(("Bought " ++ showInteger quantity ++ " " ++ cropName kind ++ " seeds for $"
        ++ showNumber seedCost ++ "!")%string, 1500)])
  else (prev, [("Not enough money to buy seeds!"%string, 1500)]).

(** One run of [for (const cropType in CROP_PRICES)]; the state is
    [newInventory] and [totalSoldValue]. *)
Definition sellKind (st : Inventory * Z) (cropType : CropType) : Inventory * Z :=
  let '(newInventory, totalSoldValue) := st in
  let amount := cropCount newInventory cropType in
  if amount >? 0
  then (setCropCount newInventory cropType 0, totalSoldValue + amount * CROP_PRICES cropType)
  else st.

Definition handleSellCrops (cropTypeToSell : option CropType) (prev : Player)
  : Player * list Status :=
  let r := ent_extra prev in
  let '(newInventory, totalSoldValue, shown) :=
    match cropTypeToSell with
    | Some kind =>
        let amount := cropCount (inventory r) kind in
        if amount >? 0 then
          let total := amount * CROP_PRICES kind in
          (setCropCount (inventory r) kind 0, total,
           [(("Sold all " ++ cropName kind ++ " for $" ++ showInteger total ++ "!")%string, 1500)])
        else (inventory r, 0, [(("No " ++ cropName kind ++ " to sell!")%string, 1000)])
    | None =>
        let '(inv, total) := fold_left sellKind [WHEAT; CORN; POTATO] (inventory r, 0) in
        if total >? 0
        then (inv, total,
              [(("Sold all crops for $" ++ showInteger total ++ "!")%string, 1500)])
        else (inv, total, [("No crops to sell!"%string, 1000)])
    end in
  (setInventory (setMoney prev (money r + inject_Z totalSoldValue)) newInventory, shown).

Record Silo := mkSilo {
  silo_x : Q;
  silo_y : Q;
  silo_width : Q;
  silo_height : Q
}.

Definition newSilo : Silo :=
  mkSilo (inject_Z WORLD_WIDTH_PIXELS / 2 - inject_Z TILE_SIZE * 5)
         (inject_Z TILE_SIZE * 15 - inject_Z TILE_SIZE * 8)
         (inject_Z TILE_SIZE * 5) (inject_Z TILE_SIZE * 8).

Definition handleBuildSilo (prev : Player) (silos : list Silo)
  : Player * list Silo * list Status :=
  let r := ent_extra prev in
  if siloBuilt r then (prev, silos, [("Silo already built!"%string, 1500)])
  else
    let cost := STRUCTURE_PRICE_silo in
    if Qgeb (money r) cost then
      (withExtra prev (mkPlayerX (p_speed r) (p_jumpPower r) (p_isInVehicle r) (p_facing r)
                                 (inventory r) (money r - cost) (maxStorage r + 200) true),
       silos ++ [newSilo],
       [("Silo built! Max storage increased!"%string, 1500)])
    else (prev, silos, [("Not enough money to build silo!"%string, 1500)]).

(** [{ ...vehicle, fuel: f }] *)
Definition setFuel (v : Vehicle) (f : Q) : Vehicle :=
  let r := ent_extra v in
  withExtra v (mkVehicleX (v_speed r) (v_jumpPower r) (v_equipment r) (v_isHitched r)
                          (v_isInVehicle r) (v_type r) (v_facing r) f (maxFuel r)
                          (fuelConsumption r) (upgradeLevel r)).

(** The updater of both [setTractor] and [setCombineHarvester] in
    [handleRefuel]. *)
Definition refuel (prev : Vehicle) : Vehicle :=
  if v_isInVehicle (ent_extra prev) then setFuel prev (maxFuel (ent_extra prev)) else prev.

Definition handleRefuel (tractor combineHarvester : Vehicle)
  : Vehicle * Vehicle * list Status :=
  (refuel tractor, refuel combineHarvester,
   match currentVehicle tractor combineHarvester with
   | Some v => [((capitalize (vehicleName (v_type (ent_extra v))) ++ " refueled!")%string, 1500)]
   | None => [("No vehicle active to refuel!"%string, 1000)]
   end).

Record Tier := mkTier {
  tier_level : Z;
  tier_speed : Q;
  tier_maxFuel : Q;
  tier_cost : Q
}.

Definition VEHICLE_UPGRADE_TIERS (v : VehicleType) : list Tier :=
  match v with
  | Tractor =>
      [mkTier 0 (25 # 10) 100 0; mkTier 1 (35 # 10) 150 200; mkTier 2 (45 # 10) 200 500]
  | CombineHarvester =>
      [mkTier 0 2 100 0; mkTier 1 3 150 300; mkTier 2 4 200 700]
  end.

(** The name the upgrade messages use. *)
Definition upgradeName (v : VehicleType) : string :=
  match v with Tractor => "Tractor" | CombineHarvester => "Combine Harvester" end.

(** The name the refusal for lack of money uses. *)
Definition upgradeTarget (v : VehicleType) : string :=
  match v with Tractor => "tractor" | CombineHarvester => "Combine Harvester" end.

(** [{ ...prev, speed, maxFuel, fuel: maxFuel, upgradeLevel }] *)
Definition applyTier (prev : Vehicle) (t : Tier) (nextLevel : Z) : Vehicle :=
  let r := ent_extra prev in
  withExtra prev (mkVehicleX (tier_speed t) (v_jumpPower r) (v_equipment r) (v_isHitched r)
                             (v_isInVehicle r) (v_type r) (v_facing r) (tier_maxFuel t)
                             (tier_maxFuel t) (fuelConsumption r) nextLevel).

(** The updater of [handleUpgradeVehicle] for the vehicle kind [kind]; the
    player's money is read, never written. *)
Definition upgradeVehicle (kind : VehicleType) (playerMoney : Q) (prev : Vehicle)
  : res (Vehicle * list Status) :=
  let tiers := VEHICLE_UPGRADE_TIERS kind in
  let nextLevel := upgradeLevel (ent_extra prev) + 1 in
  if nextLevel >=? Z.of_nat (length tiers) then
    Ok (prev, [((upgradeName kind ++ " is already max level!")%string, 1500)])
  else
    match js_index tiers nextLevel with
    | None => TypeError
    | Some upgradeInfo =>
        if Qgeb playerMoney (tier_cost upgradeInfo) then
          Ok (applyTier prev upgradeInfo nextLevel,
              [((upgradeName kind ++ " upgraded to level " ++ showInteger nextLevel ++ "!")%string,
                1500)])
        else
          Ok (prev, [(("Not enough money to upgrade " ++ upgradeTarget kind ++ "!")%string, 1500)])
    end.

(** [handleUpgradeVehicle('tractor')] and
    [handleUpgradeVehicle('combineHarvester')]. *)
Definition handleUpgradeVehicle (kind : VehicleType) (playerMoney : Q)
  (tractor combineHarvester : Vehicle) : res (Vehicle * Vehicle * list Status) :=
  match kind with
  | Tractor =>
      match upgradeVehicle Tractor playerMoney tractor with
      | Ok (t, shown) => Ok (t, combineHarvester, shown)
      | TypeError => TypeError
      end
  | CombineHarvester =>
      match upgradeVehicle CombineHarvester playerMoney combineHarvester with
      | Ok (c, shown) => Ok (tractor, c, shown)
      | TypeError => TypeError
      end
  end.

(** ** Statements about single operations *)

(** Every place of the grid other than [(ty, tx)] reads the same in both
    worlds. *)
Definition onlyTileChanged (world world' : World) (ty tx : Z) : Prop :=
  forall y x, y <> ty \/ x <> tx -> getTile world' y x = getTile world y x.

(** The two inventories differ at most in the seed count of [kind]. *)
Definition sameButSeeds (inv inv' : Inventory) (kind : CropType) : Prop :=
  (forall k, k <> kind -> seedCount inv' k = seedCount inv k) /\
  (forall k, cropCount inv' k = cropCount inv k).

(** The two inventories differ at most in the crop count of [kind]. *)
Definition sameButCrop (inv inv' : Inventory) (kind : CropType) : Prop :=
  (forall k, seedCount inv' k = seedCount inv k) /\
  (forall k, k <> kind -> cropCount inv' k = cropCount inv k).

(** ** Statements about the implements *)

(** The row of tiles under an implement and the first column it covers. *)
Definition implementRow (a : Attachment) : Z :=
  Math_floor ((ent_y a + ent_height a) / inject_Z TILE_SIZE).
Definition implementColumn (a : Attachment) : Z :=
  Math_floor (ent_x a / inject_Z TILE_SIZE).

(** The tile at [(y, x)] is one of those under the implement. *)
Definition underImplement (a : Attachment) (y x : Z) : bool :=
  (y =? implementRow a) && (implementColumn a <=? x) &&
  (x <? implementColumn a + footprint a).

(** Grass or dirt without a crop. *)
Definition plowable (tile : Tile) : bool :=
  isGrassOrDirt (type tile) && negb (hasCrop tile).

(** What the plow makes of the tile at [(y, x)]. *)
Definition plowedTile (plow : Attachment) (y x : Z) (tile : Tile) : Tile :=
  if underImplement plow y x && plowable tile then mkTile TILLED (crop tile) else tile.

(** Progress of the plow loop after its first [i] runs, started on
    [world0]. *)
Definition plowedUpTo (plow : Attachment) (world0 : World) (i : Z) (world : World) : Prop :=
  worldShape world /\
  forall y x tile, getTile world0 y x = Ok tile ->
    getTile world y x =
    Ok (if (y =? implementRow plow) && (implementColumn plow <=? x) &&
           (x <? implementColumn plow + i) && plowable tile
        then mkTile TILLED (crop tile) else tile).

(** Tilled soil without a crop. *)
Definition sowable (tile : Tile) : bool :=
  TileType_eqb (type tile) TILLED && negb (hasCrop tile).

(** Every tile of [world'] is the tile of [world] at the same place, or
    replaces, in row [row], a tile of [world] that satisfies [before] by
    the tile [after]. *)
Definition changedOnly (before : Tile -> bool) (after : Tile) (row : Z) (world world' : World)
  : Prop :=
  worldShape world' /\
  forall y x tile, getTile world y x = Ok tile ->
    getTile world' y x = Ok tile \/
    (y = row /\ before tile = true /\ getTile world' y x = Ok after).

(** What the seeder loop keeps true of [seedsConsumed]. *)
Definition consumedWithin (player : Player) (selected : CropType) (st : SeederState) : Prop :=
  0 <= st.1.2 /\
  (st.1.2 = 0 \/ st.1.2 <= seedCount (inventory (ent_extra player)) selected).

(** ** Counting tiles *)

(** Number of tiles of a row, and of the grid, that satisfy [P]. *)
Definition countRow (P : Tile -> bool) (row : list Tile) : Z :=
  Z.of_nat (length (List.filter P row)).
Definition countTiles (P : Tile -> bool) (world : World) : Z :=
  fold_right Z.add 0 (countRow P <$> world).

(** ** Statements about the combine harvester *)

(** The tile carries a crop the combine and the manual harvest accept. *)
Definition ripe (tile : Tile) : bool :=
  match matureCrop tile with Some _ => true | None => false end.

(** The same, for a crop of kind [kind]. *)
Definition ripeOf (kind : CropType) (tile : Tile) : bool :=
  match matureCrop tile with
  | Some c => bool_decide (crop_type c = kind)
  | None => false
  end.

(** The row of tiles the combine's header works on. *)
Definition combineRow (combineHarvester : Vehicle) : Z :=
  Math_floor ((ent_y combineHarvester + ent_height combineHarvester) / inject_Z TILE_SIZE).

(** What the seeder loop keeps true: seeds counted as consumed are sowable
    tiles that are no longer sowable. *)
Definition sownSoFar (world0 : World) (st : SeederState) : Prop :=
  countTiles sowable st.1.1 + st.1.2 = countTiles sowable world0.

(** What the combine loop keeps true: units counted as harvested are ripe
    tiles of that kind that are no longer there. *)
Definition cutSoFar (world0 : World) (st : CombineState) : Prop :=
  forall kind,
    countTiles (ripeOf kind) st.1.1 + harvestedOf st.1.2 kind = countTiles (ripeOf kind) world0.

(** ** Further sample situations *)

(** The tractor of the start of the session, occupied, driving to the right
    with the plow, or with the seeder, as its equipment. *)
Definition plowingTractor : Vehicle :=
  setDrive (setEquipment occupiedTractor (Some initialPlow)) (25 # 10) 100 FacingRight.
Definition seedingTractor : Vehicle :=
  setDrive (setEquipment occupiedTractor (Some initialSeeder)) (25 # 10) 100 FacingRight.

(** The generated world with two tilled tiles under the seeder of the start
    of the session. *)
Definition tilledStrip : World :=
  setTile (setTile generateWorld 22 47 (mkTile TILLED None)) 22 48 (mkTile TILLED None).

(** The combine harvester of the start of the session, occupied and driving
    to the right, and the generated world with ripe wheat in front of it. *)
Definition cuttingCombine : Vehicle :=
  setDrive (setVehicleOccupied initialCombineHarvester true) 2 100 FacingRight.
Definition ripeStrip : World :=
  setTile generateWorld 22 90 (mkTile CROP_GROWN (Some (mkCrop WHEAT MATURE 0))).

(** ** Statements about hitching *)

(** The attachment is free and near enough to be hitched. *)
Definition inHitchRange (tractor : Vehicle) (a : Attachment) : Prop :=
  a_isHitched (ent_extra a) = false /\ (hitchDistance tractor a < hitchRange)%Q.

(** [a] is one of [attachments], can be hitched, and no free attachment is
    nearer. *)
Definition nearestToHitch (tractor : Vehicle) (attachments : list Attachment) (a : Attachment)
  : Prop :=
  In a attachments /\ inHitchRange tractor a /\
  forall u, In u attachments -> a_isHitched (ent_extra u) = false ->
    (hitchDistance tractor a <= hitchDistance tractor u)%Q.

(** What the search loop keeps true of [closestAttachment] and
    [minDistance] after the attachments [seen]. *)
Definition hitchSoFar (tractor : Vehicle) (seen : list Attachment)
  (best : option (Attachment * Q)) : Prop :=
  match best with
  | Some (b, m) => m = hitchDistance tractor b /\ nearestToHitch tractor seen b
  | None => forall u, In u seen -> ~ inHitchRange tractor u
  end.

(** ** Riding in the game loop *)

(** The [setPlayer] call of [gameLoop] that keeps a seated player on the
    vehicle [currentVehicle]. *)
Definition seatPlayer (prev : Player) (currentVehicle : Vehicle) : Player :=
  set_y (set_x prev (ent_x currentVehicle + ent_width currentVehicle / 2 - ent_width prev / 2)%Q)
        (ent_y currentVehicle - ent_height prev)%Q.

(** ** Invariants of player and vehicles *)

(** Money and counts are not negative, and no crop count is above the
    storage limit. *)
Definition playerInv (p : Player) : Prop :=
  (0 <= money (ent_extra p))%Q /\
  forall kind,
    0 <= seedCount (inventory (ent_extra p)) kind /\
    0 <= cropCount (inventory (ent_extra p)) kind <= maxStorage (ent_extra p).

(** One change of the player object by a handler of the game; the shop buys
    a positive number of seeds. *)
Inductive playerStep : Player -> Player -> Prop :=
| pstep_walk keys p :
    playerStep p (handlePlayerMovement keys p)
| pstep_physics p world p' :
    updateEntityPosition p world WORLD_WIDTH_TILES = Ok p' -> playerStep p p'
| pstep_enter_exit p tractor combineHarvester :
    playerStep p (handleEnterExitVehicle p tractor combineHarvester).1.1.1
| pstep_seat p currentVehicle :
    playerStep p (seatPlayer p currentVehicle)
| pstep_till world p :
    playerStep p (handleTillSoil world p).1.2
| pstep_plant world p selected now world' p' shown :
    handlePlantCrop world p selected now = Ok (world', p', shown) -> playerStep p p'
| pstep_harvest world p world' p' shown :
    handleHarvestCrop world p = Ok (world', p', shown) -> playerStep p p'
| pstep_seeder tractor seeder world p selected now world' p' shown :
    applySeederAction tractor seeder world p selected now = Ok (world', p', shown) ->
    playerStep p p'
| pstep_combine combineHarvester world p world' p' shown :
    applyCombineAction combineHarvester world p = Ok (world', p', shown) -> playerStep p p'
| pstep_buy kind quantity p :
    0 < quantity -> playerStep p (handleBuySeeds kind quantity p).1
| pstep_sell cropTypeToSell p :
    playerStep p (handleSellCrops cropTypeToSell p).1
| pstep_build p silos :
    playerStep p (handleBuildSilo p silos).1.1.

(** The player objects a new session can come to. *)
Inductive reachablePlayer : Player -> Prop :=
| reach_player_start : reachablePlayer initialPlayer
| reach_player_next p p' : reachablePlayer p -> playerStep p p' -> reachablePlayer p'.

(** The tank is neither below empty nor above full, driving does not make
    fuel, and the upgrade level is one of the table. *)
Definition vehicleInv (v : Vehicle) : Prop :=
  (0 <= fuel (ent_extra v))%Q /\ (fuel (ent_extra v) <= maxFuel (ent_extra v))%Q /\
  (0 <= fuelConsumption (ent_extra v))%Q /\
  0 <= upgradeLevel (ent_extra v) < Z.of_nat (length (VEHICLE_UPGRADE_TIERS (v_type (ent_extra v)))).

(** One change of a vehicle object by a handler of the game. *)
Inductive vehicleStep : Vehicle -> Vehicle -> Prop :=
| vstep_tractor keys v :
    vehicleStep v (handleTractorMovement keys v).1
| vstep_combine keys v :
    vehicleStep v (handleCombineMovement keys v).1
| vstep_physics v world v' :
    updateEntityPosition v world WORLD_WIDTH_TILES = Ok v' -> vehicleStep v v'
| vstep_occupied v b :
    vehicleStep v (setVehicleOccupied v b)
| vstep_hitch v plow seeder :
    vehicleStep v (handleHitchClosestAttachment v plow seeder).1.1.1
| vstep_refuel v :
    vehicleStep v (refuel v)
| vstep_upgrade kind playerMoney v v' shown :
    upgradeVehicle kind playerMoney v = Ok (v', shown) -> vehicleStep v v'.

(** The vehicle objects a new session can come to. *)
Inductive reachableVehicle : Vehicle -> Prop :=
| reach_tractor_start : reachableVehicle initialTractor
| reach_combine_start : reachableVehicle initialCombineHarvester
| reach_vehicle_next v v' : reachableVehicle v -> vehicleStep v v' -> reachableVehicle v'.

(** The occupied tractor of the start of the session, driven to within
    hitching distance of the plow. *)
Definition tractorByPlow : Vehicle := set_x occupiedTractor 800.

(** The player of the start of the session with wheat and potatoes in the
    storage. *)
Definition playerWithCrops : Player :=
  setInventory initialPlayer (mkInventory 50 20 20 7 0 3).

(** ** Light on colours *)



(** A colour channel is a byte. *)
Definition isByte (z : Z) : Prop := 0 <= z <= 255.


(** The two hexadecimal digits of a byte, in upper case. *)
Definition byteHex (z : Z) : string :=
  String (upper_ascii (Celestial.hex_digit (z / 16)))
         (String (upper_ascii (Celestial.hex_digit (z mod 16))) EmptyString).

(** ** Time of day and camera *)

Definition DAY_SPEED : Q := 1 / 1800.

(** [Math.trunc]. *)
Definition Math_trunc (x : Q) : Z := if Qltb x 0 then Qceiling x else Qfloor x.

(** [a % b] on numbers: the remainder has the sign of [a]. *)
Definition js_rem (a b : Q) : Q := a - b * inject_Z (Math_trunc (a / b)).

(** The updater of [setGameTime] in [gameLoop]. *)
Definition advanceGameTime (prevTime : Q) : Q := js_rem (prevTime + DAY_SPEED) 24.

Definition Math_min (a b : Q) : Q := if Qltb b a then b else a.

(** The position of [controlledEntity]: the tractor when occupied, else the
    combine harvester when occupied, else the player. *)
Definition controlledPosition (player : Player) (tractor combineHarvester : Vehicle) : Q * Q :=
  if v_isInVehicle (ent_extra tractor) then (ent_x tractor, ent_y tractor)
  else if v_isInVehicle (ent_extra combineHarvester)
       then (ent_x combineHarvester, ent_y combineHarvester)
       else (ent_x player, ent_y player).

(** The arguments of [setCameraX] and [setCameraY] for a canvas of the
    given size; a missing canvas has width and height 0. *)
Definition cameraOf (player : Player) (tractor combineHarvester : Vehicle)
  (canvasWidth canvasHeight : Q) : Q * Q :=
  let '(x, y) := controlledPosition player tractor combineHarvester in
  (Math_max 0 (Math_min (x - canvasWidth / 2) (inject_Z WORLD_WIDTH_PIXELS - canvasWidth)),
   Math_max 0 (Math_min (y - canvasHeight / 2) (inject_Z WORLD_HEIGHT_PIXELS - canvasHeight))).

(** ** Clouds *)

(** A cloud; [opacity] is missing until the first update. *)
Record Cloud := mkCloud {
  cloud_x : Q;
  cloud_y : Q;
  cloud_width : Q;
  cloud_height : Q;
  cloud_speed : Q;
  cloud_opacity : option Q
}.

Definition updateClouds (gameTime : Q) (prevClouds : list Cloud) : list Cloud :=
  let lightFactor := Celestial.getAmbientLightFactor gameTime in
  List.map (fun cloud =>
              let newX := (cloud_x cloud + cloud_speed cloud)%Q in
              let newX := if Qgtb newX (inject_Z WORLD_WIDTH_PIXELS)
                          then (- cloud_width cloud)%Q else newX in
              mkCloud newX (cloud_y cloud) (cloud_width cloud) (cloud_height cloud)
                      (cloud_speed cloud) (Some ((8 # 10) * lightFactor)%Q))
           prevClouds.

(** ** Statements about the sky *)

(** What one update makes of a cloud. *)
Definition cloudMoved (gameTime : Q) (cloud cloud' : Cloud) : Prop :=
  cloud_y cloud' = cloud_y cloud /\ cloud_width cloud' = cloud_width cloud /\
  cloud_height cloud' = cloud_height cloud /\ cloud_speed cloud' = cloud_speed cloud /\
  cloud_opacity cloud' = Some ((8 # 10) * Celestial.getAmbientLightFactor gameTime)%Q /\
  ((cloud_x cloud + cloud_speed cloud <= inject_Z WORLD_WIDTH_PIXELS)%Q /\
   cloud_x cloud' = (cloud_x cloud + cloud_speed cloud)%Q \/
   (inject_Z WORLD_WIDTH_PIXELS < cloud_x cloud + cloud_speed cloud)%Q /\
   cloud_x cloud' = (- cloud_width cloud)%Q).

(** A sample cloud about to leave the world on the right. *)
Definition cloudAtEdge : Cloud := mkCloud (29999 # 10) 50 120 50 (3 # 10) None.

(** The up key alone, a player standing on the ground, and a player with
    money for a silo. *)
Definition keysUp : Keys := mkKeys false false false false true false.
Definition standingPlayer : Player := set_onGround initialPlayer true.
Definition richPlayer : Player := setMoney initialPlayer 1000.

(** The player of the start of the session one tick later: half a pixel
    into the grass, falling at half a pixel per tick. *)
Definition sinkingPlayer : Player :=
  set_vy (set_y initialPlayer (ent_y initialPlayer + (1 # 2))%Q) (1 # 2).

(** A player one unit of wheat below the storage limit, and the generated
    world with ripe wheat under that player and on the two tiles in front of
    the combine harvester of the start of the session. *)
Definition nearlyFullPlayer : Player :=
  setInventory initialPlayer (mkInventory 50 20 20 99 0 0).
Definition ripeField : World :=
  setTile
    (setTile
       (setTile generateWorld (targetTileY initialPlayer) (targetTileX initialPlayer)
                (mkTile CROP_GROWN (Some (mkCrop WHEAT MATURE 0))))
       22 90 (mkTile CROP_GROWN (Some (mkCrop WHEAT MATURE 0))))
    22 91 (mkTile CROP_GROWN (Some (mkCrop WHEAT MATURE 0))).

(** ** Statements about the bounds of the grid *)





(* ================================================================== *)
(** * Theorems *)
(* ================================================================== *)

(** ** Comparisons and rounding *)

Lemma Qle_bool_false_lt (a b : Q) : Qle_bool a b = false -> (b < a)%Q.
Proof.
  intros H. apply Qnot_le_lt. intros Hle.
  apply Qle_bool_iff in Hle. congruence.
Qed.

(** Turn every boolean comparison of the goal into an order hypothesis. *)
Ltac qbool :=
  unfold Qltb, Qleb, Qgeb, Qgtb in *;
  repeat match goal with
  | |- context [Qle_bool ?a ?b] =>
      let E := fresh "E" in
      destruct (Qle_bool a b) eqn:E;
      [apply Qle_bool_iff in E | apply Qle_bool_false_lt in E];
      cbn [negb andb] in *;
      try (exfalso; lra)
  end.

(** Division by a literal, written as a product so that [lra] sees it. *)
Ltac qdiv :=
  unfold Qdiv in *;
  change (/ 1)%Q with 1%Q in *;
  change (/ 2)%Q with (1 # 2)%Q in *;
  change (/ 20)%Q with (1 # 20)%Q in *.

Lemma Qfloor_unique (z : Z) (y : Q) :
  (inject_Z z <= y)%Q -> (y < inject_Z z + 1)%Q -> Qfloor y = z.
Proof.
  intros Hlo Hhi.
  assert (H1 : z <= Qfloor y).
  { rewrite <- (Qfloor_Z z). apply Qfloor_resp_le. exact Hlo. }
  assert (H2 : Qfloor y < z + 1).
  { rewrite Zlt_Qlt. rewrite inject_Z_plus.
    eapply Qle_lt_trans; [apply Qfloor_le | exact Hhi]. }
  lia.
Qed.

Lemma Math_round_near (z : Z) (y : Q) :
  (inject_Z z - (1 # 2) <= y)%Q -> (y < inject_Z z + (1 # 2))%Q -> Math_round y = z.
Proof.
  intros Hlo Hhi. unfold Math_round. apply Qfloor_unique; lra.
Qed.

(** ** Celestial model *)

Module CelestialFacts.
Import Celestial.

Lemma light_range (t : Q) :
  ((1 # 10) <= getAmbientLightFactor t /\ getAmbientLightFactor t <= 1)%Q.
Proof.
  unfold getAmbientLightFactor. qbool; cbn [andb negb]; qdiv; split; lra.
Qed.

Lemma light_midday : getAmbientLightFactor 12 = 1%Q.
Proof. reflexivity. Qed.

(** The light factor never changes faster than a quarter per hour. *)
Lemma light_lipschitz (a b : Q) :
  (a <= b)%Q ->
  (- ((b - a) * (1 # 4)) <= getAmbientLightFactor b - getAmbientLightFactor a
   /\ getAmbientLightFactor b - getAmbientLightFactor a <= (b - a) * (1 # 4))%Q.
Proof.
  intros Hab. unfold getAmbientLightFactor.
  qbool; cbn [andb negb]; qdiv; split; lra.
Qed.

Lemma light_continuous (b eps : Q) :
  (0 < eps)%Q ->
  exists delta, (0 < delta)%Q /\
    forall t, (Qabs (t - b) < delta)%Q ->
      (Qabs (getAmbientLightFactor t - getAmbientLightFactor b) < eps)%Q.
Proof.
  intros Heps. exists eps. split; [exact Heps |].
  intros t Ht.
  apply Qabs_Qlt_condition in Ht. destruct Ht as [Ht1 Ht2].
  apply Qabs_Qlt_condition.
  destruct (Qlt_le_dec t b) as [Hlt | Hle].
  - destruct (light_lipschitz t b) as [L1 L2]; [lra |]. split; lra.
  - destruct (light_lipschitz b t) as [L1 L2]; [lra |]. split; lra.
Qed.

Lemma Z_bounds_Q (a lo hi : Z) :
  lo <= a <= hi -> (inject_Z lo <= inject_Z a /\ inject_Z a <= inject_Z hi)%Q.
Proof. intros [H1 H2]. split; rewrite <- Zle_Qle; assumption. Qed.

(** Close enough to the end of a transition every channel already rounds to
    the channel of the target colour. *)
Lemma lerpChannel_near_end (a b : Z) (f : Q) :
  0 <= a <= 255 -> 0 <= b <= 255 ->
  (1 - (1 # 512) < f)%Q -> (f <= 1)%Q ->
  lerpChannel (Some a) (Some b) f = Some b.
Proof.
  intros Ha Hb Hf1 Hf2. unfold lerpChannel. f_equal.
  apply Z_bounds_Q in Ha. apply Z_bounds_Q in Hb.
  change (inject_Z 0) with 0%Q in *. change (inject_Z 255) with 255%Q in *.
  destruct Ha as [Ha0 Ha1]. destruct Hb as [Hb0 Hb1].
  set (A := inject_Z a) in *. set (B := inject_Z b) in *.
  apply Math_round_near; fold B.
  - nra.
  - nra.
Qed.

Lemma lerpColor_near_end (c1 c2 : string) (f : Q) (r1 g1 b1 r2 g2 b2 : Z) :
  hexToRgb c1 = (Some r1, Some g1, Some b1) ->
  hexToRgb c2 = (Some r2, Some g2, Some b2) ->
  (0 <= r1 <= 255 /\ 0 <= g1 <= 255 /\ 0 <= b1 <= 255) ->
  (0 <= r2 <= 255 /\ 0 <= g2 <= 255 /\ 0 <= b2 <= 255) ->
  (1 - (1 # 512) < f)%Q -> (f <= 1)%Q ->
  lerpColor c1 c2 f = rgbToHex (Some r2) (Some g2) (Some b2).
Proof.
  intros H1 H2 (Hr1 & Hg1 & Hb1) (Hr2 & Hg2 & Hb2) Hf1 Hf2.
  unfold lerpColor. rewrite H1, H2.
  rewrite !lerpChannel_near_end by assumption. reflexivity.
Qed.

(** One transition segment of the repository's palette, just below its end. *)
Ltac sky_segment :=
  eapply eq_trans;
  [ eapply lerpColor_near_end;
    [ vm_compute; reflexivity | vm_compute; reflexivity
    | lia | lia | qdiv; lra | qdiv; lra ]
  | vm_compute; reflexivity ].

Ltac sky_boundary :=
  exists (1 # 512)%Q; split; [reflexivity |];
  intros t Hlo Hhi;
  match goal with |- _ = ?r => let v := eval vm_compute in r in change r with v end;
  unfold getSkyColor; qbool; cbn [andb negb];
  first [ reflexivity | sky_segment | exfalso; lra ].

Lemma sky_limits_below :
  forall b, In b skyBreakpoints -> sky_limit_below skyColors b.
Proof.
  intros b Hb. unfold skyBreakpoints in Hb. cbn [In] in Hb.
  repeat (destruct Hb as [<- | Hb]; [sky_boundary |]).
  contradiction.
Qed.

Lemma light_limits_below :
  forall b, In b lightBreakpoints -> light_limit_below b.
Proof.
  intros b _ eps Heps.
  destruct (light_continuous b eps Heps) as (delta & Hd & Hc).
  exists delta. split; [exact Hd |].
  intros t Hlo Hhi. apply Hc. apply Qabs_Qlt_condition. split; lra.
Qed.

End CelestialFacts.

Example lerp_mid :
  Celestial.lerpColor Celestial.DEEP_NIGHT_SKY_COLOR Celestial.DAWN_SKY_COLOR (1 # 2)
  = "#304E71"%string.
Proof. vm_compute. reflexivity. Qed.

Example sky_at_5 :
  Celestial.getSkyColor 5 Celestial.skyColors = "#1A1A2E"%string.
Proof. vm_compute. reflexivity. Qed.

(** ** Loops *)

Section LoopFacts.
Context {S : Type}.
Implicit Types (body : Z -> S -> step S) (s : S).

(** A loop whose body always continues is a left fold over its counters. *)
Lemma for_range_fold (f : S -> Z -> S) body (n : nat) (i : Z) s :
  (forall j s0, body j s0 = Next (f s0 j)) ->
  for_range n i body s = Ok (fold_left f (zrange i n) s).
Proof.
  intros Hbody. revert i s.
  induction n as [| n IH]; intros i s; cbn [for_range zrange fold_left].
  - reflexivity.
  - rewrite Hbody. apply IH.
Qed.

(** Whatever every run of the body preserves holds when the loop ends. *)
Lemma for_range_preserve (P : S -> Prop) body (n : nat) (i : Z) s s' :
  P s ->
  (forall j s0 s1, P s0 -> body j s0 = Next s1 \/ body j s0 = Break s1 -> P s1) ->
  for_range n i body s = Ok s' -> P s'.
Proof.
  intros Hs Hbody. revert i s Hs.
  induction n as [| n IH]; intros i s Hs Hrun; cbn [for_range] in Hrun.
  - injection Hrun as <-. exact Hs.
  - destruct (body i s) as [s1 | s1 |] eqn:E.
    + eapply IH; [| exact Hrun]. eapply Hbody; [exact Hs | left; exact E].
    + injection Hrun as <-. eapply Hbody; [exact Hs | right; exact E].
    + discriminate.
Qed.

(** A loop whose body continues under an invariant that depends on the
    counter runs to its end and establishes the invariant there. *)
Lemma for_range_invariant (I : Z -> S -> Prop) body (n : nat) (i : Z) s :
  I i s ->
  (forall j s0, i <= j < i + Z.of_nat n -> I j s0 ->
     exists s1, body j s0 = Next s1 /\ I (j + 1) s1) ->
  exists s', for_range n i body s = Ok s' /\ I (i + Z.of_nat n) s'.
Proof.
  revert i s. induction n as [| n IH]; intros i s Hs Hbody; cbn [for_range].
  - exists s. split; [reflexivity |]. replace (i + Z.of_nat 0) with i by lia. exact Hs.
  - destruct (Hbody i s) as (s1 & E & Hs1); [lia | exact Hs |].
    rewrite E.
    destruct (IH (i + 1) s1 Hs1) as (s' & Hrun & Hs').
    { intros j s0 Hj. apply Hbody. lia. }
    exists s'. split; [exact Hrun |].
    replace (i + Z.of_nat (Datatypes.S n)) with (i + 1 + Z.of_nat n) by lia. exact Hs'.
Qed.

End LoopFacts.

(** ** Arrays *)

(** Decide the integer comparisons of the goal and close it when the cases
    are plain. *)
Ltac zbool :=
  repeat match goal with
  | |- context [?a <? ?b] => destruct (Z.ltb_spec a b)
  | |- context [?a =? ?b] => destruct (Z.eqb_spec a b)
  end;
  cbn [andb orb]; try reflexivity; try lia.

Lemma js_index_Some {A : Type} (l : list A) (i : Z) (a : A) :
  js_index l i = Some a <-> 0 <= i /\ l !! Z.to_nat i = Some a.
Proof.
  unfold js_index. destruct (i <? 0) eqn:E.
  - apply Z.ltb_lt in E. split; [discriminate | lia].
  - apply Z.ltb_ge in E. split; [auto | intros [_ H]; exact H].
Qed.

Lemma js_index_in_range {A : Type} (l : list A) (i : Z) :
  0 <= i < Z.of_nat (length l) -> exists a, js_index l i = Some a.
Proof.
  intros Hi. destruct (lookup_lt_is_Some_2 l (Z.to_nat i)) as [a Ha]; [lia |].
  exists a. apply js_index_Some. split; [lia | exact Ha].
Qed.

Lemma getTile_in_grid (w : Z) (world : World) (y x : Z) :
  is_grid w world -> 0 <= y < Z.of_nat (length world) -> 0 <= x < w ->
  exists tile, getTile world y x = Ok tile.
Proof.
  intros Hgrid Hy Hx. unfold getTile.
  destruct (js_index_in_range world y Hy) as [row Hrow]. rewrite Hrow.
  apply js_index_Some in Hrow. destruct Hrow as [_ Hrow].
  assert (Hlen : Z.of_nat (length row) = w).
  { unfold is_grid in Hgrid. rewrite Forall_lookup in Hgrid. eapply Hgrid. exact Hrow. }
  destruct (js_index_in_range row x) as [tile Htile]; [lia |].
  rewrite Htile. eauto.
Qed.

(** ** Physics and collision resolver *)

Module PhysicsFacts.
Import Physics.

Section Resolver.
Context {X : Type}.
Implicit Types (e : Entity X) (world : World).

Lemma integrate_spec e : integrate e = integrateSpec e.
Proof. reflexivity. Qed.

Lemma clampToWorld_spec e : clampToWorld e = clampSpec e.
Proof.
  destruct e as [x y w h vx vy g r].
  unfold clampToWorld, clampSpec, clamp, set_x; cbn [ent_x ent_width ent_y ent_height ent_vx ent_vy ent_onGround ent_extra].
  unfold Qltb, Qgtb.
  destruct (Qle_bool 0 x) eqn:E0; cbn [negb ent_x ent_width ent_y ent_height ent_vx ent_vy ent_onGround ent_extra].
  - destruct (Qle_bool (x + w) (inject_Z WORLD_WIDTH_PIXELS)) eqn:E1;
    destruct (Qle_bool x (inject_Z WORLD_WIDTH_PIXELS - w)) eqn:E2; cbn [negb]; try reflexivity; exfalso.
    + apply Qle_bool_iff in E1. apply Qle_bool_false_lt in E2. lra.
    + apply Qle_bool_iff in E2. apply Qle_bool_false_lt in E1. lra.
  - destruct (Qle_bool (0 + w) (inject_Z WORLD_WIDTH_PIXELS)) eqn:E1;
    destruct (Qle_bool 0 (inject_Z WORLD_WIDTH_PIXELS - w)) eqn:E2; cbn [negb]; try reflexivity; exfalso.
    + apply Qle_bool_iff in E1. apply Qle_bool_false_lt in E2. lra.
    + apply Qle_bool_iff in E2. apply Qle_bool_false_lt in E1. lra.
Qed.

(** An entity no wider than the world ends up between the two edges. *)
Lemma clampSpec_range e :
  (ent_width e <= inject_Z WORLD_WIDTH_PIXELS)%Q ->
  (0 <= ent_x (clampSpec e) /\
   ent_x (clampSpec e) <= inject_Z WORLD_WIDTH_PIXELS - ent_width e)%Q.
Proof.
  intros Hw. unfold clampSpec, clamp; cbn [ent_x].
  qbool; split; lra.
Qed.

Lemma collide_spec (y x : Z) e :
  collide (tileTopOf y) (tileBottomOf y) (tileLeftOf x) (tileRightOf x) e =
  if overlaps y x e
  then applyResolution (chooseResolution (tileTopOf y) (tileBottomOf y) e)
                       (tileTopOf y) (tileBottomOf y) (tileLeftOf x) (tileRightOf x) e
  else e.
Proof.
  unfold collide, overlaps, chooseResolution, Qgtb, Qltb, Qgeb, Qleb.
  destruct (negb (Qle_bool (tileRightOf x) (ent_x e)) &&
            negb (Qle_bool (ent_x e + ent_width e) (tileLeftOf x)) &&
            negb (Qle_bool (tileBottomOf y) (ent_y e)) &&
            negb (Qle_bool (ent_y e + ent_height e) (tileTopOf y))); [| reflexivity].
  destruct (negb (Qle_bool (ent_vy e) 0));
    destruct (Qle_bool (ent_y e + ent_height e) (tileBottomOf y));
    destruct (Qle_bool (tileTopOf y) (ent_y e + ent_height e));
    cbn [andb]; try reflexivity;
    destruct (negb (Qle_bool 0 (ent_vy e))); try reflexivity;
    destruct (negb (Qle_bool (ent_vx e) 0)); try reflexivity;
    destruct (negb (Qle_bool 0 (ent_vx e))); reflexivity.
Qed.

Lemma visitTile_spec world (widthTiles y x : Z) e :
  is_grid widthTiles world ->
  visitTile world widthTiles y x e = Next (resolveTile world widthTiles e (y, x)).
Proof.
  intros Hgrid. unfold visitTile, resolveTile, solidAt.
  destruct ((0 <=? x) && (x <? widthTiles) && (0 <=? y) &&
            (y <? Z.of_nat (length world))) eqn:G; [| reflexivity].
  destruct (getTile_in_grid widthTiles world y x Hgrid) as [tile Ht]; [lia | lia |].
  rewrite Ht. cbn [andb].
  destruct (negb (TileType_eqb (type tile) SKY)); [| reflexivity].
  cbn [andb]. f_equal. apply collide_spec.
Qed.

Lemma fold_left_flat_map {A B C : Type} (f : C -> B -> C) (g : A -> list B) (l : list A) (c : C) :
  fold_left f (flat_map g l) c = fold_left (fun c0 a => fold_left f (g a) c0) l c.
Proof.
  revert c. induction l as [| a l IH]; intros c; cbn [flat_map fold_left].
  - reflexivity.
  - rewrite fold_left_app. apply IH.
Qed.

Lemma fold_left_map {A B C : Type} (f : C -> B -> C) (h : A -> B) (l : list A) (c : C) :
  fold_left f (List.map h l) c = fold_left (fun c0 a => f c0 (h a)) l c.
Proof.
  revert c. induction l as [| a l IH]; intros c; cbn [List.map fold_left]; [reflexivity | apply IH].
Qed.

(** The two nested loops visit the rectangle in scan order. *)
Lemma loops_scanOrder world (widthTiles top bottom left right : Z) e :
  is_grid widthTiles world ->
  forZ top (bottom + 1)
    (fun y e0 => inner (forZ left (right + 1) (visitTile world widthTiles y) e0)) e
  = Ok (fold_left (resolveTile world widthTiles) (scanOrder top bottom left right) e).
Proof.
  intros Hgrid. unfold forZ, scanOrder.
  rewrite fold_left_flat_map.
  apply for_range_fold. intros y e0.
  rewrite (for_range_fold (fun e1 x => resolveTile world widthTiles e1 (y, x))).
  - cbn [inner]. rewrite fold_left_map. reflexivity.
  - intros x e1. apply visitTile_spec. exact Hgrid.
Qed.

Lemma updateEntityPosition_spec e world (widthTiles : Z) :
  is_grid widthTiles world ->
  updateEntityPosition e world widthTiles = Ok (physicsTickSpec e world widthTiles).
Proof.
  intros Hgrid. unfold updateEntityPosition, physicsTickSpec.
  rewrite integrate_spec, clampToWorld_spec.
  apply loops_scanOrder. exact Hgrid.
Qed.

(** *** The precedence, case by case *)

Section Precedence.
Variables (top bottom left right : Q) (e : Entity X).

Lemma resolution_land : landing top bottom e -> chooseResolution top bottom e = LandOnTop.
Proof.
  intros (H1 & H2 & H3). unfold chooseResolution. qbool; reflexivity.
Qed.

Lemma resolution_below :
  (ent_vy e < 0)%Q -> chooseResolution top bottom e = HitFromBelow.
Proof.
  intros H1. unfold chooseResolution. qbool; reflexivity.
Qed.

Lemma resolution_right :
  ~ landing top bottom e -> (0 <= ent_vy e)%Q -> (0 < ent_vx e)%Q ->
  chooseResolution top bottom e = HitMovingRight.
Proof.
  intros Hno H1 H2. unfold chooseResolution.
  qbool; try reflexivity; exfalso; apply Hno; repeat split; assumption.
Qed.

Lemma resolution_left :
  ~ landing top bottom e -> (0 <= ent_vy e)%Q -> (ent_vx e < 0)%Q ->
  chooseResolution top bottom e = HitMovingLeft.
Proof.
  intros Hno H1 H2. unfold chooseResolution.
  qbool; try reflexivity; exfalso; apply Hno; repeat split; assumption.
Qed.

Lemma resolution_none :
  ~ landing top bottom e -> (0 <= ent_vy e)%Q -> (ent_vx e == 0)%Q ->
  chooseResolution top bottom e = NoMove.
Proof.
  intros Hno H1 H2. unfold chooseResolution.
  qbool; try reflexivity; exfalso; apply Hno; repeat split; assumption.
Qed.

End Precedence.

(** *** Frame *)

Lemma sameFrame_trans e1 e2 e3 : sameFrame e1 e2 -> sameFrame e2 e3 -> sameFrame e1 e3.
Proof. unfold sameFrame. intros (-> & -> & ->) (-> & -> & ->). auto. Qed.

Lemma collide_frame (t b l r : Q) e : sameFrame e (collide t b l r e).
Proof.
  unfold collide, sameFrame.
  repeat match goal with
  | |- context [if ?c then _ else _] => destruct c
  end; cbn; auto.
Qed.

Lemma visitTile_frame world (widthTiles y x : Z) e e' :
  visitTile world widthTiles y x e = Next e' \/ visitTile world widthTiles y x e = Break e' ->
  sameFrame e e'.
Proof.
  unfold visitTile.
  destruct ((0 <=? x) && (x <? widthTiles) && (0 <=? y) && (y <? Z.of_nat (length world))).
  - destruct (getTile world y x) as [tile |].
    + destruct (negb (TileType_eqb (type tile) SKY)); intros [H | H]; try discriminate;
        injection H as <-; [apply collide_frame | unfold sameFrame; auto].
    + intros [H | H]; discriminate.
  - intros [H | H]; try discriminate. injection H as <-. unfold sameFrame; auto.
Qed.

Lemma updateEntityPosition_frame e world (widthTiles : Z) e' :
  updateEntityPosition e world widthTiles = Ok e' -> sameFrame e e'.
Proof.
  unfold updateEntityPosition, forZ. intros Hrun.
  eapply (for_range_preserve (sameFrame e)); [| | exact Hrun].
  - unfold sameFrame, clampToWorld, integrate.
    repeat match goal with
    | |- context [if ?c then _ else _] => destruct c
    end; cbn; auto.
  - intros y e0 e1 He0 Hstep.
    assert (Hin : for_range (Z.to_nat (rightTile (clampToWorld (integrate e)) + 1
                                        - leftTile (clampToWorld (integrate e))))
                            (leftTile (clampToWorld (integrate e)))
                            (visitTile world widthTiles y) e0 = Ok e1).
    { destruct Hstep as [H | H];
        destruct (for_range _ _ (visitTile world widthTiles y) e0); cbn [inner] in H;
        try discriminate. injection H as <-. reflexivity. }
    eapply (for_range_preserve (sameFrame e)); [exact He0 | | exact Hin].
    intros x e2 e3 He2 Hv. eapply sameFrame_trans; [exact He2 |].
    eapply visitTile_frame. exact Hv.
Qed.

End Resolver.
End PhysicsFacts.

(** ** World grid *)

Section GridFacts.
Implicit Types (world : World) (tile : Tile) (P : Tile -> Prop).

Lemma getTile_Ok world (y x : Z) tile :
  getTile world y x = Ok tile <->
  0 <= y /\ 0 <= x /\
  exists row, world !! Z.to_nat y = Some row /\ row !! Z.to_nat x = Some tile.
Proof.
  unfold getTile. split.
  - destruct (js_index world y) as [row |] eqn:Er; [| discriminate].
    destruct (js_index row x) as [t |] eqn:Et; [| discriminate].
    intros H. injection H as ->.
    apply js_index_Some in Er. apply js_index_Some in Et.
    destruct Er as [? ?]. destruct Et as [? ?]. eauto 6.
  - intros (Hy & Hx & row & Hr & Ht).
    assert (Er : js_index world y = Some row) by (apply js_index_Some; auto).
    assert (Et : js_index row x = Some tile) by (apply js_index_Some; auto).
    rewrite Er, Et. reflexivity.
Qed.

Lemma getTile_allTiles P world (y x : Z) tile :
  allTiles P world -> getTile world y x = Ok tile -> P tile.
Proof.
  intros Hall Ht. apply getTile_Ok in Ht.
  destruct Ht as (_ & _ & row & Hr & Ht).
  unfold allTiles in Hall.
  eapply Forall_lookup_1; [| exact Ht].
  eapply Forall_lookup_1; [exact Hall | exact Hr].
Qed.

Lemma setTile_length world (y x : Z) tile :
  length (setTile world y x tile) = length world.
Proof.
  unfold setTile. destruct ((y <? 0) || (x <? 0)); [reflexivity |].
  destruct (world !! Z.to_nat y); [apply length_insert | reflexivity].
Qed.

Lemma setTile_rows (R : list Tile -> Prop) world (y x : Z) tile :
  (forall row, R row -> R (<[Z.to_nat x := tile]> row)) ->
  Forall R world -> Forall R (setTile world y x tile).
Proof.
  intros Hrow Hall. unfold setTile.
  destruct ((y <? 0) || (x <? 0)); [exact Hall |].
  destruct (world !! Z.to_nat y) as [row |] eqn:Er; [| exact Hall].
  apply Forall_insert; [exact Hall |].
  apply Hrow. eapply Forall_lookup_1; eauto.
Qed.

Lemma setTile_is_grid (w : Z) world (y x : Z) tile :
  is_grid w world -> is_grid w (setTile world y x tile).
Proof.
  unfold is_grid. apply setTile_rows. intros row Hrow.
  rewrite length_insert. exact Hrow.
Qed.

Lemma setTile_allTiles P world (y x : Z) tile :
  P tile -> allTiles P world -> allTiles P (setTile world y x tile).
Proof.
  intros Ht. unfold allTiles. apply setTile_rows. intros row Hrow.
  apply Forall_insert; assumption.
Qed.

Lemma setTile_shape world (y x : Z) tile :
  worldShape world -> worldShape (setTile world y x tile).
Proof.
  intros [Hlen Hgrid]. split.
  - rewrite setTile_length. exact Hlen.
  - apply setTile_is_grid. exact Hgrid.
Qed.

(** A write changes the tile it writes and nothing else. *)
Lemma getTile_setTile world (y x y' x' : Z) tile old :
  getTile world y x = Ok old ->
  getTile (setTile world y x tile) y' x' =
  if (y' =? y) && (x' =? x) then Ok tile else getTile world y' x'.
Proof.
  intros Hold. apply getTile_Ok in Hold.
  destruct Hold as (Hy & Hx & row & Hr & Ht).
  unfold setTile.
  replace ((y <? 0) || (x <? 0)) with false
    by (symmetry; apply orb_false_iff; split; apply Z.ltb_ge; assumption).
  rewrite Hr.
  assert (Hylt : (Z.to_nat y < length world)%nat) by (eapply lookup_lt_Some; eauto).
  assert (Hxlt : (Z.to_nat x < length row)%nat) by (eapply lookup_lt_Some; eauto).
  destruct (y' =? y) eqn:Ey; cbn [andb].
  - apply Z.eqb_eq in Ey. subst y'.
    destruct (x' =? x) eqn:Ex.
    + apply Z.eqb_eq in Ex. subst x'.
      apply getTile_Ok. repeat split; try assumption.
      exists (<[Z.to_nat x := tile]> row). split.
      * apply list_lookup_insert_eq. exact Hylt.
      * apply list_lookup_insert_eq. exact Hxlt.
    + apply Z.eqb_neq in Ex.
      unfold getTile.
      assert (E1 : js_index (<[Z.to_nat y := <[Z.to_nat x := tile]> row]> world) y
                   = Some (<[Z.to_nat x := tile]> row)).
      { apply js_index_Some. split; [exact Hy |]. apply list_lookup_insert_eq. exact Hylt. }
      assert (E2 : js_index world y = Some row) by (apply js_index_Some; auto).
      rewrite E1, E2.
      unfold js_index. destruct (x' <? 0) eqn:Ex0; [reflexivity |].
      apply Z.ltb_ge in Ex0.
      rewrite list_lookup_insert_ne by lia. reflexivity.
  - apply Z.eqb_neq in Ey.
    unfold getTile, js_index at 1 3.
    destruct (y' <? 0) eqn:Ey0; [reflexivity |].
    apply Z.ltb_ge in Ey0.
    rewrite list_lookup_insert_ne by lia. reflexivity.
Qed.

(** *** [mapTiles] *)

Lemma mapTiles_world (f : Z -> Z -> Tile -> Tile * list Status) world :
  (mapTiles f world).1 =
  imap (fun y row => imap (fun x tile => (f (Z.of_nat y) (Z.of_nat x) tile).1) row) world.
Proof.
  unfold mapTiles. cbn [fst].
  rewrite fmap_imap. apply imap_ext. intros y row _. cbn [compose fst].
  rewrite fmap_imap. reflexivity.
Qed.

Lemma mapTiles_lookup (f : Z -> Z -> Tile -> Tile * list Status) world (y x : Z) tile :
  getTile world y x = Ok tile ->
  getTile (mapTiles f world).1 y x = Ok (f y x tile).1.
Proof.
  intros Ht. apply getTile_Ok in Ht. destruct Ht as (Hy & Hx & row & Hr & Ht).
  apply getTile_Ok. repeat split; try assumption.
  rewrite mapTiles_world.
  exists (imap (fun x0 t => (f (Z.of_nat (Z.to_nat y)) (Z.of_nat x0) t).1) row). split.
  - rewrite list_lookup_imap, Hr. reflexivity.
  - rewrite list_lookup_imap, Ht. cbn. rewrite !Z2Nat.id by assumption. reflexivity.
Qed.

Lemma mapTiles_length (f : Z -> Z -> Tile -> Tile * list Status) world :
  length (mapTiles f world).1 = length world.
Proof. rewrite mapTiles_world. apply length_imap. Qed.

Lemma mapTiles_is_grid (f : Z -> Z -> Tile -> Tile * list Status) (w : Z) world :
  is_grid w world -> is_grid w (mapTiles f world).1.
Proof.
  unfold is_grid. rewrite mapTiles_world, !Forall_lookup.
  intros Hall y row Hrow. rewrite list_lookup_imap in Hrow.
  destruct (world !! y) as [row0 |] eqn:E; [| discriminate].
  cbn in Hrow. injection Hrow as <-. rewrite length_imap. eapply Hall. exact E.
Qed.

Lemma mapTiles_shape (f : Z -> Z -> Tile -> Tile * list Status) world :
  worldShape world -> worldShape (mapTiles f world).1.
Proof.
  intros [Hlen Hgrid]. split.
  - rewrite mapTiles_length. exact Hlen.
  - apply mapTiles_is_grid. exact Hgrid.
Qed.

Lemma mapTiles_allTiles P (f : Z -> Z -> Tile -> Tile * list Status) world :
  (forall y x tile, P tile -> P (f y x tile).1) ->
  allTiles P world -> allTiles P (mapTiles f world).1.
Proof.
  intros Hf. unfold allTiles. rewrite mapTiles_world, !Forall_lookup.
  intros Hall y row Hrow. rewrite list_lookup_imap in Hrow.
  destruct (world !! y) as [row0 |] eqn:E; [| discriminate].
  cbn in Hrow. injection Hrow as <-.
  rewrite Forall_lookup. intros x tile Htile. rewrite list_lookup_imap in Htile.
  destruct (row0 !! x) as [t0 |] eqn:E0; [| discriminate].
  cbn in Htile. injection Htile as <-.
  apply Hf. eapply Forall_lookup_1; [| exact E0]. eapply Hall. exact E.
Qed.

End GridFacts.

(** ** Tile well-formedness *)

Section InvariantFacts.
Implicit Types (world : World) (tile : Tile).

Lemma tileInv_wellFormed tile : tileInv tile -> tileWellFormed tile.
Proof.
  unfold tileInv, tileWellFormed. destruct (crop tile) as [c |].
  - intros [[Ht Hs] | [Ht Hs]]; split; intros H; auto.
    + rewrite Ht in H. discriminate.
    + exists c. auto.
  - intros [H1 H2]. split; intros H; [congruence | contradiction].
Qed.

Lemma allTiles_impl (P R : Tile -> Prop) world :
  (forall tile, P tile -> R tile) -> allTiles P world -> allTiles R world.
Proof.
  intros HPR Hall. unfold allTiles in *.
  eapply Forall_impl; [exact Hall |].
  intros row Hrow. eapply Forall_impl; [exact Hrow | exact HPR].
Qed.

Lemma zrange_length (lo : Z) (n : nat) : length (zrange lo n) = n.
Proof.
  revert lo. induction n as [| n IH]; intros lo; cbn [zrange length]; [reflexivity |].
  rewrite IH. reflexivity.
Qed.

Lemma Forall_map_intro {A B : Type} (P : B -> Prop) (f : A -> B) (l : list A) :
  (forall a, P (f a)) -> Forall P (List.map f l).
Proof.
  intros Hf. induction l as [| a l IH]; cbn [List.map]; constructor; auto.
Qed.

Lemma generatedTile_inv (y : Z) : tileInv (generatedTile y).
Proof.
  unfold generatedTile, tileInv.
  destruct ((groundStartRow <=? y) && (y <? groundStartRow + 3));
    [| destruct (groundStartRow + 3 <=? y)]; cbn; split; discriminate.
Qed.

Lemma generateWorld_inv : worldInv generateWorld.
Proof.
  unfold worldInv, worldShape, generateWorld. split; [split |].
  - rewrite List.length_map, zrange_length. reflexivity.
  - unfold is_grid. apply Forall_map_intro. intros y.
    rewrite List.length_map, zrange_length. reflexivity.
  - unfold allTiles. apply Forall_map_intro. intros y.
    apply Forall_map_intro. intros _. apply generatedTile_inv.
Qed.

Lemma worldInv_setTile world (y x : Z) tile :
  worldInv world -> tileInv tile -> worldInv (setTile world y x tile).
Proof.
  intros [Hshape Hall] Ht. split.
  - apply setTile_shape. exact Hshape.
  - apply setTile_allTiles; assumption.
Qed.

Lemma worldInv_mapTiles (f : Z -> Z -> Tile -> Tile * list Status) world :
  (forall y x tile, tileInv tile -> tileInv (f y x tile).1) ->
  worldInv world -> worldInv (mapTiles f world).1.
Proof.
  intros Hf [Hshape Hall]. split.
  - apply mapTiles_shape. exact Hshape.
  - apply mapTiles_allTiles; assumption.
Qed.

Lemma hasCrop_false tile : hasCrop tile = false -> crop tile = None.
Proof. unfold hasCrop. destruct (crop tile); [discriminate | reflexivity]. Qed.

Lemma TileType_eqb_eq (a b : TileType) : TileType_eqb a b = true <-> a = b.
Proof. destruct a, b; cbn; split; intros H; try reflexivity; discriminate. Qed.

(** A grass or dirt tile that keeps its (absent) crop may become tilled. *)
Lemma tilled_inv tile :
  tileInv tile -> isGrassOrDirt (type tile) = true -> tileInv (mkTile TILLED (crop tile)).
Proof.
  unfold tileInv, isGrassOrDirt. cbn [crop type].
  intros Hinv Hg. apply orb_true_iff in Hg.
  destruct (crop tile) as [c |].
  - exfalso. destruct Hg as [Hg | Hg]; apply TileType_eqb_eq in Hg;
      destruct Hinv as [[Ht _] | [Ht _]]; congruence.
  - split; discriminate.
Qed.

Lemma planted_inv (kind : CropType) (now : Z) :
  tileInv (mkTile CROP_PLANTED (Some (mkCrop kind SEED now))).
Proof. unfold tileInv, SEED, MATURE. cbn. left. split; [reflexivity | lia]. Qed.

Lemma harvested_inv : tileInv (mkTile TILLED None).
Proof. unfold tileInv. cbn. split; discriminate. Qed.

Lemma grown_inv tile c :
  tileInv tile -> crop tile = Some c -> type tile = CROP_PLANTED ->
  tileInv (mkTile (if stage c + 1 >=? MATURE then CROP_GROWN else CROP_PLANTED)
                  (Some (mkCrop (crop_type c) (stage c + 1) (plantedTime c)))).
Proof.
  unfold tileInv. intros Hinv Hc Ht. rewrite Hc in Hinv. cbn [crop type stage].
  destruct Hinv as [[_ Hs] | [Hg _]]; [| congruence].
  unfold SEED, MATURE in *.
  destruct (stage c + 1 >=? 2) eqn:E.
  - right. split; [reflexivity | lia].
  - left. split; [reflexivity | lia].
Qed.

Lemma handleTillSoil_inv world player world' player' shown :
  worldInv world -> handleTillSoil world player = (world', player', shown) ->
  worldInv world'.
Proof.
  intros Hinv. unfold handleTillSoil.
  destruct (isInVehicle player); [intros H; injection H as <- _ _; exact Hinv |].
  destruct (Z.of_nat (length world) =? 0); [intros H; injection H as <- _ _; exact Hinv |].
  destruct ((targetTileY player <? WORLD_HEIGHT_TILES) &&
            (targetTileX player <? WORLD_WIDTH_TILES));
    [| intros H; injection H as <- _ _; exact Hinv].
  match goal with |- context [mapTiles ?f world] =>
    pose proof (worldInv_mapTiles f world) as Hmap;
    destruct (mapTiles f world) as [nw sh] end.
  intros H. injection H as <- _ _. cbn [fst] in Hmap. apply Hmap; [| exact Hinv].
  intros y x tile Ht.
  destruct ((x =? targetTileX player) && (y =? targetTileY player) &&
            isGrassOrDirt (type tile)) eqn:E; cbn [fst]; [| exact Ht].
  apply tilled_inv; [exact Ht |]. apply andb_true_iff in E. apply E.
Qed.

Lemma handlePlantCrop_inv world player selected now world' player' shown :
  worldInv world ->
  handlePlantCrop world player selected now = Ok (world', player', shown) ->
  worldInv world'.
Proof.
  intros Hinv. unfold handlePlantCrop.
  destruct (isInVehicle player); [intros H; injection H as <- _ _; exact Hinv |].
  destruct (Z.of_nat (length world) =? 0); [intros H; injection H as <- _ _; exact Hinv |].
  destruct ((targetTileY player <? WORLD_HEIGHT_TILES) &&
            (targetTileX player <? WORLD_WIDTH_TILES));
    [| intros H; injection H as <- _ _; exact Hinv].
  destruct (getTile world (targetTileY player) (targetTileX player)) as [tile |];
    [| discriminate].
  destruct (TileType_eqb (type tile) TILLED && negb (hasCrop tile)).
  - destruct (seedCount (inventory (ent_extra player)) selected >? 0);
      [| intros H; injection H as <- _ _; exact Hinv].
    match goal with |- context [mapTiles ?f world] =>
      pose proof (worldInv_mapTiles f world) as Hmap;
      destruct (mapTiles f world) as [nw sh] end.
    intros H. injection H as <- _ _. cbn [fst] in Hmap. apply Hmap; [| exact Hinv].
    intros y x t Ht.
    destruct ((x =? targetTileX player) && (y =? targetTileY player)); cbn [fst];
      [apply planted_inv | exact Ht].
  - destruct (hasCrop tile); intros H; injection H as <- _ _; exact Hinv.
Qed.

Lemma handleHarvestCrop_inv world player world' player' shown :
  worldInv world ->
  handleHarvestCrop world player = Ok (world', player', shown) ->
  worldInv world'.
Proof.
  intros Hinv. unfold handleHarvestCrop.
  destruct (isInVehicle player); [intros H; injection H as <- _ _; exact Hinv |].
  destruct (Z.of_nat (length world) =? 0); [intros H; injection H as <- _ _; exact Hinv |].
  destruct ((targetTileY player <? WORLD_HEIGHT_TILES) &&
            (targetTileX player <? WORLD_WIDTH_TILES));
    [| intros H; injection H as <- _ _; exact Hinv].
  destruct (getTile world (targetTileY player) (targetTileX player)) as [tile |];
    [| discriminate].
  destruct (matureCrop tile) as [c |].
  - destruct (cropCount (inventory (ent_extra player)) (crop_type c)
              <? maxStorage (ent_extra player));
      [| intros H; injection H as <- _ _; exact Hinv].
    match goal with |- context [mapTiles ?f world] =>
      pose proof (worldInv_mapTiles f world) as Hmap;
      destruct (mapTiles f world) as [nw sh] end.
    intros H. injection H as <- _ _. cbn [fst] in Hmap. apply Hmap; [| exact Hinv].
    intros y x t Ht.
    destruct ((x =? targetTileX player) && (y =? targetTileY player)); cbn [fst];
      [apply harvested_inv | exact Ht].
  - destruct (crop tile) as [c |]; [destruct (negb (stage c =? MATURE)) |];
      intros H; injection H as <- _ _; exact Hinv.
Qed.

End InvariantFacts.

Section AutomatedFacts.
Implicit Types (world : World) (tile : Tile).

Lemma plowStep_inv (plow : Attachment) (plowY i : Z) world world' :
  worldInv world ->
  plowStep plow plowY i world = Next world' \/ plowStep plow plowY i world = Break world' ->
  worldInv world'.
Proof.
  intros Hinv. unfold plowStep.
  set (plowX := Math_floor _).
  destruct ((plowY <? WORLD_HEIGHT_TILES) && (0 <=? plowX) && (plowX <? WORLD_WIDTH_TILES)).
  - destruct (getTile world plowY plowX) as [tile |] eqn:Et.
    + destruct (isGrassOrDirt (type tile) && negb (hasCrop tile)) eqn:E;
        intros [H | H]; try discriminate; injection H as <-; [| exact Hinv].
      apply andb_true_iff in E. destruct E as [Eg _].
      apply worldInv_setTile; [exact Hinv |].
      apply tilled_inv; [| exact Eg].
      eapply getTile_allTiles; [apply Hinv | exact Et].
    + intros [H | H]; discriminate.
  - intros [H | H]; try discriminate. injection H as <-. exact Hinv.
Qed.

Lemma applyPlowAction_inv (tractor : Vehicle) (plow : Attachment) world world' :
  worldInv world -> applyPlowAction tractor plow world = Ok world' -> worldInv world'.
Proof.
  intros Hinv. unfold applyPlowAction.
  destruct (implementIdle tractor Plow); [intros H; injection H as <-; exact Hinv |].
  destruct (Z.of_nat (length world) =? 0); [intros H; injection H as <-; exact Hinv |].
  unfold forZ. apply for_range_preserve; [exact Hinv |].
  intros j s0 s1 Hs0. apply plowStep_inv. exact Hs0.
Qed.

Lemma seederStep_inv (seeder : Attachment) (seederY : Z) (player : Player)
  (selected : CropType) (now i : Z) (st st' : SeederState) :
  worldInv st.1.1 ->
  seederStep seeder seederY player selected now i st = Next st' \/
  seederStep seeder seederY player selected now i st = Break st' ->
  worldInv st'.1.1.
Proof.
  destruct st as [[world consumed] shown]. cbn [fst]. intros Hinv.
  unfold seederStep. set (seederX := Math_floor _).
  destruct ((seederY <? WORLD_HEIGHT_TILES) && (0 <=? seederX) &&
            (seederX <? WORLD_WIDTH_TILES)).
  - destruct (getTile world seederY seederX) as [tile |] eqn:Et.
    + destruct (TileType_eqb (type tile) TILLED && negb (hasCrop tile)).
      * destruct (seedCount (inventory (ent_extra player)) selected - consumed >? 0);
          intros [H | H]; try discriminate; injection H as <-; cbn [fst]; [| exact Hinv].
        apply worldInv_setTile; [exact Hinv | apply planted_inv].
      * intros [H | H]; try discriminate. injection H as <-. exact Hinv.
    + intros [H | H]; discriminate.
  - intros [H | H]; try discriminate. injection H as <-. exact Hinv.
Qed.

Lemma applySeederAction_inv (tractor : Vehicle) (seeder : Attachment) world
  (player : Player) (selected : CropType) (now : Z) world' player' shown :
  worldInv world ->
  applySeederAction tractor seeder world player selected now = Ok (world', player', shown) ->
  worldInv world'.
Proof.
  intros Hinv. unfold applySeederAction.
  destruct (implementIdle tractor Seeder); [intros H; injection H as <- _ _; exact Hinv |].
  destruct (Z.of_nat (length world) =? 0); [intros H; injection H as <- _ _; exact Hinv |].
  destruct (forZ _ _ _ _) as [[[nw consumed] sh] |] eqn:Eloop; [| discriminate].
  assert (Hnw : worldInv (nw, consumed, sh).1.1).
  { unfold forZ in Eloop.
    eapply (for_range_preserve (fun st : SeederState => worldInv st.1.1));
      [| | exact Eloop]; [exact Hinv |].
    intros j s0 s1 Hs0. apply seederStep_inv. exact Hs0. }
  cbn [fst] in Hnw.
  destruct (consumed >? 0); intros H; injection H as <- _ _; exact Hnw.
Qed.

Lemma combineStep_inv (combineY : Z) (player : Player) (x : Z) (st st' : CombineState) :
  worldInv st.1.1 ->
  combineStep combineY player x st = Next st' \/ combineStep combineY player x st = Break st' ->
  worldInv st'.1.1.
Proof.
  destruct st as [[world harvested] shown]. cbn [fst]. intros Hinv.
  unfold combineStep.
  destruct ((combineY <? WORLD_HEIGHT_TILES) && (0 <=? x) && (x <? WORLD_WIDTH_TILES)).
  - destruct (getTile world combineY x) as [tile |] eqn:Et.
    + destruct (matureCrop tile) as [c |].
      * destruct (cropCount (inventory (ent_extra player)) (crop_type c)
                  + harvestedOf harvested (crop_type c) <? maxStorage (ent_extra player));
          intros [H | H]; try discriminate; injection H as <-; cbn [fst]; [| exact Hinv].
        apply worldInv_setTile; [exact Hinv | apply harvested_inv].
      * intros [H | H]; try discriminate. injection H as <-. exact Hinv.
    + intros [H | H]; discriminate.
  - intros [H | H]; try discriminate. injection H as <-. exact Hinv.
Qed.

Lemma applyCombineAction_inv (combineHarvester : Vehicle) world (player : Player)
  world' player' shown :
  worldInv world ->
  applyCombineAction combineHarvester world player = Ok (world', player', shown) ->
  worldInv world'.
Proof.
  intros Hinv. unfold applyCombineAction.
  destruct (combineIdle combineHarvester); [intros H; injection H as <- _ _; exact Hinv |].
  destruct (Z.of_nat (length world) =? 0); [intros H; injection H as <- _ _; exact Hinv |].
  destruct (headerSpan combineHarvester) as [startX endX].
  destruct (forZ _ _ _ _) as [[[nw harvested] sh] |] eqn:Eloop; [| discriminate].
  assert (Hnw : worldInv (nw, harvested, sh).1.1).
  { unfold forZ in Eloop.
    eapply (for_range_preserve (fun st : CombineState => worldInv st.1.1));
      [| | exact Eloop]; [exact Hinv |].
    intros j s0 s1 Hs0. apply combineStep_inv. exact Hs0. }
  cbn [fst] in Hnw.
  destruct ((h_wheat harvested >? 0) || (h_corn harvested >? 0) || (h_potato harvested >? 0));
    intros H; injection H as <- _ _; exact Hnw.
Qed.

Lemma growStep_inv (now y x : Z) world world' :
  worldInv world ->
  growStep now y x world = Next world' \/ growStep now y x world = Break world' ->
  worldInv world'.
Proof.
  intros Hinv. unfold growStep.
  destruct (getTile world y x) as [tile |] eqn:Et; [| intros [H | H]; discriminate].
  destruct (crop tile) as [c |] eqn:Ec;
    [| intros [H | H]; try discriminate; injection H as <-; exact Hinv].
  destruct (TileType_eqb (type tile) CROP_PLANTED) eqn:Ep;
    [| intros [H | H]; try discriminate; injection H as <-; exact Hinv].
  cbv zeta.
  destruct (now - plantedTime c >=? GROWTH_TIME_PER_STAGE * (stage c + 1));
    intros [H | H]; try discriminate; injection H as <-; [| exact Hinv].
  apply worldInv_setTile; [exact Hinv |].
  apply (grown_inv tile c); [| exact Ec | apply TileType_eqb_eq; exact Ep].
  eapply getTile_allTiles; [apply Hinv | exact Et].
Qed.

Lemma inner_Ok {S : Type} (r : res S) (s : S) :
  inner r = Next s \/ inner r = Break s -> r = Ok s.
Proof.
  destruct r; cbn [inner]; intros [H | H]; try discriminate.
  injection H as <-. reflexivity.
Qed.

Lemma updateCropGrowth_inv (now : Z) world world' :
  worldInv world -> updateCropGrowth now world = Ok world' -> worldInv world'.
Proof.
  intros Hinv. unfold updateCropGrowth.
  destruct (Z.of_nat (length world) =? 0); [intros H; injection H as <-; exact Hinv |].
  unfold forZ. apply for_range_preserve; [exact Hinv |].
  intros y s0 s1 Hs0 Hstep. apply inner_Ok in Hstep.
  eapply for_range_preserve; [exact Hs0 | | exact Hstep].
  intros x s2 s3 Hs2. apply growStep_inv. exact Hs2.
Qed.

(** Every world the program can be in has the generated shape and only
    tiles that satisfy the invariant. *)
Lemma reachable_inv world : reachable world -> worldInv world.
Proof.
  induction 1 as
    [ | w p w' p' sh _ IH E | w p sel now w' p' sh _ IH E | w p w' p' sh _ IH E
      | w t a w' _ IH E | w t a p sel now w' p' sh _ IH E | w c p w' p' sh _ IH E
      | w now w' _ IH E ].
  - apply generateWorld_inv.
  - eapply handleTillSoil_inv; eauto.
  - eapply handlePlantCrop_inv; eauto.
  - eapply handleHarvestCrop_inv; eauto.
  - eapply applyPlowAction_inv; eauto.
  - eapply applySeederAction_inv; eauto.
  - eapply applyCombineAction_inv; eauto.
  - eapply updateCropGrowth_inv; eauto.
Qed.

End AutomatedFacts.

(** ** Crop growth *)

Section GrowthFacts.
Implicit Types (world : World) (tile : Tile).

Lemma getTile_bounds world (y x : Z) tile :
  worldShape world -> getTile world y x = Ok tile ->
  0 <= y < WORLD_HEIGHT_TILES /\ 0 <= x < WORLD_WIDTH_TILES.
Proof.
  intros [Hlen Hgrid] Ht. apply getTile_Ok in Ht.
  destruct Ht as (Hy & Hx & row & Hr & Ht).
  pose proof (lookup_lt_Some _ _ _ Hr) as Hylt.
  pose proof (lookup_lt_Some _ _ _ Ht) as Hxlt.
  unfold is_grid in Hgrid. rewrite Forall_lookup in Hgrid.
  specialize (Hgrid _ _ Hr). lia.
Qed.

Lemma getTile_total world (y x : Z) :
  worldShape world -> 0 <= y < WORLD_HEIGHT_TILES -> 0 <= x < WORLD_WIDTH_TILES ->
  exists tile, getTile world y x = Ok tile.
Proof.
  intros [Hlen Hgrid] Hy Hx.
  apply (getTile_in_grid WORLD_WIDTH_TILES); [exact Hgrid | lia | exact Hx].
Qed.

(** One visit of the growth loop applies the growth rule to the tile it
    visits and leaves the others alone. *)
Lemma growStep_spec (now y x : Z) world tile :
  getTile world y x = Ok tile ->
  exists world',
    growStep now y x world = Next world' /\
    (worldShape world -> worldShape world') /\
    forall r c, getTile world' r c =
                if (r =? y) && (c =? x) then Ok (growTile now tile) else getTile world r c.
Proof.
  intros Ht. unfold growStep, growTile. rewrite Ht.
  assert (Hsame : forall r c, getTile world r c =
            if (r =? y) && (c =? x) then Ok tile else getTile world r c).
  { intros r c. destruct ((r =? y) && (c =? x)) eqn:E; [| reflexivity].
    apply andb_true_iff in E. destruct E as [E1 E2].
    apply Z.eqb_eq in E1, E2. subst. exact Ht. }
  destruct (crop tile) as [cr |]; [| exists world; auto].
  destruct (TileType_eqb (type tile) CROP_PLANTED); [| exists world; auto].
  cbv zeta.
  destruct (now - plantedTime cr >=? GROWTH_TIME_PER_STAGE * (stage cr + 1));
    [| exists world; auto].
  eexists. split; [reflexivity |]. split.
  - apply setTile_shape.
  - intros r c. apply (getTile_setTile world y x r c _ tile). exact Ht.
Qed.

Section Tick.
Variables (now : Z) (world0 : World).
Hypothesis shape0 : worldShape world0.

Lemma growth_row (y : Z) world :
  0 <= y < WORLD_HEIGHT_TILES -> grownBefore now world0 y 0 world ->
  exists world',
    forZ 0 WORLD_WIDTH_TILES (growStep now y) world = Ok world' /\
    grownBefore now world0 (y + 1) 0 world'.
Proof.
  intros Hy Hstart. unfold forZ.
  destruct (for_range_invariant (grownBefore now world0 y) (growStep now y)
              (Z.to_nat (WORLD_WIDTH_TILES - 0)) 0 world Hstart) as (world' & Hrun & Hend).
  - intros x w Hx [Hshape Hw].
    change (0 + Z.of_nat (Z.to_nat (WORLD_WIDTH_TILES - 0))) with WORLD_WIDTH_TILES in Hx.
    destruct (getTile_total world0 y x shape0 Hy Hx) as [tile0 Ht0].
    pose proof (Hw y x tile0 Ht0) as Hcur.
    replace ((y <? y) || ((y =? y) && (x <? x))) with false in Hcur by (symmetry; zbool).
    destruct (growStep_spec now y x w tile0 Hcur) as (w' & Hstep & Hsh & Hget).
    exists w'. split; [exact Hstep |]. split; [auto |].
    intros r c t0 Hrc. rewrite Hget, (Hw r c t0 Hrc).
    destruct (Z.eqb_spec r y) as [-> |]; [destruct (Z.eqb_spec c x) as [-> |] |];
      cbn [andb].
    + assert (t0 = tile0) by congruence. subst t0. f_equal; zbool.
    + f_equal; zbool.
    + f_equal; zbool.
  - exists world'. split; [exact Hrun |].
    change (0 + Z.of_nat (Z.to_nat (WORLD_WIDTH_TILES - 0))) with WORLD_WIDTH_TILES in Hend.
    destruct Hend as [Hshape Hw]. split; [exact Hshape |].
    intros r c t0 Hrc. rewrite (Hw r c t0 Hrc).
    destruct (getTile_bounds world0 r c t0 shape0 Hrc) as [_ Hc].
    f_equal; zbool.
Qed.

Lemma growth_rows :
  exists world',
    forZ 0 WORLD_HEIGHT_TILES
      (fun y w => inner (forZ 0 WORLD_WIDTH_TILES (growStep now y) w)) world0 = Ok world' /\
    grownBefore now world0 WORLD_HEIGHT_TILES 0 world'.
Proof.
  unfold forZ at 1.
  destruct (for_range_invariant (fun y w => grownBefore now world0 y 0 w)
              (fun y w => inner (forZ 0 WORLD_WIDTH_TILES (growStep now y) w))
              (Z.to_nat (WORLD_HEIGHT_TILES - 0)) 0 world0) as (world' & Hrun & Hend).
  - split; [exact shape0 |]. intros r c t0 Hrc. rewrite Hrc.
    destruct (getTile_bounds world0 r c t0 shape0 Hrc) as [Hr Hc].
    f_equal; zbool.
  - intros y w Hy Hw.
    change (0 + Z.of_nat (Z.to_nat (WORLD_HEIGHT_TILES - 0))) with WORLD_HEIGHT_TILES in Hy.
    destruct (growth_row y w Hy Hw) as (w' & Hrun & Hw').
    exists w'. rewrite Hrun. split; [reflexivity | exact Hw'].
  - exists world'. split; [exact Hrun |]. exact Hend.
Qed.

End Tick.

(** A growth tick on a world of the generated shape ends, keeps the shape
    and applies the growth rule to every tile. *)
Lemma updateCropGrowth_spec (now : Z) world :
  worldShape world ->
  exists world',
    updateCropGrowth now world = Ok world' /\
    worldShape world' /\
    forall y x tile, getTile world y x = Ok tile ->
      getTile world' y x = Ok (growTile now tile).
Proof.
  intros Hshape. unfold updateCropGrowth.
  replace (Z.of_nat (length world) =? 0) with false
    by (destruct Hshape as [-> _]; reflexivity).
  destruct (growth_rows now world Hshape) as (world' & Hrun & Hsh & Hget).
  exists world'. split; [exact Hrun |]. split; [exact Hsh |].
  intros y x tile Ht. rewrite (Hget y x tile Ht).
  destruct (getTile_bounds world y x tile Hshape Ht) as [Hy _].
  f_equal; zbool.
Qed.

(** *** The growth rule *)

Lemma growTile_advance (now : Z) tile c :
  crop tile = Some c -> type tile = CROP_PLANTED ->
  GROWTH_TIME_PER_STAGE * (stage c + 1) <= now - plantedTime c ->
  growTile now tile =
  mkTile (if stage c + 1 >=? MATURE then CROP_GROWN else CROP_PLANTED)
         (Some (mkCrop (crop_type c) (stage c + 1) (plantedTime c))).
Proof.
  intros Hc Ht Hel. unfold growTile. rewrite Hc, Ht. cbn [TileType_eqb].
  replace (now - plantedTime c >=? GROWTH_TIME_PER_STAGE * (stage c + 1)) with true
    by (symmetry; apply Z.geb_le; exact Hel).
  reflexivity.
Qed.

Lemma growTile_wait (now : Z) tile c :
  crop tile = Some c ->
  now - plantedTime c < GROWTH_TIME_PER_STAGE * (stage c + 1) ->
  growTile now tile = tile.
Proof.
  intros Hc Hel. unfold growTile. rewrite Hc.
  destruct (TileType_eqb (type tile) CROP_PLANTED); [| reflexivity].
  replace (now - plantedTime c >=? GROWTH_TIME_PER_STAGE * (stage c + 1)) with false;
    [reflexivity |].
  symmetry. rewrite Z.geb_leb. apply Z.leb_gt. exact Hel.
Qed.

(** Growth never removes a crop and never lowers its stage. *)
Lemma growTile_monotone (now : Z) tile c :
  crop tile = Some c ->
  exists c', crop (growTile now tile) = Some c' /\ stage c <= stage c'.
Proof.
  intros Hc. unfold growTile. rewrite Hc.
  destruct (TileType_eqb (type tile) CROP_PLANTED); [| exists c; split; [exact Hc | lia]].
  destruct (now - plantedTime c >=? GROWTH_TIME_PER_STAGE * (stage c + 1)).
  - eexists. cbn [crop]. split; [reflexivity |]. cbn [stage]. lia.
  - exists c. split; [exact Hc | lia].
Qed.

Lemma growthTicks_monotone (times : list Z) world :
  worldShape world ->
  exists world',
    growthTicks times world = Ok world' /\
    forall y x tile c, getTile world y x = Ok tile -> crop tile = Some c ->
      exists tile' c', getTile world' y x = Ok tile' /\ crop tile' = Some c' /\
                       stage c <= stage c'.
Proof.
  revert world. induction times as [| now rest IH]; intros world Hshape; cbn [growthTicks].
  - exists world. split; [reflexivity |]. intros y x tile c Ht Hc.
    exists tile, c. repeat split; [exact Ht | exact Hc | lia].
  - destruct (updateCropGrowth_spec now world Hshape) as (w1 & Hrun & Hsh1 & Hget).
    rewrite Hrun.
    destruct (IH w1 Hsh1) as (w2 & Hrest & Hmono).
    exists w2. split; [exact Hrest |]. intros y x tile c Ht Hc.
    destruct (growTile_monotone now tile c Hc) as (c1 & Hc1 & Hle1).
    destruct (Hmono y x (growTile now tile) c1 (Hget y x tile Ht) Hc1)
      as (tile' & c' & Ht' & Hc' & Hle2).
    exists tile', c'. repeat split; [exact Ht' | exact Hc' | lia].
Qed.

End GrowthFacts.

(** ** Storage limit *)

Section StorageFacts.
Implicit Types (world : World) (player : Player).

Lemma cropCount_set (inv : Inventory) (k k' : CropType) (v : Z) :
  cropCount (setCropCount inv k v) k' = if decide (k = k') then v else cropCount inv k'.
Proof. destruct k, k'; reflexivity. Qed.

Lemma seedCount_set_crop (inv : Inventory) (k k' : CropType) (v : Z) :
  seedCount (setCropCount inv k v) k' = seedCount inv k'.
Proof. destruct k, k'; reflexivity. Qed.

(** A manual harvest credits at most one unit, and only below the limit. *)
Lemma handleHarvestCrop_credit world player world' player' shown :
  handleHarvestCrop world player = Ok (world', player', shown) ->
  maxStorage (ent_extra player') = maxStorage (ent_extra player) /\
  forall kind,
    cropCount (inventory (ent_extra player')) kind = cropCount (inventory (ent_extra player)) kind \/
    (cropCount (inventory (ent_extra player)) kind < maxStorage (ent_extra player) /\
     cropCount (inventory (ent_extra player')) kind
     = cropCount (inventory (ent_extra player)) kind + 1).
Proof.
  unfold handleHarvestCrop.
  destruct (isInVehicle player); [intros H; injection H as _ <- _; auto |].
  destruct (Z.of_nat (length world) =? 0); [intros H; injection H as _ <- _; auto |].
  destruct ((targetTileY player <? WORLD_HEIGHT_TILES) &&
            (targetTileX player <? WORLD_WIDTH_TILES));
    [| intros H; injection H as _ <- _; auto].
  destruct (getTile world (targetTileY player) (targetTileX player)) as [tile |];
    [| discriminate].
  destruct (matureCrop tile) as [c |].
  - destruct (cropCount (inventory (ent_extra player)) (crop_type c)
              <? maxStorage (ent_extra player)) eqn:E;
      [| intros H; injection H as _ <- _; auto].
    apply Z.ltb_lt in E.
    destruct (mapTiles _ world) as [nw sh].
    intros H. injection H as _ <- _. cbn. split; [reflexivity |].
    intros kind. rewrite cropCount_set.
    destruct (decide (crop_type c = kind)) as [<- | _]; [right; auto | left; reflexivity].
  - destruct (crop tile) as [c |]; [destruct (negb (stage c =? MATURE)) |];
      intros H; injection H as _ <- _; auto.
Qed.

Lemma harvestedOf_bump (h : Harvested) (k k' : CropType) :
  harvestedOf (bump h k) k' = if decide (k = k') then harvestedOf h k' + 1 else harvestedOf h k'.
Proof. destruct k, k'; reflexivity. Qed.

Lemma combineStep_credit (combineY : Z) player (x : Z) (st st' : CombineState) :
  creditedWithin player st ->
  combineStep combineY player x st = Next st' \/ combineStep combineY player x st = Break st' ->
  creditedWithin player st'.
Proof.
  destruct st as [[world harvested] shown]. intros Hinv.
  unfold combineStep.
  destruct ((combineY <? WORLD_HEIGHT_TILES) && (0 <=? x) && (x <? WORLD_WIDTH_TILES)).
  - destruct (getTile world combineY x) as [tile |].
    + destruct (matureCrop tile) as [c |].
      * destruct (cropCount (inventory (ent_extra player)) (crop_type c)
                  + harvestedOf harvested (crop_type c) <? maxStorage (ent_extra player)) eqn:E;
          intros [H | H]; try discriminate; injection H as <-; [| exact Hinv].
        apply Z.ltb_lt in E. intros kind. cbn [fst snd].
        rewrite harvestedOf_bump. specialize (Hinv kind). cbn [fst snd] in Hinv.
        destruct (decide (crop_type c = kind)) as [<- | _]; [| exact Hinv].
        split; [lia | right; lia].
      * intros [H | H]; try discriminate. injection H as <-. exact Hinv.
    + intros [H | H]; discriminate.
  - intros [H | H]; try discriminate. injection H as <-. exact Hinv.
Qed.

(** A combine pass never lowers a count, and a count it raises stays within
    the limit. *)
Lemma applyCombineAction_credit (combineHarvester : Vehicle) world player world' player' shown :
  applyCombineAction combineHarvester world player = Ok (world', player', shown) ->
  maxStorage (ent_extra player') = maxStorage (ent_extra player) /\
  forall kind,
    cropCount (inventory (ent_extra player')) kind = cropCount (inventory (ent_extra player)) kind \/
    (cropCount (inventory (ent_extra player)) kind < cropCount (inventory (ent_extra player')) kind /\
     cropCount (inventory (ent_extra player')) kind <= maxStorage (ent_extra player)).
Proof.
  unfold applyCombineAction.
  destruct (combineIdle combineHarvester); [intros H; injection H as _ <- _; auto |].
  destruct (Z.of_nat (length world) =? 0); [intros H; injection H as _ <- _; auto |].
  destruct (headerSpan combineHarvester) as [startX endX].
  destruct (forZ _ _ _ _) as [[[nw harvested] sh] |] eqn:Eloop; [| discriminate].
  assert (Hcred : creditedWithin player (nw, harvested, sh)).
  { unfold forZ in Eloop.
    eapply (for_range_preserve (creditedWithin player)); [| | exact Eloop].
    - intros kind. cbn. destruct kind; cbn; lia.
    - intros j s0 s1 Hs0. apply combineStep_credit. exact Hs0. }
  destruct ((h_wheat harvested >? 0) || (h_corn harvested >? 0) || (h_potato harvested >? 0));
    intros H; injection H as _ <- _; [| auto].
  cbn. split; [reflexivity |]. intros kind.
  specialize (Hcred kind). cbn [fst snd] in Hcred.
  destruct kind; cbn in *; lia.
Qed.

End StorageFacts.

(** ** Manual planting and harvesting *)

Section ManualFacts.
Implicit Types (world : World) (player : Player) (tile : Tile).

Lemma hasCrop_true tile : hasCrop tile = true -> exists c, crop tile = Some c.
Proof. unfold hasCrop. destruct (crop tile) as [c |]; [eauto | discriminate]. Qed.

Lemma matureCrop_Some tile c :
  matureCrop tile = Some c <-> (type tile = CROP_GROWN /\ crop tile = Some c /\ stage c = MATURE).
Proof.
  unfold matureCrop. destruct (crop tile) as [c0 |].
  - destruct (TileType_eqb (type tile) CROP_GROWN && (stage c0 =? MATURE)) eqn:E.
    + apply andb_true_iff in E. destruct E as [E1 E2].
      apply TileType_eqb_eq in E1. apply Z.eqb_eq in E2.
      split; [intros H; injection H as <-; auto | intros (_ & H & _); exact H].
    + split; [discriminate |]. intros (E1 & H & E2). injection H as ->.
      apply andb_false_iff in E. destruct E as [E | E].
      * apply TileType_eqb_eq in E1. congruence.
      * apply Z.eqb_neq in E. contradiction.
  - split; [discriminate | intros (_ & H & _); discriminate].
Qed.

Lemma matureCrop_harvestable tile :
  harvestable tile <-> exists c, matureCrop tile = Some c.
Proof.
  unfold harvestable. split.
  - intros (Ht & c & Hc & Hs). exists c. apply matureCrop_Some. auto.
  - intros (c & H). apply matureCrop_Some in H. destruct H as (Ht & Hc & Hs). eauto.
Qed.

(** The two tests that open both handlers, for a player on foot over a tile
    of the grid. *)
Lemma manual_guards world player tile :
  worldShape world ->
  getTile world (targetTileY player) (targetTileX player) = Ok tile ->
  (Z.of_nat (length world) =? 0) = false /\
  (targetTileY player <? WORLD_HEIGHT_TILES) && (targetTileX player <? WORLD_WIDTH_TILES) = true.
Proof.
  intros Hshape Ht.
  destruct (getTile_bounds world _ _ tile Hshape Ht) as [Hy Hx].
  destruct Hshape as [Hlen _]. split.
  - rewrite Hlen. reflexivity.
  - apply andb_true_iff. split; apply Z.ltb_lt; lia.
Qed.

Lemma handlePlantCrop_rejects world player (selected : CropType) (now : Z) tile :
  worldShape world -> isInVehicle player = false ->
  getTile world (targetTileY player) (targetTileX player) = Ok tile ->
  ~ plantable tile player selected ->
  exists message, handlePlantCrop world player selected now = Ok (world, player, [message]).
Proof.
  intros Hshape Hfoot Ht Hno.
  destruct (manual_guards world player tile Hshape Ht) as [G1 G2].
  unfold handlePlantCrop. rewrite Hfoot, G1, G2, Ht.
  destruct (TileType_eqb (type tile) TILLED && negb (hasCrop tile)) eqn:E.
  - destruct (seedCount (inventory (ent_extra player)) selected >? 0) eqn:Es;
      [| eexists; reflexivity].
    exfalso. apply Hno. apply andb_true_iff in E. destruct E as [E1 E2].
    apply TileType_eqb_eq in E1. apply negb_true_iff, hasCrop_false in E2.
    repeat split; [exact E1 | exact E2 | lia].
  - destruct (hasCrop tile); eexists; reflexivity.
Qed.

Lemma handleHarvestCrop_rejects world player tile :
  worldShape world -> isInVehicle player = false ->
  getTile world (targetTileY player) (targetTileX player) = Ok tile ->
  ~ harvestable tile ->
  exists message, handleHarvestCrop world player = Ok (world, player, [message]).
Proof.
  intros Hshape Hfoot Ht Hno.
  destruct (manual_guards world player tile Hshape Ht) as [G1 G2].
  unfold handleHarvestCrop. rewrite Hfoot, G1, G2, Ht.
  destruct (matureCrop tile) as [c |] eqn:E.
  - exfalso. apply Hno. apply matureCrop_harvestable. eauto.
  - destruct (crop tile) as [c |]; [destruct (negb (stage c =? MATURE)) |];
      eexists; reflexivity.
Qed.

Lemma handlePlantCrop_success world player (selected : CropType) (now : Z)
  world' player' shown :
  handlePlantCrop world player selected now = Ok (world', player', shown) ->
  (world', player') <> (world, player) ->
  exists tile, getTile world (targetTileY player) (targetTileX player) = Ok tile /\
               plantable tile player selected.
Proof.
  unfold handlePlantCrop.
  destruct (isInVehicle player); [intros H; injection H as <- <- _; congruence |].
  destruct (Z.of_nat (length world) =? 0); [intros H; injection H as <- <- _; congruence |].
  destruct ((targetTileY player <? WORLD_HEIGHT_TILES) &&
            (targetTileX player <? WORLD_WIDTH_TILES));
    [| intros H; injection H as <- <- _; congruence].
  destruct (getTile world (targetTileY player) (targetTileX player)) as [tile |];
    [| discriminate].
  destruct (TileType_eqb (type tile) TILLED && negb (hasCrop tile)) eqn:E.
  - destruct (seedCount (inventory (ent_extra player)) selected >? 0) eqn:Es;
      [| intros H; injection H as <- <- _; congruence].
    intros _ _. exists tile. split; [reflexivity |].
    apply andb_true_iff in E. destruct E as [E1 E2].
    apply TileType_eqb_eq in E1. apply negb_true_iff, hasCrop_false in E2.
    repeat split; [exact E1 | exact E2 | lia].
  - destruct (hasCrop tile); intros H; injection H as <- <- _; congruence.
Qed.

Lemma handleHarvestCrop_success world player world' player' shown :
  handleHarvestCrop world player = Ok (world', player', shown) ->
  (world', player') <> (world, player) ->
  exists tile, getTile world (targetTileY player) (targetTileX player) = Ok tile /\
               harvestable tile.
Proof.
  unfold handleHarvestCrop.
  destruct (isInVehicle player); [intros H; injection H as <- <- _; congruence |].
  destruct (Z.of_nat (length world) =? 0); [intros H; injection H as <- <- _; congruence |].
  destruct ((targetTileY player <? WORLD_HEIGHT_TILES) &&
            (targetTileX player <? WORLD_WIDTH_TILES));
    [| intros H; injection H as <- <- _; congruence].
  destruct (getTile world (targetTileY player) (targetTileX player)) as [tile |];
    [| discriminate].
  destruct (matureCrop tile) as [c |] eqn:E.
  - intros _ _. exists tile. split; [reflexivity |]. apply matureCrop_harvestable. eauto.
  - destruct (crop tile) as [c |]; [destruct (negb (stage c =? MATURE)) |];
      intros H; injection H as <- <- _; congruence.
Qed.

(** A player who sits in a vehicle gets no message. *)
Lemma handlePlantCrop_riding world player (selected : CropType) (now : Z) :
  isInVehicle player = true ->
  handlePlantCrop world player selected now = Ok (world, player, []).
Proof. intros H. unfold handlePlantCrop. rewrite H. reflexivity. Qed.

Lemma handleHarvestCrop_riding world player :
  isInVehicle player = true -> handleHarvestCrop world player = Ok (world, player, []).
Proof. intros H. unfold handleHarvestCrop. rewrite H. reflexivity. Qed.

End ManualFacts.

(** ** Tractor movement *)

Section TractorFacts.
Implicit Types (keys : Keys) (tractor : Vehicle).

Lemma Math_max_floor (v : Q) : (0 <= Math_max 0 v)%Q.
Proof. unfold Math_max. qbool; lra. Qed.

Lemma Math_max_id (v : Q) : (0 <= v)%Q -> (Math_max 0 v == v)%Q.
Proof. intros H. unfold Math_max. qbool; lra. Qed.

Lemma handleTractorMovement_dry keys tractor :
  v_isInVehicle (ent_extra tractor) = true ->
  (fuel (ent_extra tractor) == 0)%Q ->
  isMovingKey keys = true ->
  handleTractorMovement keys tractor =
  (set_vx tractor 0, [("Tractor out of fuel!"%string, 1000)]).
Proof.
  intros Hocc Hfuel Hkey. unfold handleTractorMovement.
  rewrite Hocc, Hkey. cbn [negb].
  replace (Qleb (fuel (ent_extra tractor)) 0) with true; [reflexivity |].
  symmetry. apply Qle_bool_iff. lra.
Qed.

Lemma handleTractorMovement_burn keys tractor :
  v_isInVehicle (ent_extra tractor) = true ->
  (0 < fuel (ent_extra tractor))%Q ->
  isMovingKey keys = true ->
  fuel (ent_extra (handleTractorMovement keys tractor).1) =
  Math_max 0 (fuel (ent_extra tractor) - fuelConsumption (ent_extra tractor)) /\
  (handleTractorMovement keys tractor).2 = [].
Proof.
  intros Hocc Hfuel Hkey. unfold handleTractorMovement.
  rewrite Hocc, Hkey. cbn [negb].
  replace (Qleb (fuel (ent_extra tractor)) 0) with false.
  2:{ symmetry. unfold Qleb. destruct (Qle_bool _ 0) eqn:E; [| reflexivity].
      apply Qle_bool_iff in E. lra. }
  cbn [andb]. unfold isMovingKey in Hkey.
  destruct (key_a keys || key_arrowleft keys) eqn:El; [cbn; auto |].
  destruct (key_d keys || key_arrowright keys) eqn:Er; [cbn; auto |].
  exfalso. cbn [orb] in Hkey. congruence.
Qed.

End TractorFacts.

(** ** Entering and leaving a vehicle *)

Section VehicleFacts.
Implicit Types (p : Player) (v tractor combineHarvester : Vehicle).

Lemma closerVehicle_step p (seen : list Vehicle) (best : option (Vehicle * Q)) v :
  closestSoFar p seen best -> closestSoFar p (seen ++ [v]) (closerVehicle p best v).
Proof.
  unfold closestSoFar, closerVehicle, nearestInRange, inEnterRange.
  destruct best as [[b m2] |].
  - intros (-> & Hin & Hrange & Hmin).
    qbool;
      (split; [reflexivity |]; split;
       [apply in_or_app; first [left; assumption | right; left; reflexivity] |];
       split; [assumption |];
       intros u Hu; apply in_app_or in Hu;
       destruct Hu as [Hu | [<- | []]]; [pose proof (Hmin u Hu) |]; lra).
  - intros Hnone. cbn [andb].
    qbool.
    + intros u Hu. apply in_app_or in Hu.
      destruct Hu as [Hu | [<- | []]]; [apply Hnone; exact Hu | lra].
    + split; [reflexivity |]. split; [apply in_or_app; right; left; reflexivity |].
      split; [assumption |]. intros u Hu. apply in_app_or in Hu.
      destruct Hu as [Hu | [<- | []]]; [pose proof (Hnone u Hu) |]; lra.
Qed.

Lemma closestVehicle_fold p (vehicles seen : list Vehicle) (best : option (Vehicle * Q)) :
  closestSoFar p seen best ->
  closestSoFar p (seen ++ vehicles) (fold_left (closerVehicle p) vehicles best).
Proof.
  revert seen best. induction vehicles as [| v vehicles IH]; intros seen best Hbest.
  - rewrite app_nil_r. exact Hbest.
  - cbn [fold_left].
    replace (seen ++ v :: vehicles) with ((seen ++ [v]) ++ vehicles)
      by (rewrite <- app_assoc; reflexivity).
    apply IH. apply closerVehicle_step. exact Hbest.
Qed.

(** The search returns the nearest vehicle within range, and nothing only
    when no vehicle is within range. *)
Lemma closestVehicle_spec p (vehicles : list Vehicle) :
  match closestVehicle p vehicles with
  | Some v => nearestInRange p vehicles v
  | None => forall u, In u vehicles -> ~ inEnterRange p u
  end.
Proof.
  unfold closestVehicle.
  pose proof (closestVehicle_fold p vehicles [] None) as H.
  cbn [app] in H.
  destruct (fold_left (closerVehicle p) vehicles None) as [[b m2] |]; cbn [option_map fst].
  - apply H. intros u [].
  - apply H. intros u [].
Qed.




Lemma handleEnterExitVehicle_enter p tractor combineHarvester v :
  isInVehicle p = false ->
  closestVehicle p [tractor; combineHarvester] = Some v ->
  handleEnterExitVehicle p tractor combineHarvester =
  (set_y (set_x (setPlayerInVehicle p true) (ent_x v + ent_width v / 2))
         (ent_y v + ent_height v / 2),
   (markVehicle v true tractor combineHarvester).1,
   (markVehicle v true tractor combineHarvester).2,
   [(("Entered " ++ capitalize (vehicleName (v_type (ent_extra v))))%string, 1500)]).
Proof.
  intros Hfoot Hsome. unfold handleEnterExitVehicle. rewrite Hfoot, Hsome.
  destruct (markVehicle v true tractor combineHarvester). reflexivity.
Qed.

Lemma handleEnterExitVehicle_exit p tractor combineHarvester v :
  isInVehicle p = true ->
  currentVehicle tractor combineHarvester = Some v ->
  handleEnterExitVehicle p tractor combineHarvester =
  (mkEntity (ent_x v + ent_width v / 2 - ent_width p / 2)
            (inject_Z groundLevelY - ent_height p)
            (ent_width p) (ent_height p) 0 0 false
            (ent_extra (setPlayerInVehicle p false)),
   (markVehicle v false tractor combineHarvester).1,
   (markVehicle v false tractor combineHarvester).2,
   [(("Exited " ++ capitalize (vehicleName (v_type (ent_extra v))))%string, 1500)]).
Proof.
  intros Hin Hcur. unfold handleEnterExitVehicle. rewrite Hin, Hcur.
  destruct (markVehicle v false tractor combineHarvester). reflexivity.
Qed.

End VehicleFacts.

(** ** Out-of-bounds targets *)

Section BoundsFacts.
Implicit Types (world : World) (player : Player).



Lemma pairs_fst {A B : Type} (l : list A) (b : B) :
  fst <$> ((fun a => (a, b)) <$> l) = l.
Proof. induction l as [| a l IH]; cbn; [reflexivity | rewrite IH; reflexivity]. Qed.

Lemma pairs_snd_nil {A B : Type} (l : list A) :
  concat (snd <$> ((fun a => (a, @nil B)) <$> l)) = [].
Proof. induction l as [| a l IH]; cbn; [reflexivity | exact IH]. Qed.



(** On a grid the resolver reads no tile outside it: it never raises. *)
Lemma updateEntityPosition_total {X : Type} (e : Physics.Entity X) world (widthTiles : Z) :
  is_grid widthTiles world ->
  exists e', Physics.updateEntityPosition e world widthTiles = Ok e'.
Proof.
  intros Hgrid. eexists. apply PhysicsFacts.updateEntityPosition_spec. exact Hgrid.
Qed.

End BoundsFacts.

(* ================================================================== *)
(** * The claims *)
(* ================================================================== *)

(** C1.  Tile well-formedness is an invariant: in the world made by
    [generateWorld], and in every world that tilling, planting, harvesting,
    the plow, seeder and combine actions and crop growth make of it, every
    tile has a crop only when its type is CropPlanted or CropGrown, and a
    CropGrown tile carries a crop at stage Mature. *)
Theorem C1_tile_well_formedness (world : World) :
  reachable world -> allTiles tileWellFormed world.
Proof.
  intros Hreach. apply reachable_inv in Hreach. destruct Hreach as [_ Hall].
  eapply allTiles_impl; [apply tileInv_wellFormed | exact Hall].
Qed.

Lemma C1_witness :
  allTiles tileWellFormed (handleTillSoil generateWorld initialPlayer).1.1.
Proof.
  apply C1_tile_well_formedness.
  apply (reach_till generateWorld initialPlayer _
           (handleTillSoil generateWorld initialPlayer).1.2
           (handleTillSoil generateWorld initialPlayer).2).
  - apply reach_generate.
  - vm_compute. reflexivity.
Defined.

(** C2.  For a tile of a well-formed world that has a crop and type
    CropPlanted, one growth tick at time [now] ends, raises the stage by
    exactly one if and only if [now - plantedTime >= GROWTH_TIME_PER_STAGE *
    (stage + 1)] and leaves the tile as it is otherwise, makes the type
    CropGrown exactly when the new stage is Mature, and over any further
    ticks the stage never decreases. *)
Theorem C2_crop_growth_tick (world : World) (now y x : Z) (tile : Tile) (c : Crop) :
  worldInv world ->
  getTile world y x = Ok tile ->
  crop tile = Some c ->
  type tile = CROP_PLANTED ->
  exists world' tile' c',
    updateCropGrowth now world = Ok world' /\
    getTile world' y x = Ok tile' /\
    crop tile' = Some c' /\
    crop_type c' = crop_type c /\ plantedTime c' = plantedTime c /\
    (stage c' = stage c + 1 <->
     GROWTH_TIME_PER_STAGE * (stage c + 1) <= now - plantedTime c) /\
    (now - plantedTime c < GROWTH_TIME_PER_STAGE * (stage c + 1) -> tile' = tile) /\
    (type tile' = CROP_GROWN <-> stage c' = MATURE) /\
    (type tile' = CROP_GROWN \/ type tile' = CROP_PLANTED) /\
    forall times : list Z,
      exists world'' tile'' c'',
        growthTicks (now :: times) world = Ok world'' /\
        getTile world'' y x = Ok tile'' /\
        crop tile'' = Some c'' /\
        stage c <= stage c' <= stage c''.
Proof.
  intros [Hshape Hall] Ht Hc Hty.
  destruct (updateCropGrowth_spec now world Hshape) as (world' & Hrun & Hshape' & Hget).
  pose proof (getTile_allTiles tileInv world y x tile Hall Ht) as Hinv.
  unfold tileInv in Hinv. rewrite Hc in Hinv.
  destruct Hinv as [[_ Hstage] | [Hg _]]; [| congruence].
  unfold SEED, MATURE in Hstage.
  assert (Hticks : forall c1, crop (growTile now tile) = Some c1 ->
            forall times : list Z,
              exists world'' tile'' c'',
                growthTicks (now :: times) world = Ok world'' /\
                getTile world'' y x = Ok tile'' /\ crop tile'' = Some c'' /\
                stage c1 <= stage c'').
  { intros c1 Hc1 times. cbn [growthTicks]. rewrite Hrun.
    destruct (growthTicks_monotone times world' Hshape') as (w2 & Hrest & Hmono).
    destruct (Hmono y x _ c1 (Hget y x tile Ht) Hc1) as (t2 & c2 & Ht2 & Hc2 & Hle).
    exists w2, t2, c2. auto. }
  destruct (Z_lt_le_dec (now - plantedTime c) (GROWTH_TIME_PER_STAGE * (stage c + 1)))
    as [Hwait | Hgo].
  - pose proof (growTile_wait now tile c Hc Hwait) as Hsame.
    exists world', tile, c. rewrite <- Hsame at 1.
    split; [exact Hrun |]. split; [apply Hget; exact Ht |].
    split; [exact Hc |]. split; [reflexivity |]. split; [reflexivity |].
    split; [split; lia |]. split; [reflexivity |].
    split; [rewrite Hty; unfold MATURE; split; [discriminate | lia] |].
    split; [right; exact Hty |].
    intros times. rewrite <- Hsame in Hc.
    destruct (Hticks c Hc times) as (w2 & t2 & c2 & H1 & H2 & H3 & H4).
    exists w2, t2, c2. repeat split; try assumption; lia.
  - pose proof (growTile_advance now tile c Hc Hty Hgo) as Hgrown.
    exists world', (growTile now tile),
           (mkCrop (crop_type c) (stage c + 1) (plantedTime c)).
    split; [exact Hrun |]. split; [apply Hget; exact Ht |].
    rewrite Hgrown. cbn [crop type crop_type plantedTime stage].
    split; [reflexivity |]. split; [reflexivity |]. split; [reflexivity |].
    split; [split; [intros _; exact Hgo | reflexivity] |].
    split; [intros Hlt; lia |].
    unfold MATURE.
    split; [destruct (Z.geb_spec (stage c + 1) 2); split; intros Hx;
            try reflexivity; try discriminate; lia |].
    split; [destruct (stage c + 1 >=? 2); auto |].
    intros times.
    assert (Hc1 : crop (growTile now tile)
                  = Some (mkCrop (crop_type c) (stage c + 1) (plantedTime c)))
      by (rewrite Hgrown; reflexivity).
    destruct (Hticks _ Hc1 times) as (w2 & t2 & c2 & H1 & H2 & H3 & H4).
    cbn [stage] in H4.
    exists w2, t2, c2. repeat split; try assumption; lia.
Qed.

Lemma sownField_inv : worldInv sownField.
Proof.
  unfold sownField. apply worldInv_setTile; [apply generateWorld_inv | apply planted_inv].
Qed.

Lemma C2_witness :
  exists world' tile' c',
    updateCropGrowth 5000 sownField = Ok world' /\
    getTile world' 22 37 = Ok tile' /\
    crop tile' = Some c' /\
    crop_type c' = WHEAT /\ plantedTime c' = 0 /\
    (stage c' = 0 + 1 <-> GROWTH_TIME_PER_STAGE * (0 + 1) <= 5000 - 0) /\
    (5000 - 0 < GROWTH_TIME_PER_STAGE * (0 + 1) ->
     tile' = mkTile CROP_PLANTED (Some (mkCrop WHEAT SEED 0))) /\
    (type tile' = CROP_GROWN <-> stage c' = MATURE) /\
    (type tile' = CROP_GROWN \/ type tile' = CROP_PLANTED) /\
    forall times : list Z,
      exists world'' tile'' c'',
        growthTicks (5000 :: times) sownField = Ok world'' /\
        getTile world'' 22 37 = Ok tile'' /\
        crop tile'' = Some c'' /\
        0 <= stage c' <= stage c''.
Proof.
  apply (C2_crop_growth_tick sownField 5000 22 37
           (mkTile CROP_PLANTED (Some (mkCrop WHEAT SEED 0))) (mkCrop WHEAT SEED 0)).
  - apply sownField_inv.
  - vm_compute. reflexivity.
  - reflexivity.
  - reflexivity.
Defined.

(** C3, as the specification words it, fails: the player of the start of
    the session, standing on the grass, has after the first tick's fall of
    half a pixel a box that overlaps the grass tile below it with [vy > 0]
    and the bottom edge within the tile's vertical span; the worded tick
    lands the player, the program's tick does not visit that tile and
    leaves the player in the air. *)
Lemma C3_counterexample :
  ~ (forall (e : Player) (world : World) (widthTiles : Z),
       is_grid widthTiles world ->
       Physics.updateEntityPosition e world widthTiles
       = Ok (Physics.physicsTickWorded e world widthTiles)).
Proof.
  intros Hclaim.
  pose proof (Hclaim initialPlayer generateWorld WORLD_WIDTH_TILES
                (proj2 (proj1 generateWorld_inv))) as Hrun.
  rewrite (PhysicsFacts.updateEntityPosition_spec initialPlayer generateWorld
             WORLD_WIDTH_TILES (proj2 (proj1 generateWorld_inv))) in Hrun.
  apply (f_equal (fun r => match r with
                           | Ok e => Physics.ent_onGround e
                           | TypeError => false
                           end)) in Hrun.
  vm_compute in Hrun. discriminate.
Qed.

(** C3.  One physics tick of an entity against a world grid adds gravity to
    [vy], then [vy] to [y] and [vx] to [x], clamps [x] into
    [[0, WORLD_WIDTH_PIXELS - width]], and then visits the tiles of the
    rectangle from [floor (x / 20)], [floor (y / 20)] to
    [floor ((x + width - 1) / 20)], [floor ((y + height - 1) / 20)] from top
    to bottom and left to right, resolving against each solid tile of it
    that the box overlaps by the precedence: landing on top when [vy > 0]
    and the bottom edge is within the tile's vertical span, else pushed
    below when [vy < 0], else pushed left when [vx > 0], else pushed right
    when [vx < 0]: the resolver computes exactly [physicsTickSpec]. *)
Theorem C3_physics_tick {X : Type} (e : Physics.Entity X) (world : World) (widthTiles : Z) :
  is_grid widthTiles world ->
  Physics.updateEntityPosition e world widthTiles
  = Ok (Physics.physicsTickSpec e world widthTiles) /\
  ((Physics.ent_width e <= inject_Z WORLD_WIDTH_PIXELS)%Q ->
   (0 <= Physics.ent_x (Physics.clampSpec (Physics.integrateSpec e)) /\
    Physics.ent_x (Physics.clampSpec (Physics.integrateSpec e))
    <= inject_Z WORLD_WIDTH_PIXELS - Physics.ent_width e)%Q).
Proof.
  intros Hgrid. split.
  - apply PhysicsFacts.updateEntityPosition_spec. exact Hgrid.
  - intros Hw. apply (PhysicsFacts.clampSpec_range (Physics.integrateSpec e)). exact Hw.
Qed.

(** The second tick after the start: the box is a pixel and a half into the
    grass, the grass tiles are in the rectangle, and the player lands. *)
Lemma C3_witness :
  (Physics.updateEntityPosition sinkingPlayer generateWorld WORLD_WIDTH_TILES
   = Ok (Physics.physicsTickSpec sinkingPlayer generateWorld WORLD_WIDTH_TILES) /\
   (0 <= Physics.ent_x (Physics.clampSpec (Physics.integrateSpec sinkingPlayer)) /\
    Physics.ent_x (Physics.clampSpec (Physics.integrateSpec sinkingPlayer))
    <= inject_Z WORLD_WIDTH_PIXELS - Physics.ent_width sinkingPlayer)%Q) /\
  Physics.ent_onGround (Physics.physicsTickSpec sinkingPlayer generateWorld WORLD_WIDTH_TILES)
  = true /\
  (Physics.ent_y (Physics.physicsTickSpec sinkingPlayer generateWorld WORLD_WIDTH_TILES)
   == Physics.ent_y initialPlayer)%Q.
Proof.
  split.
  - destruct (C3_physics_tick sinkingPlayer generateWorld WORLD_WIDTH_TILES)
      as [Hrun Hclamp].
    + apply generateWorld_inv.
    + split; [exact Hrun |]. apply Hclamp. vm_compute. discriminate.
  - split; vm_compute; reflexivity.
Defined.

(** C4.  When no crop count of the player is above [maxStorage], neither a
    manual harvest nor one pass of the combine harvester leaves a crop count
    above [maxStorage]: the manual harvest credits a single unit and only
    when the count was strictly below the limit, and a count the combine
    raises ends within the limit. *)
Theorem C4_storage_cap (world : World) (player : Player) (combineHarvester : Vehicle) :
  withinStorage player ->
  (forall world' player' shown,
     handleHarvestCrop world player = Ok (world', player', shown) ->
     withinStorage player' /\
     forall kind,
       cropCount (inventory (ent_extra player')) kind
       = cropCount (inventory (ent_extra player)) kind \/
       (cropCount (inventory (ent_extra player)) kind < maxStorage (ent_extra player) /\
        cropCount (inventory (ent_extra player')) kind
        = cropCount (inventory (ent_extra player)) kind + 1)) /\
  (forall world' player' shown,
     applyCombineAction combineHarvester world player = Ok (world', player', shown) ->
     withinStorage player' /\
     forall kind,
       cropCount (inventory (ent_extra player')) kind
       = cropCount (inventory (ent_extra player)) kind \/
       (cropCount (inventory (ent_extra player)) kind
        < cropCount (inventory (ent_extra player')) kind /\
        cropCount (inventory (ent_extra player')) kind <= maxStorage (ent_extra player))).
Proof.
  intros Hwithin. split.
  - intros world' player' shown Hrun.
    destruct (handleHarvestCrop_credit world player world' player' shown Hrun) as [Hmax Hk].
    split; [| exact Hk].
    intros kind. rewrite Hmax. specialize (Hk kind). specialize (Hwithin kind).
    destruct Hk as [-> | [Hlt ->]]; lia.
  - intros world' player' shown Hrun.
    destruct (applyCombineAction_credit combineHarvester world player world' player' shown Hrun)
      as [Hmax Hk].
    split; [| exact Hk].
    intros kind. rewrite Hmax. specialize (Hk kind). specialize (Hwithin kind).
    destruct Hk as [-> | [_ Hle]]; lia.
Qed.

Lemma initialPlayer_withinStorage : withinStorage initialPlayer.
Proof. intros kind. destruct kind; vm_compute; discriminate. Qed.

(** The storage tests at work: a player with 99 wheat and room for 100
    harvests the ripe wheat underfoot and holds 100; the combine, with the
    same player, cuts the first of two ripe tiles, credits one unit, and
    stops at the second with the storage full. *)
Lemma C4_witness :
  (exists world' player' shown,
     handleHarvestCrop ripeField nearlyFullPlayer = Ok (world', player', shown) /\
     withinStorage player' /\
     cropCount (inventory (ent_extra player')) WHEAT = 100 /\
     getTile world' (targetTileY nearlyFullPlayer) (targetTileX nearlyFullPlayer)
     = Ok (mkTile TILLED None)) /\
  (exists world' player' shown,
     applyCombineAction cuttingCombine ripeField nearlyFullPlayer
     = Ok (world', player', shown) /\
     withinStorage player' /\
     cropCount (inventory (ent_extra player')) WHEAT = 100 /\
     getTile world' 22 90 = Ok (mkTile TILLED None) /\
     getTile world' 22 91 = Ok (mkTile CROP_GROWN (Some (mkCrop WHEAT MATURE 0))) /\
     shown = [("Storage full! Cannot harvest more."%string, 1500);
              ("Harvested with combine!"%string, 1500)]).
Proof.
  destruct (C4_storage_cap ripeField nearlyFullPlayer cuttingCombine) as [Hmanual Hcombine].
  { intros kind. destruct kind; vm_compute; discriminate. }
  split.
  - eexists _, _, _. split; [vm_compute; reflexivity |].
    split; [eapply Hmanual; vm_compute; reflexivity |].
    split; vm_compute; reflexivity.
  - eexists _, _, _. split; [vm_compute; reflexivity |].
    split; [eapply Hcombine; vm_compute; reflexivity |].
    split; [vm_compute; reflexivity |]. split; [vm_compute; reflexivity |].
    split; vm_compute; reflexivity.
Defined.

(** C5, as the specification words it, fails: a player seated in a vehicle
    who asks to plant on a grass tile gets no status message. *)
Lemma C5_counterexample :
  ~ (forall (world : World) (player : Player) (selected : CropType) (now : Z),
       worldShape world -> rejectsCleanly world player selected now).
Proof.
  intros Hclaim.
  destruct (Hclaim generateWorld ridingPlayer WHEAT 0 (proj1 generateWorld_inv)
              (mkTile GRASS None)) as [Hplant _].
  - vm_compute. reflexivity.
  - destruct Hplant as [message Hrun].
    + intros (Ht & _). discriminate Ht.
    + rewrite handlePlantCrop_riding in Hrun by reflexivity.
      apply (f_equal (fun r => match r with
                               | Ok (_, _, shown) => length shown
                               | TypeError => 0%nat
                               end)) in Hrun.
      cbv beta iota in Hrun. discriminate Hrun.
Qed.

(** C5, amended.  For a player on foot: manual planting changes world or
    player only on a tile with type Tilled, no crop and a positive seed
    count of the selected kind, manual harvesting only on a tile with type
    CropGrown and a crop at stage Mature; and on a tile that fails the
    precondition the request leaves world and player unchanged and shows
    one status message.  For a player seated in a vehicle both requests
    leave world and player unchanged and show nothing. *)
Theorem C5_manual_preconditions (world : World) (player : Player) (selected : CropType)
  (now : Z) :
  worldShape world ->
  (isInVehicle player = false ->
   rejectsCleanly world player selected now /\
   succeedsOnlyWhenAllowed world player selected now) /\
  (isInVehicle player = true ->
   handlePlantCrop world player selected now = Ok (world, player, []) /\
   handleHarvestCrop world player = Ok (world, player, [])).
Proof.
  intros Hshape. split.
  - intros Hfoot. split.
    + intros tile Ht. split; intros Hno.
      * apply (handlePlantCrop_rejects world player selected now tile); assumption.
      * apply (handleHarvestCrop_rejects world player tile); assumption.
    + split.
      * intros world' player' shown. apply handlePlantCrop_success.
      * intros world' player' shown. apply handleHarvestCrop_success.
  - intros Hride. split.
    + apply handlePlantCrop_riding. exact Hride.
    + apply handleHarvestCrop_riding. exact Hride.
Qed.

Lemma C5_witness :
  (rejectsCleanly generateWorld initialPlayer WHEAT 0 /\
   succeedsOnlyWhenAllowed generateWorld initialPlayer WHEAT 0) /\
  (handlePlantCrop generateWorld ridingPlayer WHEAT 0
   = Ok (generateWorld, ridingPlayer, []) /\
   handleHarvestCrop generateWorld ridingPlayer = Ok (generateWorld, ridingPlayer, [])).
Proof.
  split.
  - apply (C5_manual_preconditions generateWorld initialPlayer WHEAT 0).
    + apply generateWorld_inv.
    + reflexivity.
  - apply (C5_manual_preconditions generateWorld ridingPlayer WHEAT 0).
    + apply generateWorld_inv.
    + reflexivity.
Defined.







(** C7.  For an occupied tractor and a pressed left or right key: with no
    fuel the handler sets [vx] to 0, shows the out-of-fuel message and
    leaves the fuel (and everything else) as it is; with fuel it takes
    [fuelConsumption] from the fuel and floors the result at zero. *)
Theorem C7_tractor_fuel (keys : Keys) (tractor : Vehicle) :
  v_isInVehicle (ent_extra tractor) = true ->
  isMovingKey keys = true ->
  ((fuel (ent_extra tractor) == 0)%Q ->
   handleTractorMovement keys tractor
   = (Physics.set_vx tractor 0, [("Tractor out of fuel!"%string, 1000)]) /\
   Physics.ent_vx (handleTractorMovement keys tractor).1 = 0%Q /\
   fuel (ent_extra (handleTractorMovement keys tractor).1) = fuel (ent_extra tractor)) /\
  ((0 < fuel (ent_extra tractor))%Q ->
   fuel (ent_extra (handleTractorMovement keys tractor).1)
   = Math_max 0 (fuel (ent_extra tractor) - fuelConsumption (ent_extra tractor)) /\
   (0 <= fuel (ent_extra (handleTractorMovement keys tractor).1))%Q /\
   ((fuelConsumption (ent_extra tractor) <= fuel (ent_extra tractor))%Q ->
    (fuel (ent_extra (handleTractorMovement keys tractor).1)
     == fuel (ent_extra tractor) - fuelConsumption (ent_extra tractor))%Q)).
Proof.
  intros Hocc Hkey. split.
  - intros Hdry. rewrite (handleTractorMovement_dry keys tractor Hocc Hdry Hkey).
    repeat split.
  - intros Hfuel.
    destruct (handleTractorMovement_burn keys tractor Hocc Hfuel Hkey) as [-> _].
    split; [reflexivity |]. split; [apply Math_max_floor |].
    intros Hle. apply Math_max_id. lra.
Qed.

Lemma C7_witness :
  (handleTractorMovement keysRight dryTractor
   = (Physics.set_vx dryTractor 0, [("Tractor out of fuel!"%string, 1000)]) /\
   Physics.ent_vx (handleTractorMovement keysRight dryTractor).1 = 0%Q /\
   fuel (ent_extra (handleTractorMovement keysRight dryTractor).1)
   = fuel (ent_extra dryTractor)) /\
  (fuel (ent_extra (handleTractorMovement keysRight
                      (setVehicleOccupied initialTractor true)).1)
   = Math_max 0 (100 - (5 # 100)) /\
   (0 <= fuel (ent_extra (handleTractorMovement keysRight
                            (setVehicleOccupied initialTractor true)).1))%Q /\
   (fuel (ent_extra (handleTractorMovement keysRight
                       (setVehicleOccupied initialTractor true)).1)
    == 100 - (5 # 100))%Q).
Proof.
  split.
  - apply (C7_tractor_fuel keysRight dryTractor); reflexivity.
  - destruct (C7_tractor_fuel keysRight (setVehicleOccupied initialTractor true))
      as [_ Hburn]; [reflexivity | reflexivity |].
    destruct Hburn as (H1 & H2 & H3); [reflexivity |].
    split; [exact H1 |]. split; [exact H2 |]. apply H3. vm_compute. discriminate.
Defined.



(** C9.  For every time in [[0, 24)] the ambient light factor lies in
    [[0.1, 1]] and it is 1 at midday; at every breakpoint of
    [getAmbientLightFactor] and of [getSkyColor] the values of the segment
    that ends there tend, from below, to the value with which the next
    segment starts. *)
Theorem C9_celestial_continuity :
  (forall t : Q, (0 <= t)%Q -> (t < 24)%Q ->
     ((1 # 10) <= Celestial.getAmbientLightFactor t /\
      Celestial.getAmbientLightFactor t <= 1)%Q) /\
  Celestial.getAmbientLightFactor 12 = 1%Q /\
  (forall b, In b Celestial.lightBreakpoints -> Celestial.light_limit_below b) /\
  (forall b, In b Celestial.skyBreakpoints ->
     Celestial.sky_limit_below Celestial.skyColors b).
Proof.
  split; [| split; [| split]].
  - intros t _ _. apply CelestialFacts.light_range.
  - apply CelestialFacts.light_midday.
  - apply CelestialFacts.light_limits_below.
  - apply CelestialFacts.sky_limits_below.
Qed.

Lemma C9_witness :
  ((1 # 10) <= Celestial.getAmbientLightFactor 6 /\
   Celestial.getAmbientLightFactor 6 <= 1)%Q /\
  Celestial.light_limit_below 7 /\
  Celestial.sky_limit_below Celestial.skyColors 9.
Proof.
  destruct C9_celestial_continuity as (Hrange & _ & Hlight & Hsky).
  split; [| split].
  - apply Hrange; vm_compute; discriminate || reflexivity.
  - apply Hlight. vm_compute. tauto.
  - apply Hsky. vm_compute. tauto.
Defined.

(** C10.  The resolver changes at most [x], [y], [vx], [vy] and
    [onGround]: in whatever entity it returns, [width], [height] and all the
    remaining fields of the object (speed, fuel, facing, occupancy flags,
    inventory, money, equipment, ...) are those of the input; and on a grid
    it does return an entity. *)
Theorem C10_physics_frame {X : Type} (e : Physics.Entity X) (world : World) (widthTiles : Z) :
  (forall e', Physics.updateEntityPosition e world widthTiles = Ok e' ->
     Physics.sameFrame e e') /\
  (is_grid widthTiles world ->
   exists e', Physics.updateEntityPosition e world widthTiles = Ok e' /\
              Physics.sameFrame e e').
Proof.
  split.
  - intros e'. apply PhysicsFacts.updateEntityPosition_frame.
  - intros Hgrid.
    destruct (updateEntityPosition_total e world widthTiles Hgrid) as [e' He'].
    exists e'. split; [exact He' |].
    eapply PhysicsFacts.updateEntityPosition_frame. exact He'.
Qed.

Lemma C10_witness :
  exists e', Physics.updateEntityPosition initialTractor generateWorld WORLD_WIDTH_TILES = Ok e' /\
             Physics.sameFrame initialTractor e'.
Proof.
  apply (C10_physics_frame initialTractor generateWorld WORLD_WIDTH_TILES).
  apply generateWorld_inv.
Defined.

(** ** Worked examples *)

(** The player of the start of the session stands on the grass.  The first
    tick lets it sink half a pixel without touching a solid tile; the
    second one reaches the top grass row, which pushes it back up. *)
Example player_lands :
  match Physics.updateEntityPosition initialPlayer generateWorld WORLD_WIDTH_TILES with
  | Ok e1 =>
      Qeq_bool (Physics.ent_y e1) (809 # 2) && negb (Physics.ent_onGround e1) &&
      match Physics.updateEntityPosition e1 generateWorld WORLD_WIDTH_TILES with
      | Ok e2 => Qeq_bool (Physics.ent_y e2) 404 && Qeq_bool (Physics.ent_vy e2) 0 &&
                 Physics.ent_onGround e2 && Qeq_bool (Physics.ent_x e2) 750
      | TypeError => false
      end
  | TypeError => false
  end = true.
Proof. vm_compute. reflexivity. Qed.

(** Tilling under the player turns the grass tile (22, 37) into tilled
    soil and shows one message. *)
Example till_under_player :
  getTile (handleTillSoil generateWorld initialPlayer).1.1 22 37 = Ok (mkTile TILLED None) /\
  (handleTillSoil generateWorld initialPlayer).2 = [("Tilled soil"%string, 1000)].
Proof. split; vm_compute; reflexivity. Qed.

(** Planting on grass is refused with a message. *)
Example plant_on_grass :
  handlePlantCrop generateWorld initialPlayer WHEAT 0
  = Ok (generateWorld, initialPlayer, [("Needs tilled soil!"%string, 1000)]).
Proof. vm_compute. reflexivity. Qed.

(** Wheat sown at time 0 is young after the tick at 5 s and grown after the
    tick at 10 s; a single late tick at 15 s advances one stage only. *)
Example wheat_grows :
  match growthTicks [5000; 10000] sownField with
  | Ok w => getTile w 22 37
  | TypeError => TypeError
  end = Ok (mkTile CROP_GROWN (Some (mkCrop WHEAT MATURE 0))) /\
  match growthTicks [15000] sownField with
  | Ok w => getTile w 22 37
  | TypeError => TypeError
  end = Ok (mkTile CROP_PLANTED (Some (mkCrop WHEAT YOUNG 0))).
Proof. split; vm_compute; reflexivity. Qed.

(** A tractor with fuel driving right burns 0.05 of it. *)
Example tractor_drives :
  let t := (handleTractorMovement keysRight occupiedTractor).1 in
  Qeq_bool (fuel (ent_extra t)) (9995 # 100) && Qeq_bool (Physics.ent_vx t) (25 # 10) = true.
Proof. vm_compute. reflexivity. Qed.

(* ================================================================== *)
(** * Further properties *)
(* ================================================================== *)

(** Decide the integer comparisons of the goal, [<=?] included. *)
Ltac zlbool :=
  repeat match goal with
  | |- context [?a <? ?b] => destruct (Z.ltb_spec a b)
  | |- context [?a <=? ?b] => destruct (Z.leb_spec a b)
  | |- context [?a =? ?b] => destruct (Z.eqb_spec a b)
  end;
  cbn [andb orb]; try reflexivity; try lia.

(** ** Point updates of the grid *)

Section PointFacts.

(** A callback that changes, and reports on, the element at one index only
    amounts to an update at that index. *)
Lemma imap_point {A M : Type} (g : nat -> A -> A * list M) (l : list A) (i : nat) (a : A) :
  l !! i = Some a ->
  (forall j b, j <> i -> g j b = (b, [])) ->
  fst <$> imap g l = <[i := (g i a).1]> l /\
  concat (snd <$> imap g l) = (g i a).2.
Proof.
  revert g i. induction l as [| b l IH]; intros g i Hi Hother; [discriminate |].
  rewrite imap_cons. cbn [fmap list_fmap concat].
  destruct i as [| i].
  - cbn in Hi. injection Hi as ->. cbn [insert list_insert].
    assert (Hrest : imap (g ∘ S) l = (fun b => (b, [])) <$> l).
    { rewrite <- imap_const. apply imap_ext. intros j b0 _. cbn. apply Hother. lia. }
    rewrite Hrest. change (list_fmap _ _ fst ?x) with (fst <$> x).
    change (list_fmap _ _ snd ?x) with (snd <$> x).
    rewrite pairs_fst, pairs_snd_nil, app_nil_r. split; reflexivity.
  - cbn in Hi. cbn [insert list_insert].
    destruct (IH (g ∘ S) i Hi) as [H1 H2].
    { intros j b0 Hj. cbn. apply Hother. lia. }
    rewrite (Hother 0%nat b) by lia. cbn [fst snd app].
    change (list_fmap _ _ fst ?x) with (fst <$> x).
    change (list_fmap _ _ snd ?x) with (snd <$> x).
    rewrite H1, H2. split; reflexivity.
Qed.

(** [world.map] with a callback that acts at one tile of the grid is the
    write of that tile. *)
Lemma mapTiles_point (f : Z -> Z -> Tile -> Tile * list Status) (world : World)
  (ty tx : Z) (tile : Tile) (h : Tile -> Tile) (message : Tile -> list Status) :
  getTile world ty tx = Ok tile ->
  (forall y x t, f y x t = if (x =? tx) && (y =? ty) then (h t, message t) else (t, [])) ->
  mapTiles f world = (setTile world ty tx (h tile), message tile).
Proof.
  intros Ht Hf. apply getTile_Ok in Ht. destruct Ht as (Hy & Hx & row & Hrow & Htile).
  unfold mapTiles, setTile.
  replace ((ty <? 0) || (tx <? 0)) with false by (symmetry; zbool).
  rewrite Hrow.
  set (g := fun (y : nat) (r : list Tile) =>
              (fst <$> imap (fun (x : nat) t => f (Z.of_nat y) (Z.of_nat x) t) r,
               concat (snd <$> imap (fun (x : nat) t => f (Z.of_nat y) (Z.of_nat x) t) r))).
  destruct (imap_point g world (Z.to_nat ty) row Hrow) as [H1 H2].
  { intros j r Hj. unfold g.
    assert (Hcells : imap (fun (x : nat) t => f (Z.of_nat j) (Z.of_nat x) t) r
                     = (fun t => (t, [])) <$> r).
    { rewrite <- imap_const. apply imap_ext. intros x t _. rewrite Hf.
      replace (Z.of_nat j =? ty) with false by (symmetry; apply Z.eqb_neq; lia).
      rewrite andb_false_r. reflexivity. }
    rewrite Hcells, pairs_fst, pairs_snd_nil. reflexivity. }
  destruct (imap_point (fun (x : nat) t => f ty (Z.of_nat x) t) row (Z.to_nat tx) tile Htile)
    as [H3 H4].
  { intros j t Hj. rewrite Hf.
    replace (Z.of_nat j =? tx) with false by (symmetry; apply Z.eqb_neq; lia).
    reflexivity. }
  assert (Hg : g (Z.to_nat ty) row = (<[Z.to_nat tx := h tile]> row, message tile)).
  { unfold g. rewrite !Z2Nat.id by assumption. rewrite H3, H4, Hf, !Z2Nat.id by assumption.
    rewrite !Z.eqb_refl. reflexivity. }
  cbv zeta. fold g. rewrite H1, H2, Hg. reflexivity.
Qed.

End PointFacts.

(** ** Tilling, planting and harvesting by hand *)

Section ManualEffects.
Implicit Types (world : World) (player : Player) (tile : Tile).

Lemma onlyTileChanged_setTile world (ty tx : Z) tile old :
  getTile world ty tx = Ok old -> onlyTileChanged world (setTile world ty tx tile) ty tx.
Proof.
  intros Hold y x Hne. rewrite (getTile_setTile world ty tx y x tile old Hold).
  destruct (Z.eqb_spec y ty); destruct (Z.eqb_spec x tx); cbn [andb]; try reflexivity.
  exfalso. destruct Hne; contradiction.
Qed.

Lemma getTile_setTile_same world (ty tx : Z) tile old :
  getTile world ty tx = Ok old -> getTile (setTile world ty tx tile) ty tx = Ok tile.
Proof.
  intros Hold. rewrite (getTile_setTile world ty tx ty tx tile old Hold).
  rewrite !Z.eqb_refl. reflexivity.
Qed.

Lemma handleTillSoil_tills world player tile :
  worldShape world -> isInVehicle player = false ->
  getTile world (targetTileY player) (targetTileX player) = Ok tile ->
  isGrassOrDirt (type tile) = true ->
  handleTillSoil world player =
  (setTile world (targetTileY player) (targetTileX player) (mkTile TILLED (crop tile)),
   player, [("Tilled soil"%string, 1000)]).
Proof.
  intros Hshape Hfoot Ht Hg.
  destruct (manual_guards world player tile Hshape Ht) as [G1 G2].
  unfold handleTillSoil. rewrite Hfoot, G1, G2.
  rewrite (mapTiles_point _ world _ _ tile
             (fun t => if isGrassOrDirt (type t) then mkTile TILLED (crop t) else t)
             (fun t => if isGrassOrDirt (type t) then [("Tilled soil"%string, 1000)] else [])
             Ht).
  - rewrite Hg. reflexivity.
  - intros y x t. destruct ((x =? targetTileX player) && (y =? targetTileY player));
      cbn [andb]; destruct (isGrassOrDirt (type t)); reflexivity.
Qed.

Lemma handlePlantCrop_plants world player (selected : CropType) (now : Z) tile :
  worldShape world -> isInVehicle player = false ->
  getTile world (targetTileY player) (targetTileX player) = Ok tile ->
  plantable tile player selected ->
  handlePlantCrop world player selected now =
  Ok (setTile world (targetTileY player) (targetTileX player)
              (mkTile CROP_PLANTED (Some (mkCrop selected SEED now))),
      setInventory player
        (setSeedCount (inventory (ent_extra player)) selected
           (seedCount (inventory (ent_extra player)) selected - 1)),
      [((capitalize (cropName selected) ++ " planted!")%string, 1500)]).
Proof.
  intros Hshape Hfoot Ht (Hty & Hcrop & Hseeds).
  destruct (manual_guards world player tile Hshape Ht) as [G1 G2].
  unfold handlePlantCrop. rewrite Hfoot, G1, G2, Ht.
  replace (TileType_eqb (type tile) TILLED) with true
    by (symmetry; apply TileType_eqb_eq; exact Hty).
  replace (hasCrop tile) with false by (unfold hasCrop; rewrite Hcrop; reflexivity).
  replace (seedCount (inventory (ent_extra player)) selected >? 0) with true
    by (symmetry; apply Z.gtb_lt; exact Hseeds).
  cbn [andb negb].
  rewrite (mapTiles_point _ world _ _ tile
             (fun _ => mkTile CROP_PLANTED (Some (mkCrop selected SEED now)))
             (fun _ => [((capitalize (cropName selected) ++ " planted!")%string, 1500)])
             Ht).
  - reflexivity.
  - intros y x t. reflexivity.
Qed.

Lemma handleHarvestCrop_harvests world player tile c :
  worldShape world -> isInVehicle player = false ->
  getTile world (targetTileY player) (targetTileX player) = Ok tile ->
  matureCrop tile = Some c ->
  cropCount (inventory (ent_extra player)) (crop_type c) < maxStorage (ent_extra player) ->
  handleHarvestCrop world player =
  Ok (setTile world (targetTileY player) (targetTileX player) (mkTile TILLED None),
      setInventory player
        (setCropCount (inventory (ent_extra player)) (crop_type c)
           (cropCount (inventory (ent_extra player)) (crop_type c) + 1)),
      [(("Harvested " ++ capitalize (cropName (crop_type c)) ++ "!")%string, 1500)]).
Proof.
  intros Hshape Hfoot Ht Hm Hroom.
  destruct (manual_guards world player tile Hshape Ht) as [G1 G2].
  unfold handleHarvestCrop. rewrite Hfoot, G1, G2, Ht, Hm.
  replace (cropCount (inventory (ent_extra player)) (crop_type c)
           <? maxStorage (ent_extra player)) with true
    by (symmetry; apply Z.ltb_lt; exact Hroom).
  rewrite (mapTiles_point _ world _ _ tile
             (fun _ => mkTile TILLED None)
             (fun _ => [(("Harvested " ++ capitalize (cropName (crop_type c)) ++ "!")%string,
                         1500)])
             Ht).
  - reflexivity.
  - intros y x t. reflexivity.
Qed.

Lemma handleHarvestCrop_full world player tile c :
  worldShape world -> isInVehicle player = false ->
  getTile world (targetTileY player) (targetTileX player) = Ok tile ->
  matureCrop tile = Some c ->
  maxStorage (ent_extra player) <= cropCount (inventory (ent_extra player)) (crop_type c) ->
  handleHarvestCrop world player =
  Ok (world, player, [("Storage full! Sell crops to make space."%string, 1500)]).
Proof.
  intros Hshape Hfoot Ht Hm Hfull.
  destruct (manual_guards world player tile Hshape Ht) as [G1 G2].
  unfold handleHarvestCrop. rewrite Hfoot, G1, G2, Ht, Hm.
  replace (cropCount (inventory (ent_extra player)) (crop_type c)
           <? maxStorage (ent_extra player)) with false
    by (symmetry; apply Z.ltb_ge; exact Hfull).
  reflexivity.
Qed.

Lemma seedCount_set (inv : Inventory) (k k' : CropType) (v : Z) :
  seedCount (setSeedCount inv k v) k' = if decide (k = k') then v else seedCount inv k'.
Proof. destruct k, k'; reflexivity. Qed.

Lemma cropCount_set_seed (inv : Inventory) (k k' : CropType) (v : Z) :
  cropCount (setSeedCount inv k v) k' = cropCount inv k'.
Proof. destruct k, k'; reflexivity. Qed.

Lemma sameButSeeds_set (inv : Inventory) (k : CropType) (v : Z) :
  sameButSeeds inv (setSeedCount inv k v) k.
Proof.
  split.
  - intros k' Hne. rewrite seedCount_set. destruct (decide (k = k')); congruence.
  - intros k'. apply cropCount_set_seed.
Qed.

Lemma sameButCrop_set (inv : Inventory) (k : CropType) (v : Z) :
  sameButCrop inv (setCropCount inv k v) k.
Proof.
  split.
  - intros k'. apply seedCount_set_crop.
  - intros k' Hne. rewrite cropCount_set. destruct (decide (k = k')); congruence.
Qed.

End ManualEffects.

(** ** Growth over several ticks *)

Section TicksFacts.
Implicit Types (world : World) (tile : Tile) (times : list Z).

(** Ticks apply the growth rule to every tile, once per tick, in order. *)
Lemma growthTicks_spec times world :
  worldShape world ->
  exists world',
    growthTicks times world = Ok world' /\
    worldShape world' /\
    forall y x tile, getTile world y x = Ok tile ->
      getTile world' y x = Ok (fold_left (fun t now => growTile now t) times tile).
Proof.
  revert world. induction times as [| now rest IH]; intros world Hshape; cbn [growthTicks].
  - exists world. auto.
  - destruct (updateCropGrowth_spec now world Hshape) as (w1 & Hrun & Hsh1 & Hget).
    rewrite Hrun. destruct (IH w1 Hsh1) as (w2 & Hrest & Hsh2 & Hget2).
    exists w2. split; [exact Hrest |]. split; [exact Hsh2 |].
    intros y x tile Ht. cbn [fold_left]. apply Hget2. apply Hget. exact Ht.
Qed.

Lemma growTile_other (now : Z) tile :
  type tile <> CROP_PLANTED -> growTile now tile = tile.
Proof.
  intros Hty. unfold growTile. destruct (crop tile) as [c |]; [| reflexivity].
  destruct (TileType_eqb (type tile) CROP_PLANTED) eqn:E; [| reflexivity].
  apply TileType_eqb_eq in E. contradiction.
Qed.

Lemma growTiles_other times tile :
  type tile <> CROP_PLANTED -> fold_left (fun t now => growTile now t) times tile = tile.
Proof.
  intros Hty. induction times as [| now rest IH]; cbn [fold_left]; [reflexivity |].
  rewrite growTile_other by exact Hty. exact IH.
Qed.

(** A planted crop below stage [m] stays planted and below stage [m] under
    ticks that all come before [m] growth periods have passed. *)
Lemma growTiles_early times tile c (m : Z) :
  crop tile = Some c -> type tile = CROP_PLANTED ->
  stage c < m -> m <= MATURE ->
  Forall (fun now => now - plantedTime c < GROWTH_TIME_PER_STAGE * m) times ->
  exists c',
    crop (fold_left (fun t now => growTile now t) times tile) = Some c' /\
    type (fold_left (fun t now => growTile now t) times tile) = CROP_PLANTED /\
    crop_type c' = crop_type c /\ plantedTime c' = plantedTime c /\
    stage c <= stage c' < m.
Proof.
  intros Hc Hty Hs Hm Htimes. revert tile c Hc Hty Hs Htimes.
  induction times as [| now rest IH]; intros tile c Hc Hty Hs Htimes; cbn [fold_left].
  - exists c. repeat split; auto; lia.
  - inversion Htimes as [| ? ? Hnow Hrest]; subst.
    destruct (Z_lt_le_dec (now - plantedTime c) (GROWTH_TIME_PER_STAGE * (stage c + 1)))
      as [Hwait | Hgo].
    + rewrite (growTile_wait now tile c Hc Hwait). apply IH; assumption.
    + assert (Hnext : stage c + 1 < m) by (unfold GROWTH_TIME_PER_STAGE in *; lia).
      rewrite (growTile_advance now tile c Hc Hty Hgo).
      replace (stage c + 1 >=? MATURE) with false
        by (symmetry; rewrite Z.geb_leb; apply Z.leb_gt; lia).
      destruct (IH (mkTile CROP_PLANTED
                      (Some (mkCrop (crop_type c) (stage c + 1) (plantedTime c))))
                   (mkCrop (crop_type c) (stage c + 1) (plantedTime c)))
        as (c' & H1 & H2 & H3 & H4 & H5); try reflexivity.
      * cbn [stage]. exact Hnext.
      * cbn [plantedTime]. exact Hrest.
      * exists c'. cbn [crop_type plantedTime stage] in *. repeat split; auto; lia.
Qed.

End TicksFacts.

(** ** The plow *)

Section PlowFacts.
Implicit Types (world : World) (tile : Tile) (tractor : Vehicle) (plow : Attachment).

(** The column the plow reaches in run [i] of its loop. *)
Lemma plow_column (x : Q) (i : Z) :
  Math_floor ((x + inject_Z (i * TILE_SIZE)) / inject_Z TILE_SIZE)
  = Math_floor (x / inject_Z TILE_SIZE) + i.
Proof.
  unfold Math_floor. change (inject_Z TILE_SIZE) with 20%Q.
  pose proof (Qfloor_le (x / 20)) as Hlo.
  pose proof (Qlt_floor (x / 20)) as Hhi.
  rewrite inject_Z_plus in Hhi. change (inject_Z 1) with 1%Q in Hhi.
  apply Qfloor_unique; rewrite inject_Z_plus, inject_Z_mult;
    change (inject_Z TILE_SIZE) with 20%Q;
    set (c := inject_Z (Qfloor (x / 20))) in *; set (k := inject_Z i);
    qdiv; lra.
Qed.

Lemma plowable_tilled tile : plowable (mkTile TILLED (crop tile)) = false.
Proof. reflexivity. Qed.

Lemma plowStep_spec plow world0 (i : Z) world :
  worldShape world0 -> 0 <= implementRow plow -> 0 <= i ->
  plowedUpTo plow world0 i world ->
  exists world',
    plowStep plow (implementRow plow) i world = Next world' /\
    plowedUpTo plow world0 (i + 1) world'.
Proof.
  intros Hshape0 Hrow Hi [Hshape Hget]. unfold plowStep.
  rewrite plow_column. fold (implementColumn plow). unfold plowedUpTo.
  generalize dependent (implementRow plow). intros row Hrow Hget.
  generalize dependent (implementColumn plow). intros c0 Hget.
  destruct ((row <? WORLD_HEIGHT_TILES) && (0 <=? c0 + i) &&
            (c0 + i <? WORLD_WIDTH_TILES)) eqn:G.
  - apply andb_true_iff in G. destruct G as [G G3].
    apply andb_true_iff in G. destruct G as [G1 G2].
    apply Z.ltb_lt in G1, G3. apply Z.leb_le in G2.
    destruct (getTile_total world0 row (c0 + i) Hshape0) as [t0 Ht0]; [lia | lia |].
    pose proof (Hget row (c0 + i) t0 Ht0) as Hcur.
    replace ((row =? row) && (c0 <=? c0 + i) && (c0 + i <? c0 + i) && plowable t0)
      with false in Hcur by (symmetry; zlbool).
    rewrite Hcur. fold (plowable t0).
    destruct (plowable t0) eqn:Ep.
    + eexists. split; [reflexivity |]. split; [apply setTile_shape; exact Hshape |].
      intros y x t Ht. rewrite (getTile_setTile world row (c0 + i) y x _ t0 Hcur).
      rewrite (Hget y x t Ht).
      destruct (Z.eqb_spec y row) as [-> |]; [destruct (Z.eqb_spec x (c0 + i)) as [-> |] |];
        cbn [andb].
      * assert (t = t0) by congruence. subst t. rewrite Ep. f_equal; zlbool.
      * f_equal; zlbool.
      * f_equal; zlbool.
    + exists world. split; [reflexivity |]. split; [exact Hshape |].
      intros y x t Ht. rewrite (Hget y x t Ht).
      destruct (Z.eqb_spec y row) as [-> |]; [destruct (Z.eqb_spec x (c0 + i)) as [-> |] |];
        cbn [andb].
      * assert (t = t0) by congruence. subst t. rewrite Ep, !andb_false_r. reflexivity.
      * f_equal; zlbool.
      * f_equal; zlbool.
  - exists world. split; [reflexivity |]. split; [exact Hshape |].
    intros y x t Ht. rewrite (Hget y x t Ht).
    destruct (getTile_bounds world0 y x t Hshape0 Ht) as [Hy Hx].
    apply andb_false_iff in G. rewrite andb_false_iff in G.
    rewrite Z.ltb_ge, Z.leb_gt, Z.ltb_ge in G.
    f_equal; zlbool.
Qed.

(** The active plow tills exactly the grass and dirt without a crop under
    its footprint. *)
Lemma applyPlowAction_spec tractor plow world :
  worldShape world -> implementIdle tractor Plow = false -> 0 <= implementRow plow ->
  exists world',
    applyPlowAction tractor plow world = Ok world' /\
    worldShape world' /\
    forall y x tile, getTile world y x = Ok tile ->
      getTile world' y x = Ok (plowedTile plow y x tile).
Proof.
  intros Hshape Hactive Hrow. unfold applyPlowAction. rewrite Hactive.
  replace (Z.of_nat (length world) =? 0) with false
    by (destruct Hshape as [-> _]; reflexivity).
  fold (implementRow plow). unfold forZ.
  destruct (for_range_invariant (plowedUpTo plow world)
              (plowStep plow (implementRow plow))
              (Z.to_nat (footprint plow - 0)) 0 world) as (world' & Hrun & Hshape' & Hget).
  - split; [exact Hshape |]. intros y x t Ht. rewrite Ht. f_equal; zlbool.
  - intros i w Hi Hw. apply plowStep_spec; [assumption | assumption | lia | assumption].
  - exists world'. split; [exact Hrun |]. split; [exact Hshape' |].
    intros y x t Ht. rewrite (Hget y x t Ht). unfold plowedTile, underImplement.
    destruct (plowable t); [| rewrite !andb_false_r; reflexivity].
    rewrite !andb_true_r.
    destruct (Z_le_gt_dec 0 (footprint plow)) as [Hfp | Hfp].
    + rewrite Z.sub_0_r, Z2Nat.id by exact Hfp. reflexivity.
    + replace (Z.to_nat (footprint plow - 0)) with 0%nat by lia.
      f_equal; zlbool.
Qed.

(** Two grids of the generated shape with the same tiles are the same. *)
Lemma world_ext world world' :
  worldShape world -> worldShape world' ->
  (forall y x tile, getTile world y x = Ok tile -> getTile world' y x = Ok tile) ->
  world = world'.
Proof.
  intros [Hlen Hgrid] [Hlen' Hgrid'] Hsame.
  unfold is_grid in *. rewrite Forall_lookup in Hgrid, Hgrid'.
  apply list_eq. intros i.
  destruct (world !! i) as [row |] eqn:Er.
  - pose proof (lookup_lt_Some _ _ _ Er) as Hi.
    destruct (lookup_lt_is_Some_2 world' i) as [row' Er']; [lia |].
    rewrite Er'. f_equal. apply list_eq. intros j.
    pose proof (Hgrid _ _ Er) as Hw. pose proof (Hgrid' _ _ Er') as Hw'.
    destruct (row !! j) as [t |] eqn:Et.
    + assert (Hget : getTile world (Z.of_nat i) (Z.of_nat j) = Ok t).
      { apply getTile_Ok. split; [lia |]. split; [lia |].
        exists row. rewrite !Nat2Z.id. auto. }
      apply Hsame in Hget. apply getTile_Ok in Hget.
      destruct Hget as (_ & _ & r2 & Hr2 & Ht2). rewrite !Nat2Z.id in *.
      assert (r2 = row') by congruence. subst r2. symmetry. exact Ht2.
    + symmetry. apply lookup_ge_None. apply lookup_ge_None in Et. lia.
  - symmetry. apply lookup_ge_None. apply lookup_ge_None in Er. lia.
Qed.

End PlowFacts.

(** ** The seeder and the combine harvester *)

Section ImplementFacts.
Implicit Types (world : World) (tile : Tile).

Lemma changedOnly_refl (before : Tile -> bool) (after : Tile) (row : Z) world :
  worldShape world -> changedOnly before after row world world.
Proof. intros Hshape. split; [exact Hshape |]. intros y x tile Ht. left. exact Ht. Qed.

(** Writing [after] over a tile that satisfies [before] keeps the relation
    to the world the loop started from. *)
Lemma changedOnly_write (before : Tile -> bool) (after : Tile) (row : Z) world0 world
  (x : Z) tile :
  before after = false ->
  changedOnly before after row world0 world ->
  getTile world row x = Ok tile -> before tile = true ->
  changedOnly before after row world0 (setTile world row x after).
Proof.
  intros Hafter [Hshape Hrel] Hcur Hbefore. split; [apply setTile_shape; exact Hshape |].
  intros y x0 t0 Ht0. rewrite (getTile_setTile world row x y x0 after tile Hcur).
  destruct (Z.eqb_spec y row) as [-> |]; [destruct (Z.eqb_spec x0 x) as [-> |] |];
    cbn [andb]; try (apply Hrel; exact Ht0).
  right. split; [reflexivity |]. split; [| reflexivity].
  destruct (Hrel row x t0 Ht0) as [Hsame | (_ & _ & Hnew)].
  - assert (t0 = tile) by congruence. subst t0. exact Hbefore.
  - assert (tile = after) by congruence. subst tile. congruence.
Qed.

Lemma seederStep_changedOnly (seeder : Attachment) (player : Player) (selected : CropType)
  (now i : Z) world0 (st st' : SeederState) :
  changedOnly sowable (mkTile CROP_PLANTED (Some (mkCrop selected SEED now)))
              (implementRow seeder) world0 st.1.1 ->
  seederStep seeder (implementRow seeder) player selected now i st = Next st' \/
  seederStep seeder (implementRow seeder) player selected now i st = Break st' ->
  changedOnly sowable (mkTile CROP_PLANTED (Some (mkCrop selected SEED now)))
              (implementRow seeder) world0 st'.1.1.
Proof.
  destruct st as [[world consumed] shown]. cbn [fst]. intros Hrel.
  unfold seederStep. set (seederX := Math_floor _).
  destruct ((implementRow seeder <? WORLD_HEIGHT_TILES) && (0 <=? seederX) &&
            (seederX <? WORLD_WIDTH_TILES)).
  - destruct (getTile world (implementRow seeder) seederX) as [tile |] eqn:Et.
    + fold (sowable tile). destruct (sowable tile) eqn:Es.
      * destruct (seedCount (inventory (ent_extra player)) selected - consumed >? 0);
          intros [H | H]; try discriminate; injection H as <-; cbn [fst]; [| exact Hrel].
        eapply changedOnly_write; [reflexivity | exact Hrel | exact Et | exact Es].
      * intros [H | H]; try discriminate. injection H as <-. exact Hrel.
    + intros [H | H]; discriminate.
  - intros [H | H]; try discriminate. injection H as <-. exact Hrel.
Qed.

Lemma seederStep_consumed (seeder : Attachment) (seederY : Z) (player : Player)
  (selected : CropType) (now i : Z) (st st' : SeederState) :
  consumedWithin player selected st ->
  seederStep seeder seederY player selected now i st = Next st' \/
  seederStep seeder seederY player selected now i st = Break st' ->
  consumedWithin player selected st'.
Proof.
  destruct st as [[world consumed] shown]. unfold consumedWithin. cbn [fst snd].
  intros Hinv. unfold seederStep. set (seederX := Math_floor _).
  destruct ((seederY <? WORLD_HEIGHT_TILES) && (0 <=? seederX) &&
            (seederX <? WORLD_WIDTH_TILES)).
  - destruct (getTile world seederY seederX) as [tile |].
    + destruct (TileType_eqb (type tile) TILLED && negb (hasCrop tile)).
      * destruct (seedCount (inventory (ent_extra player)) selected - consumed >? 0) eqn:E;
          intros [H | H]; try discriminate; injection H as <-; cbn [fst snd];
          [| exact Hinv].
        apply Z.gtb_lt in E. lia.
      * intros [H | H]; try discriminate. injection H as <-. exact Hinv.
    + intros [H | H]; discriminate.
  - intros [H | H]; try discriminate. injection H as <-. exact Hinv.
Qed.

(** What a seeder pass that ends does to world and player. *)
Lemma applySeederAction_spec (tractor : Vehicle) (seeder : Attachment) world
  (player : Player) (selected : CropType) (now : Z) world' player' shown :
  worldShape world ->
  applySeederAction tractor seeder world player selected now = Ok (world', player', shown) ->
  changedOnly sowable (mkTile CROP_PLANTED (Some (mkCrop selected SEED now)))
              (implementRow seeder) world world' /\
  exists consumed,
    0 <= consumed /\
    (consumed = 0 \/ consumed <= seedCount (inventory (ent_extra player)) selected) /\
    (consumed = 0 -> player' = player) /\
    player' = (if consumed >? 0
               then setInventory player
                      (setSeedCount (inventory (ent_extra player)) selected
                         (seedCount (inventory (ent_extra player)) selected - consumed))
               else player).
Proof.
  intros Hshape. unfold applySeederAction.
  destruct (implementIdle tractor Seeder).
  { intros H. injection H as <- <- _. split; [apply changedOnly_refl; exact Hshape |].
    exists 0. repeat split; auto; lia. }
  destruct (Z.of_nat (length world) =? 0).
  { intros H. injection H as <- <- _. split; [apply changedOnly_refl; exact Hshape |].
    exists 0. repeat split; auto; lia. }
  fold (implementRow seeder).
  destruct (forZ _ _ _ _) as [[[nw consumed] sh] |] eqn:Eloop; [| discriminate].
  unfold forZ in Eloop.
  assert (Hrel : changedOnly sowable (mkTile CROP_PLANTED (Some (mkCrop selected SEED now)))
                   (implementRow seeder) world (nw, consumed, sh).1.1).
  { eapply (for_range_preserve
              (fun st : SeederState =>
                 changedOnly sowable (mkTile CROP_PLANTED (Some (mkCrop selected SEED now)))
                             (implementRow seeder) world st.1.1)); [| | exact Eloop].
    - apply changedOnly_refl. exact Hshape.
    - intros j s0 s1 Hs0. apply seederStep_changedOnly. exact Hs0. }
  assert (Hcons : consumedWithin player selected (nw, consumed, sh)).
  { eapply (for_range_preserve (consumedWithin player selected)); [| | exact Eloop].
    - unfold consumedWithin. cbn. lia.
    - intros j s0 s1 Hs0. apply seederStep_consumed. exact Hs0. }
  unfold consumedWithin in Hcons. cbn [fst snd] in Hrel, Hcons.
  intros H. split.
  - destruct (consumed >? 0); injection H as <- _ _; exact Hrel.
  - exists consumed. split; [apply Hcons |]. split; [apply Hcons |].
    destruct (consumed >? 0) eqn:E; injection H as _ <- _.
    + split; [| reflexivity]. intros ->. discriminate.
    + split; reflexivity.
Qed.

Lemma combineStep_changedOnly (combineY : Z) (player : Player) (x : Z) world0
  (st st' : CombineState) :
  changedOnly ripe (mkTile TILLED None)
              combineY world0 st.1.1 ->
  combineStep combineY player x st = Next st' \/ combineStep combineY player x st = Break st' ->
  changedOnly ripe (mkTile TILLED None)
              combineY world0 st'.1.1.
Proof.
  destruct st as [[world harvested] shown]. cbn [fst]. intros Hrel.
  unfold combineStep.
  destruct ((combineY <? WORLD_HEIGHT_TILES) && (0 <=? x) && (x <? WORLD_WIDTH_TILES)).
  - destruct (getTile world combineY x) as [tile |] eqn:Et.
    + destruct (matureCrop tile) as [c |] eqn:Em.
      * destruct (cropCount (inventory (ent_extra player)) (crop_type c)
                  + harvestedOf harvested (crop_type c) <? maxStorage (ent_extra player));
          intros [H | H]; try discriminate; injection H as <-; cbn [fst]; [| exact Hrel].
        eapply changedOnly_write; [reflexivity | exact Hrel | exact Et |].
        unfold ripe. rewrite Em. reflexivity.
      * intros [H | H]; try discriminate. injection H as <-. exact Hrel.
    + intros [H | H]; discriminate.
  - intros [H | H]; try discriminate. injection H as <-. exact Hrel.
Qed.

End ImplementFacts.

(** ** Counting tiles, and loops that always end *)

Section CountFacts.
Implicit Types (world : World) (tile : Tile) (P : Tile -> bool).

Lemma countRow_insert P (row : list Tile) (i : nat) old tile :
  row !! i = Some old ->
  countRow P (<[i := tile]> row) = countRow P row - Z.b2z (P old) + Z.b2z (P tile).
Proof.
  revert i. induction row as [| a row IH]; intros [| i] H; try discriminate.
  - injection H as ->. unfold countRow. cbn [insert list_insert List.filter].
    destruct (P old), (P tile); cbn [length Z.b2z]; lia.
  - specialize (IH i H). unfold countRow in *.
    change (<[S i := tile]> (a :: row)) with (a :: <[i := tile]> row).
    cbn [List.filter]. destruct (P a); cbn [length]; lia.
Qed.

Lemma countTiles_insert P world (i : nat) (row row' : list Tile) :
  world !! i = Some row ->
  countTiles P (<[i := row']> world) = countTiles P world - countRow P row + countRow P row'.
Proof.
  revert i. induction world as [| a world IH]; intros [| i] H; try discriminate.
  - injection H as ->. unfold countTiles. cbn [insert list_insert fmap list_fmap fold_right].
    lia.
  - specialize (IH i H). unfold countTiles in *.
    change (<[S i := row']> (a :: world)) with (a :: <[i := row']> world).
    cbn [fmap list_fmap fold_right] in *. lia.
Qed.

Lemma countTiles_setTile P world (y x : Z) tile old :
  getTile world y x = Ok old ->
  countTiles P (setTile world y x tile) = countTiles P world - Z.b2z (P old) + Z.b2z (P tile).
Proof.
  intros H. apply getTile_Ok in H. destruct H as (Hy & Hx & row & Hrow & Hold).
  unfold setTile.
  replace ((y <? 0) || (x <? 0)) with false
    by (symmetry; apply orb_false_iff; split; apply Z.ltb_ge; assumption).
  rewrite Hrow.
  rewrite (countTiles_insert P world (Z.to_nat y) row _ Hrow).
  rewrite (countRow_insert P row (Z.to_nat x) old tile Hold). lia.
Qed.

Lemma countRow_nonneg P (row : list Tile) : 0 <= countRow P row.
Proof. unfold countRow. lia. Qed.

Lemma countTiles_nonneg P world : 0 <= countTiles P world.
Proof.
  unfold countTiles. induction world as [| a world IH]; cbn [fmap list_fmap fold_right].
  - lia.
  - pose proof (countRow_nonneg P a). cbn [fmap list_fmap] in IH. lia.
Qed.

End CountFacts.

Section LoopTotal.
Context {S : Type}.

(** A loop whose body neither raises nor leaves [P] ends in a state in
    [P]. *)
Lemma for_range_total (P : S -> Prop) (body : Z -> S -> step S) (n : nat) (i : Z) (s : S) :
  P s ->
  (forall j s0, P s0 ->
     exists s1, (body j s0 = Next s1 \/ body j s0 = Break s1) /\ P s1) ->
  exists s', for_range n i body s = Ok s' /\ P s'.
Proof.
  intros Hs Hbody. revert i s Hs. induction n as [| n IH]; intros i s Hs; cbn [for_range].
  - exists s. split; [reflexivity | exact Hs].
  - destruct (Hbody i s Hs) as (s1 & [-> | ->] & Hs1).
    + apply IH. exact Hs1.
    + exists s1. split; [reflexivity | exact Hs1].
Qed.

End LoopTotal.

Section ImplementRuns.
Implicit Types (world : World) (tile : Tile) (player : Player).

Lemma seederStep_sown (seeder : Attachment) (seederY : Z) player (selected : CropType)
  (now i : Z) world0 (st st' : SeederState) :
  sownSoFar world0 st ->
  seederStep seeder seederY player selected now i st = Next st' \/
  seederStep seeder seederY player selected now i st = Break st' ->
  sownSoFar world0 st'.
Proof.
  destruct st as [[world consumed] shown]. unfold sownSoFar. cbn [fst snd].
  intros Hinv. unfold seederStep. set (seederX := Math_floor _).
  destruct ((seederY <? WORLD_HEIGHT_TILES) && (0 <=? seederX) &&
            (seederX <? WORLD_WIDTH_TILES)).
  - destruct (getTile world seederY seederX) as [tile |] eqn:Et.
    + fold (sowable tile). destruct (sowable tile) eqn:Es.
      * destruct (seedCount (inventory (ent_extra player)) selected - consumed >? 0);
          intros [H | H]; try discriminate; injection H as <-; cbn [fst snd];
          [| exact Hinv].
        rewrite (countTiles_setTile sowable world seederY seederX _ tile Et).
        rewrite Es. cbn [sowable type crop TileType_eqb andb Z.b2z]. lia.
      * intros [H | H]; try discriminate. injection H as <-. exact Hinv.
    + intros [H | H]; discriminate.
  - intros [H | H]; try discriminate. injection H as <-. exact Hinv.
Qed.

(** On a grid of the generated shape a seeder at or below the top row reads
    only tiles that are there. *)
Lemma seederStep_runs (seeder : Attachment) (seederY : Z) player (selected : CropType)
  (now i : Z) (st : SeederState) :
  0 <= seederY -> worldShape st.1.1 ->
  exists st', seederStep seeder seederY player selected now i st = Next st'.
Proof.
  destruct st as [[world consumed] shown]. cbn [fst]. intros Hrow Hshape.
  unfold seederStep. set (seederX := Math_floor _).
  destruct ((seederY <? WORLD_HEIGHT_TILES) && (0 <=? seederX) &&
            (seederX <? WORLD_WIDTH_TILES)) eqn:Eguard.
  - apply andb_true_iff in Eguard. destruct Eguard as [Eguard E3].
    apply andb_true_iff in Eguard. destruct Eguard as [E1 E2].
    apply Z.ltb_lt in E1, E3. apply Z.leb_le in E2.
    destruct (getTile_total world seederY seederX Hshape) as [tile ->]; [lia | lia |].
    destruct (TileType_eqb (type tile) TILLED && negb (hasCrop tile));
      [destruct (_ >? 0) |]; eexists; reflexivity.
  - eexists; reflexivity.
Qed.

(** A seeder pass on a grid of the generated shape ends; what it leaves. *)
Lemma applySeederAction_run (tractor : Vehicle) (seeder : Attachment) world player
  (selected : CropType) (now : Z) :
  worldShape world -> 0 <= implementRow seeder ->
  exists world' consumed shown,
    applySeederAction tractor seeder world player selected now =
    Ok (world',
        (if consumed >? 0
         then setInventory player
                (setSeedCount (inventory (ent_extra player)) selected
                   (seedCount (inventory (ent_extra player)) selected - consumed))
         else player),
        shown) /\
    changedOnly sowable (mkTile CROP_PLANTED (Some (mkCrop selected SEED now)))
                (implementRow seeder) world world' /\
    0 <= consumed /\
    (consumed = 0 \/ consumed <= seedCount (inventory (ent_extra player)) selected) /\
    countTiles sowable world' + consumed = countTiles sowable world.
Proof.
  intros Hshape Hrow. unfold applySeederAction.
  destruct (implementIdle tractor Seeder).
  { exists world, 0, []. split; [reflexivity |].
    split; [apply changedOnly_refl; exact Hshape |]. repeat split; auto; lia. }
  destruct (Z.of_nat (length world) =? 0).
  { exists world, 0, []. split; [reflexivity |].
    split; [apply changedOnly_refl; exact Hshape |]. repeat split; auto; lia. }
  fold (implementRow seeder). unfold forZ.
  destruct (for_range_total
              (fun st : SeederState =>
                 changedOnly sowable (mkTile CROP_PLANTED (Some (mkCrop selected SEED now)))
                             (implementRow seeder) world st.1.1 /\
                 consumedWithin player selected st /\ sownSoFar world st)
              (seederStep seeder (implementRow seeder) player selected now)
              (Z.to_nat (footprint seeder - 0)) 0 (world, 0, []))
    as ([[nw consumed] sh] & -> & Hrel & Hcons & Hsown).
  - split; [apply changedOnly_refl; exact Hshape |]. split.
    + unfold consumedWithin. cbn. lia.
    + unfold sownSoFar. cbn [fst snd]. lia.
  - intros j s0 (H1 & H2 & H3).
    destruct (seederStep_runs seeder (implementRow seeder) player selected now j s0 Hrow)
      as [s1 Hs1]; [apply H1 |].
    exists s1. split; [left; exact Hs1 |]. split; [| split].
    + eapply seederStep_changedOnly; [exact H1 | left; exact Hs1].
    + eapply seederStep_consumed; [exact H2 | left; exact Hs1].
    + eapply seederStep_sown; [exact H3 | left; exact Hs1].
  - unfold consumedWithin, sownSoFar in *. cbn [fst snd] in *.
    exists nw, consumed, sh. split; [destruct (consumed >? 0); reflexivity |].
    split; [exact Hrel |]. split; [apply Hcons |]. split; [apply Hcons | exact Hsown].
Qed.

Lemma ripeOf_ripe (kind : CropType) tile : ripeOf kind tile = true -> ripe tile = true.
Proof. unfold ripeOf, ripe. destruct (matureCrop tile); [reflexivity | discriminate]. Qed.

Lemma combineStep_cut (combineY : Z) player (x : Z) world0 (st st' : CombineState) :
  cutSoFar world0 st ->
  combineStep combineY player x st = Next st' \/ combineStep combineY player x st = Break st' ->
  cutSoFar world0 st'.
Proof.
  destruct st as [[world harvested] shown]. unfold cutSoFar. cbn [fst snd].
  intros Hinv. unfold combineStep.
  destruct ((combineY <? WORLD_HEIGHT_TILES) && (0 <=? x) && (x <? WORLD_WIDTH_TILES)).
  - destruct (getTile world combineY x) as [tile |] eqn:Et.
    + destruct (matureCrop tile) as [c |] eqn:Em.
      * destruct (cropCount (inventory (ent_extra player)) (crop_type c)
                  + harvestedOf harvested (crop_type c) <? maxStorage (ent_extra player));
          intros [H | H]; try discriminate; injection H as <-; cbn [fst snd];
          [| exact Hinv].
        intros kind. specialize (Hinv kind).
        rewrite (countTiles_setTile (ripeOf kind) world combineY x _ tile Et).
        unfold ripeOf at 2 3. rewrite Em. cbn [matureCrop crop].
        rewrite harvestedOf_bump.
        destruct (decide (crop_type c = kind)) as [Heq | Hne].
        -- rewrite bool_decide_eq_true_2 by exact Heq. cbn [Z.b2z]. lia.
        -- rewrite bool_decide_eq_false_2 by exact Hne. cbn [Z.b2z]. lia.
      * intros [H | H]; try discriminate. injection H as <-. exact Hinv.
    + intros [H | H]; discriminate.
  - intros [H | H]; try discriminate. injection H as <-. exact Hinv.
Qed.

Lemma combineStep_runs (combineY : Z) player (x : Z) (st : CombineState) :
  0 <= combineY -> worldShape st.1.1 ->
  exists st', combineStep combineY player x st = Next st' \/
              combineStep combineY player x st = Break st'.
Proof.
  destruct st as [[world harvested] shown]. cbn [fst]. intros Hrow Hshape.
  unfold combineStep.
  destruct ((combineY <? WORLD_HEIGHT_TILES) && (0 <=? x) && (x <? WORLD_WIDTH_TILES))
    eqn:Eguard.
  - apply andb_true_iff in Eguard. destruct Eguard as [Eguard E3].
    apply andb_true_iff in Eguard. destruct Eguard as [E1 E2].
    apply Z.ltb_lt in E1, E3. apply Z.leb_le in E2.
    destruct (getTile_total world combineY x Hshape) as [tile ->]; [lia | lia |].
    destruct (matureCrop tile); [destruct (_ <? _) |]; eexists; auto.
  - eexists; auto.
Qed.

End ImplementRuns.

Section CombineRuns.
Implicit Types (world : World) (tile : Tile) (player : Player).

(** A combine pass on a grid of the generated shape ends; what it leaves. *)
Lemma applyCombineAction_run (combineHarvester : Vehicle) world player :
  worldShape world -> 0 <= combineRow combineHarvester ->
  exists world' player' shown,
    applyCombineAction combineHarvester world player = Ok (world', player', shown) /\
    changedOnly ripe (mkTile TILLED None) (combineRow combineHarvester) world world' /\
    player' = setInventory player (inventory (ent_extra player')) /\
    (forall kind, seedCount (inventory (ent_extra player')) kind
                  = seedCount (inventory (ent_extra player)) kind) /\
    (forall kind, cropCount (inventory (ent_extra player')) kind
                  - cropCount (inventory (ent_extra player)) kind
                  = countTiles (ripeOf kind) world - countTiles (ripeOf kind) world').
Proof.
  intros Hshape Hrow. unfold applyCombineAction.
  assert (Hsame : player = setInventory player (inventory (ent_extra player))).
  { destruct player as [x y w h vx vy g [s j v f i m ms sb]]. reflexivity. }
  destruct (combineIdle combineHarvester).
  { exists world, player, []. split; [reflexivity |].
    split; [apply changedOnly_refl; exact Hshape |]. split; [exact Hsame |].
    split; intros kind; lia. }
  destruct (Z.of_nat (length world) =? 0).
  { exists world, player, []. split; [reflexivity |].
    split; [apply changedOnly_refl; exact Hshape |]. split; [exact Hsame |].
    split; intros kind; lia. }
  fold (combineRow combineHarvester).
  destruct (headerSpan combineHarvester) as [startX endX]. unfold forZ.
  destruct (for_range_total
              (fun st : CombineState =>
                 changedOnly ripe (mkTile TILLED None) (combineRow combineHarvester)
                             world st.1.1 /\
                 creditedWithin player st /\ cutSoFar world st)
              (combineStep (combineRow combineHarvester) player)
              (Z.to_nat (Z.max startX endX - Z.min startX endX)) (Z.min startX endX)
              (world, mkHarvested 0 0 0, []))
    as ([[nw harvested] sh] & -> & Hrel & Hcred & Hcut).
  - split; [apply changedOnly_refl; exact Hshape |]. split.
    + intros kind. destruct kind; cbn; lia.
    + intros kind. destruct kind; cbn [fst snd harvestedOf h_wheat h_corn h_potato]; lia.
  - intros j s0 (H1 & H2 & H3).
    destruct (combineStep_runs (combineRow combineHarvester) player j s0 Hrow)
      as [s1 Hs1]; [apply H1 |].
    exists s1. split; [exact Hs1 |]. split; [| split].
    + eapply combineStep_changedOnly; [exact H1 | exact Hs1].
    + eapply combineStep_credit; [exact H2 | exact Hs1].
    + eapply combineStep_cut; [exact H3 | exact Hs1].
  - unfold cutSoFar in Hcut. cbn [fst snd] in Hrel, Hcut.
    assert (Hpos : forall kind, 0 <= harvestedOf harvested kind)
      by (intros kind; apply (Hcred kind)).
    destruct ((h_wheat harvested >? 0) || (h_corn harvested >? 0) ||
              (h_potato harvested >? 0)) eqn:Eany.
    + eexists nw, _, _. split; [reflexivity |]. split; [exact Hrel |].
      split; [destruct player as [x y w h vx vy g [s j v f i m ms sb]]; reflexivity |].
      split.
      * intros kind.
        destruct player as [x y w h vx vy g [s j v f [a b c d e f0] m ms sb]].
        destruct kind; reflexivity.
      * intros kind. specialize (Hcut kind).
        destruct player as [x y w h vx vy g [s j v f [a b c d e f0] m ms sb]].
        destruct kind; cbn in *; lia.
    + exists nw, player, sh. split; [reflexivity |]. split; [exact Hrel |].
      split; [exact Hsame |]. split; [reflexivity |].
      apply orb_false_iff in Eany. destruct Eany as [Eany E3].
      apply orb_false_iff in Eany. destruct Eany as [E1 E2].
      pose proof (Hpos WHEAT) as P1. pose proof (Hpos CORN) as P2.
      pose proof (Hpos POTATO) as P3. cbn [harvestedOf] in P1, P2, P3.
      assert (h_wheat harvested = 0) by (destruct (Z.gtb_spec (h_wheat harvested) 0); [discriminate | lia]).
      assert (h_corn harvested = 0) by (destruct (Z.gtb_spec (h_corn harvested) 0); [discriminate | lia]).
      assert (h_potato harvested = 0) by (destruct (Z.gtb_spec (h_potato harvested) 0); [discriminate | lia]).
      intros kind. specialize (Hcut kind). destruct kind; cbn [harvestedOf] in Hcut; lia.
Qed.

End CombineRuns.

(* ================================================================== *)
(** * Further properties: field work *)
(* ================================================================== *)

Section FieldWork.
Implicit Types (world : World) (tile : Tile) (player : Player).

Lemma tilledStrip_shape : worldShape tilledStrip.
Proof. unfold tilledStrip. do 2 apply setTile_shape. apply generateWorld_inv. Qed.

Lemma ripeStrip_shape : worldShape ripeStrip.
Proof. unfold ripeStrip. apply setTile_shape. apply generateWorld_inv. Qed.

Lemma plowedTile_twice (plow : Attachment) (y x : Z) tile :
  plowedTile plow y x (plowedTile plow y x tile) = plowedTile plow y x tile.
Proof.
  unfold plowedTile. destruct (underImplement plow y x); cbn [andb]; [| reflexivity].
  destruct (plowable tile) eqn:E; [| rewrite E; reflexivity].
  unfold plowable. cbn [type crop isGrassOrDirt TileType_eqb orb andb]. reflexivity.
Qed.

(** X1.  On foot, tilling the grass or dirt tile under the player's feet
    turns exactly that tile into tilled soil: the tile keeps its crop field,
    every other place of the grid reads as before, the player is unchanged
    and the message shown is "Tilled soil". *)
Theorem X1_till_effect world player tile :
  worldShape world -> isInVehicle player = false ->
  getTile world (targetTileY player) (targetTileX player) = Ok tile ->
  isGrassOrDirt (type tile) = true ->
  exists world',
    handleTillSoil world player = (world', player, [("Tilled soil"%string, 1000)]) /\
    worldShape world' /\
    getTile world' (targetTileY player) (targetTileX player) = Ok (mkTile TILLED (crop tile)) /\
    onlyTileChanged world world' (targetTileY player) (targetTileX player).
Proof.
  intros Hshape Hfoot Ht Hsoil.
  exists (setTile world (targetTileY player) (targetTileX player) (mkTile TILLED (crop tile))).
  split; [apply handleTillSoil_tills; assumption |].
  split; [apply setTile_shape; exact Hshape |].
  split; [eapply getTile_setTile_same; exact Ht |].
  eapply onlyTileChanged_setTile; exact Ht.
Qed.

Lemma X1_witness :
  exists world',
    handleTillSoil generateWorld initialPlayer
    = (world', initialPlayer, [("Tilled soil"%string, 1000)]) /\
    worldShape world' /\
    getTile world' (targetTileY initialPlayer) (targetTileX initialPlayer)
    = Ok (mkTile TILLED (crop (mkTile GRASS None))) /\
    onlyTileChanged generateWorld world' (targetTileY initialPlayer) (targetTileX initialPlayer).
Proof.
  apply (X1_till_effect generateWorld initialPlayer (mkTile GRASS None)).
  - apply generateWorld_inv.
  - reflexivity.
  - vm_compute. reflexivity.
  - reflexivity.
Defined.

(** X2.  On foot, planting on the tilled, empty tile under the player's
    feet with at least one seed of the selected kind puts a crop of that
    kind there, at stage SEED and planted at the current time, takes exactly
    one seed of that kind, leaves every other inventory count, the money and
    every other place of the grid as they were. *)
Theorem X2_plant_effect world player (selected : CropType) (now : Z) tile :
  worldShape world -> isInVehicle player = false ->
  getTile world (targetTileY player) (targetTileX player) = Ok tile ->
  plantable tile player selected ->
  exists world' player' message,
    handlePlantCrop world player selected now = Ok (world', player', [message]) /\
    getTile world' (targetTileY player) (targetTileX player)
    = Ok (mkTile CROP_PLANTED (Some (mkCrop selected SEED now))) /\
    onlyTileChanged world world' (targetTileY player) (targetTileX player) /\
    player' = setInventory player (inventory (ent_extra player')) /\
    seedCount (inventory (ent_extra player')) selected
    = seedCount (inventory (ent_extra player)) selected - 1 /\
    sameButSeeds (inventory (ent_extra player)) (inventory (ent_extra player')) selected.
Proof.
  intros Hshape Hfoot Ht Hplant.
  eexists _, _, _. split; [eapply handlePlantCrop_plants; eassumption |].
  split; [eapply getTile_setTile_same; exact Ht |].
  split; [eapply onlyTileChanged_setTile; exact Ht |].
  split; [destruct player as [x y w h vx vy g [s j v f i m ms sb]]; reflexivity |].
  split.
  - destruct player as [x y w h vx vy g [s j v f i m ms sb]].
    cbn [setInventory withExtra ent_extra inventory]. rewrite seedCount_set.
    destruct (decide (selected = selected)); [reflexivity | contradiction].
  - destruct player as [x y w h vx vy g [s j v f i m ms sb]].
    cbn [setInventory withExtra ent_extra inventory]. apply sameButSeeds_set.
Qed.

Lemma X2_witness :
  exists world' player' message,
    handlePlantCrop (setTile generateWorld (targetTileY initialPlayer)
                       (targetTileX initialPlayer) (mkTile TILLED None))
                    initialPlayer WHEAT 0 = Ok (world', player', [message]) /\
    getTile world' (targetTileY initialPlayer) (targetTileX initialPlayer)
    = Ok (mkTile CROP_PLANTED (Some (mkCrop WHEAT SEED 0))) /\
    onlyTileChanged (setTile generateWorld (targetTileY initialPlayer)
                       (targetTileX initialPlayer) (mkTile TILLED None))
                    world' (targetTileY initialPlayer) (targetTileX initialPlayer) /\
    player' = setInventory initialPlayer (inventory (ent_extra player')) /\
    seedCount (inventory (ent_extra player')) WHEAT
    = seedCount (inventory (ent_extra initialPlayer)) WHEAT - 1 /\
    sameButSeeds (inventory (ent_extra initialPlayer)) (inventory (ent_extra player')) WHEAT.
Proof.
  apply (X2_plant_effect _ initialPlayer WHEAT 0 (mkTile TILLED None)).
  - apply setTile_shape. apply generateWorld_inv.
  - reflexivity.
  - vm_compute. reflexivity.
  - split; [reflexivity |]. split; [reflexivity |]. vm_compute. reflexivity.
Defined.

(** X3.  On foot, harvesting the mature crop under the player's feet, with
    the count of that kind below the storage limit, leaves tilled soil
    without a crop there, credits exactly one unit of that kind and changes
    no other count and no other place of the grid; with the count at the
    limit the request changes nothing and says that the storage is full. *)
Theorem X3_harvest_effect world player tile c :
  worldShape world -> isInVehicle player = false ->
  getTile world (targetTileY player) (targetTileX player) = Ok tile ->
  matureCrop tile = Some c ->
  (cropCount (inventory (ent_extra player)) (crop_type c) < maxStorage (ent_extra player) ->
   exists world' player' message,
     handleHarvestCrop world player = Ok (world', player', [message]) /\
     getTile world' (targetTileY player) (targetTileX player) = Ok (mkTile TILLED None) /\
     onlyTileChanged world world' (targetTileY player) (targetTileX player) /\
     player' = setInventory player (inventory (ent_extra player')) /\
     cropCount (inventory (ent_extra player')) (crop_type c)
     = cropCount (inventory (ent_extra player)) (crop_type c) + 1 /\
     sameButCrop (inventory (ent_extra player)) (inventory (ent_extra player')) (crop_type c))
  /\
  (maxStorage (ent_extra player) <= cropCount (inventory (ent_extra player)) (crop_type c) ->
   handleHarvestCrop world player =
   Ok (world, player, [("Storage full! Sell crops to make space."%string, 1500)])).
Proof.
  intros Hshape Hfoot Ht Hripe. split.
  - intros Hroom.
    eexists _, _, _. split; [eapply handleHarvestCrop_harvests; eassumption |].
    split; [eapply getTile_setTile_same; exact Ht |].
    split; [eapply onlyTileChanged_setTile; exact Ht |].
    split; [destruct player as [x y w h vx vy g [s j v f i m ms sb]]; reflexivity |].
    split.
    + destruct player as [x y w h vx vy g [s j v f i m ms sb]].
      cbn [setInventory withExtra ent_extra inventory]. rewrite cropCount_set.
      destruct (decide (crop_type c = crop_type c)); [reflexivity | contradiction].
    + destruct player as [x y w h vx vy g [s j v f i m ms sb]].
      cbn [setInventory withExtra ent_extra inventory]. apply sameButCrop_set.
  - intros Hfull. eapply handleHarvestCrop_full; eassumption.
Qed.

Lemma X3_witness :
  exists world' player' message,
    handleHarvestCrop (setTile generateWorld (targetTileY initialPlayer)
                         (targetTileX initialPlayer)
                         (mkTile CROP_GROWN (Some (mkCrop WHEAT MATURE 0))))
                      initialPlayer = Ok (world', player', [message]) /\
    getTile world' (targetTileY initialPlayer) (targetTileX initialPlayer)
    = Ok (mkTile TILLED None) /\
    onlyTileChanged (setTile generateWorld (targetTileY initialPlayer)
                       (targetTileX initialPlayer)
                       (mkTile CROP_GROWN (Some (mkCrop WHEAT MATURE 0))))
                    world' (targetTileY initialPlayer) (targetTileX initialPlayer) /\
    player' = setInventory initialPlayer (inventory (ent_extra player')) /\
    cropCount (inventory (ent_extra player')) WHEAT
    = cropCount (inventory (ent_extra initialPlayer)) WHEAT + 1 /\
    sameButCrop (inventory (ent_extra initialPlayer)) (inventory (ent_extra player')) WHEAT.
Proof.
  destruct (X3_harvest_effect
              (setTile generateWorld (targetTileY initialPlayer) (targetTileX initialPlayer)
                       (mkTile CROP_GROWN (Some (mkCrop WHEAT MATURE 0))))
              initialPlayer (mkTile CROP_GROWN (Some (mkCrop WHEAT MATURE 0)))
              (mkCrop WHEAT MATURE 0)) as [Hroom _].
  - apply setTile_shape. apply generateWorld_inv.
  - reflexivity.
  - vm_compute. reflexivity.
  - reflexivity.
  - apply Hroom. vm_compute. reflexivity.
Defined.

Lemma isInVehicle_setInventory player (inv : Inventory) :
  isInVehicle (setInventory player inv) = isInVehicle player.
Proof. destruct player as [x y w h vx vy g [s j v f i m ms sb]]. reflexivity. Qed.

(** X4.  Till, plant, two growth ticks, harvest: a player who stays on one
    grass or dirt tile, has a seed of the selected kind and room in the
    storage, and gets a first growth tick at least one growth period and a
    second at least two growth periods after planting, ends with one seed
    less and one unit of the crop more, the money unchanged, on a tile that
    is tilled and empty again.  Each of the four handlers succeeds in
    turn. *)
Theorem X4_crop_lifecycle world player (selected : CropType) (now t1 t2 : Z) tile :
  worldShape world -> isInVehicle player = false ->
  getTile world (targetTileY player) (targetTileX player) = Ok tile ->
  isGrassOrDirt (type tile) = true -> crop tile = None ->
  0 < seedCount (inventory (ent_extra player)) selected ->
  cropCount (inventory (ent_extra player)) selected < maxStorage (ent_extra player) ->
  now + GROWTH_TIME_PER_STAGE <= t1 -> now + 2 * GROWTH_TIME_PER_STAGE <= t2 ->
  exists tilled sown grown cut seeded farmer shown1 shown2 shown3,
    handleTillSoil world player = (tilled, player, shown1) /\
    handlePlantCrop tilled player selected now = Ok (sown, seeded, shown2) /\
    growthTicks [t1; t2] sown = Ok grown /\
    handleHarvestCrop grown seeded = Ok (cut, farmer, shown3) /\
    getTile grown (targetTileY player) (targetTileX player)
    = Ok (mkTile CROP_GROWN (Some (mkCrop selected MATURE now))) /\
    getTile cut (targetTileY player) (targetTileX player) = Ok (mkTile TILLED None) /\
    seedCount (inventory (ent_extra farmer)) selected
    = seedCount (inventory (ent_extra player)) selected - 1 /\
    cropCount (inventory (ent_extra farmer)) selected
    = cropCount (inventory (ent_extra player)) selected + 1 /\
    money (ent_extra farmer) = money (ent_extra player).
Proof.
  intros Hshape Hfoot Ht Hsoil Hempty Hseeds Hroom Ht1 Ht2.
  set (ty := targetTileY player) in *. set (tx := targetTileX player) in *.
  (* till *)
  pose proof (handleTillSoil_tills world player tile Hshape Hfoot Ht Hsoil) as Htill.
  fold ty tx in Htill. rewrite Hempty in Htill.
  set (tilled := setTile world ty tx (mkTile TILLED None)) in *.
  assert (Hshape1 : worldShape tilled) by (apply setTile_shape; exact Hshape).
  assert (Hget1 : getTile tilled ty tx = Ok (mkTile TILLED None))
    by (eapply getTile_setTile_same; exact Ht).
  (* plant *)
  pose proof (handlePlantCrop_plants tilled player selected now (mkTile TILLED None)
                Hshape1 Hfoot Hget1) as Hplant.
  fold ty tx in Hplant.
  specialize (Hplant (conj eq_refl (conj eq_refl Hseeds))).
  set (sown := setTile tilled ty tx (mkTile CROP_PLANTED (Some (mkCrop selected SEED now))))
    in *.
  set (seeded := setInventory player _) in *.
  assert (Hshape2 : worldShape sown) by (apply setTile_shape; exact Hshape1).
  assert (Hget2 : getTile sown ty tx
                  = Ok (mkTile CROP_PLANTED (Some (mkCrop selected SEED now))))
    by (eapply getTile_setTile_same; exact Hget1).
  (* grow *)
  destruct (growthTicks_spec [t1; t2] sown Hshape2) as (grown & Hgrow & Hshape3 & Htiles).
  specialize (Htiles ty tx _ Hget2). cbn [fold_left] in Htiles.
  rewrite (growTile_advance t1 (mkTile CROP_PLANTED (Some (mkCrop selected SEED now)))
             (mkCrop selected SEED now) eq_refl eq_refl) in Htiles
    by (cbn [stage plantedTime]; unfold SEED, GROWTH_TIME_PER_STAGE in *; lia).
  cbn [stage crop_type plantedTime] in Htiles.
  change (SEED + 1 >=? MATURE) with false in Htiles. cbv iota in Htiles.
  rewrite (growTile_advance t2 (mkTile CROP_PLANTED (Some (mkCrop selected (SEED + 1) now)))
             (mkCrop selected (SEED + 1) now) eq_refl eq_refl) in Htiles
    by (cbn [stage plantedTime]; unfold SEED, GROWTH_TIME_PER_STAGE in *; lia).
  cbn [stage crop_type plantedTime] in Htiles.
  change (SEED + 1 + 1 >=? MATURE) with true in Htiles. cbv iota in Htiles.
  change (SEED + 1 + 1) with MATURE in Htiles.
  (* harvest *)
  assert (Hfoot' : isInVehicle seeded = false)
    by (unfold seeded; rewrite isInVehicle_setInventory; exact Hfoot).
  assert (Hroom' : cropCount (inventory (ent_extra seeded)) selected
                   < maxStorage (ent_extra seeded)).
  { unfold seeded. destruct player as [x y w h vx vy g [s j v f i m ms sb]].
    cbn [setInventory withExtra ent_extra inventory maxStorage] in *.
    rewrite cropCount_set_seed. exact Hroom. }
  pose proof (handleHarvestCrop_harvests grown seeded
                (mkTile CROP_GROWN (Some (mkCrop selected MATURE now)))
                (mkCrop selected MATURE now) Hshape3 Hfoot') as Hcut.
  change (targetTileY seeded) with ty in Hcut. change (targetTileX seeded) with tx in Hcut.
  specialize (Hcut Htiles eq_refl Hroom'). cbn [crop_type] in Hcut.
  eexists tilled, sown, grown, _, seeded, _, _, _, _.
  split; [exact Htill |]. split; [exact Hplant |]. split; [exact Hgrow |].
  split; [exact Hcut |]. split; [exact Htiles |].
  split; [eapply getTile_setTile_same; exact Htiles |].
  unfold seeded. destruct player as [x y w h vx vy g [s j v f i m ms sb]].
  cbn [setInventory withExtra ent_extra inventory money].
  rewrite seedCount_set_crop, seedCount_set, cropCount_set, cropCount_set_seed.
  destruct (decide (selected = selected)); [| contradiction].
  split; [reflexivity |]. split; reflexivity.
Qed.

Lemma X4_witness :
  exists tilled sown grown cut seeded farmer shown1 shown2 shown3,
    handleTillSoil generateWorld initialPlayer = (tilled, initialPlayer, shown1) /\
    handlePlantCrop tilled initialPlayer CORN 1000 = Ok (sown, seeded, shown2) /\
    growthTicks [6000; 11000] sown = Ok grown /\
    handleHarvestCrop grown seeded = Ok (cut, farmer, shown3) /\
    getTile grown (targetTileY initialPlayer) (targetTileX initialPlayer)
    = Ok (mkTile CROP_GROWN (Some (mkCrop CORN MATURE 1000))) /\
    getTile cut (targetTileY initialPlayer) (targetTileX initialPlayer)
    = Ok (mkTile TILLED None) /\
    seedCount (inventory (ent_extra farmer)) CORN
    = seedCount (inventory (ent_extra initialPlayer)) CORN - 1 /\
    cropCount (inventory (ent_extra farmer)) CORN
    = cropCount (inventory (ent_extra initialPlayer)) CORN + 1 /\
    money (ent_extra farmer) = money (ent_extra initialPlayer).
Proof.
  apply (X4_crop_lifecycle generateWorld initialPlayer CORN 1000 6000 11000
           (mkTile GRASS None)).
  - apply generateWorld_inv.
  - reflexivity.
  - vm_compute. reflexivity.
  - reflexivity.
  - reflexivity.
  - vm_compute. reflexivity.
  - vm_compute. reflexivity.
  - vm_compute. discriminate.
  - vm_compute. discriminate.
Defined.

End FieldWork.

Section GrowthOverTime.
Implicit Types (world : World) (tile : Tile) (times : list Z).

(** X5.  Growth is never early: under any sequence of growth ticks that all
    come before [m] growth periods have passed since planting ([m] at most
    MATURE), a planted crop below stage [m] is still planted, of the same
    kind and planting time, and at a stage below [m] that is not below the
    one it had.  The ticks all end without an error. *)
Theorem X5_no_early_growth times world (y x : Z) tile c (m : Z) :
  worldShape world ->
  getTile world y x = Ok tile -> type tile = CROP_PLANTED -> crop tile = Some c ->
  stage c < m -> m <= MATURE ->
  Forall (fun now => now - plantedTime c < GROWTH_TIME_PER_STAGE * m) times ->
  exists world' c',
    growthTicks times world = Ok world' /\
    getTile world' y x = Ok (mkTile CROP_PLANTED (Some c')) /\
    crop_type c' = crop_type c /\ plantedTime c' = plantedTime c /\
    stage c <= stage c' < m.
Proof.
  intros Hshape Ht Hty Hc Hs Hm Htimes.
  destruct (growthTicks_spec times world Hshape) as (world' & Hrun & _ & Htiles).
  destruct (growTiles_early times tile c m Hc Hty Hs Hm Htimes)
    as (c' & Hc' & Hty' & Hk & Hp & Hst).
  exists world', c'. split; [exact Hrun |]. split; [| auto].
  rewrite (Htiles y x tile Ht). f_equal.
  destruct (fold_left _ times tile) as [ty' cr']. cbn [type crop] in *. congruence.
Qed.

Lemma X5_witness :
  exists world' c',
    growthTicks [100; 4000; 9999] sownField = Ok world' /\
    getTile world' (targetTileY initialPlayer) (targetTileX initialPlayer)
    = Ok (mkTile CROP_PLANTED (Some c')) /\
    crop_type c' = crop_type (mkCrop WHEAT SEED 0) /\
    plantedTime c' = plantedTime (mkCrop WHEAT SEED 0) /\
    stage (mkCrop WHEAT SEED 0) <= stage c' < MATURE.
Proof.
  apply (X5_no_early_growth [100; 4000; 9999] sownField _ _
           (mkTile CROP_PLANTED (Some (mkCrop WHEAT SEED 0))) (mkCrop WHEAT SEED 0) MATURE).
  - apply sownField_inv.
  - vm_compute. reflexivity.
  - reflexivity.
  - reflexivity.
  - vm_compute. reflexivity.
  - vm_compute. discriminate.
  - repeat constructor.
Defined.

(** X6.  Growth ticks touch planted tiles only: on a grid of the generated
    shape any sequence of growth ticks ends without an error, keeps the
    shape, and leaves every tile that is not of type CROP_PLANTED, grown
    crops included, exactly as it was. *)
Theorem X6_growth_leaves_rest times world :
  worldShape world ->
  exists world',
    growthTicks times world = Ok world' /\ worldShape world' /\
    forall y x tile, getTile world y x = Ok tile -> type tile <> CROP_PLANTED ->
      getTile world' y x = Ok tile.
Proof.
  intros Hshape.
  destruct (growthTicks_spec times world Hshape) as (world' & Hrun & Hshape' & Htiles).
  exists world'. split; [exact Hrun |]. split; [exact Hshape' |].
  intros y x tile Ht Hty. rewrite (Htiles y x tile Ht).
  rewrite growTiles_other by exact Hty. reflexivity.
Qed.

Lemma X6_witness :
  exists world',
    growthTicks [5000; 10000] ripeStrip = Ok world' /\ worldShape world' /\
    forall y x tile, getTile ripeStrip y x = Ok tile -> type tile <> CROP_PLANTED ->
      getTile world' y x = Ok tile.
Proof. apply (X6_growth_leaves_rest [5000; 10000] ripeStrip). apply ripeStrip_shape. Defined.

End GrowthOverTime.

Section ImplementPasses.
Implicit Types (world : World) (tile : Tile) (player : Player).

(** X7.  One pass of the working plow (hitched as the tractor's equipment,
    the tractor moving with fuel left) over a grid of the generated shape
    ends without an error and tills exactly the grass and dirt tiles without
    a crop in the plow's row and columns: every such tile becomes tilled
    soil with its crop field kept, every other tile of the grid is as it
    was. *)
Theorem X7_plow_pass (tractor : Vehicle) (plow : Attachment) world :
  worldShape world -> implementIdle tractor Plow = false -> 0 <= implementRow plow ->
  exists world',
    applyPlowAction tractor plow world = Ok world' /\ worldShape world' /\
    forall y x tile, getTile world y x = Ok tile ->
      getTile world' y x =
      Ok (if underImplement plow y x && plowable tile then mkTile TILLED (crop tile) else tile).
Proof. intros Hshape Hwork Hrow. apply applyPlowAction_spec; assumption. Qed.

Lemma X7_witness :
  exists world',
    applyPlowAction plowingTractor initialPlow generateWorld = Ok world' /\
    worldShape world' /\
    forall y x tile, getTile generateWorld y x = Ok tile ->
      getTile world' y x =
      Ok (if underImplement initialPlow y x && plowable tile
          then mkTile TILLED (crop tile) else tile).
Proof.
  apply (X7_plow_pass plowingTractor initialPlow generateWorld).
  - apply generateWorld_inv.
  - vm_compute. reflexivity.
  - vm_compute. discriminate.
Defined.

(** X8.  Plowing is idempotent: a second pass of the plow from the same
    place over the grid the first pass left gives that grid again. *)
Theorem X8_plow_twice (tractor : Vehicle) (plow : Attachment) world :
  worldShape world -> 0 <= implementRow plow ->
  exists world',
    applyPlowAction tractor plow world = Ok world' /\
    applyPlowAction tractor plow world' = Ok world'.
Proof.
  intros Hshape Hrow.
  destruct (implementIdle tractor Plow) eqn:Eidle.
  { exists world. unfold applyPlowAction. rewrite Eidle. split; reflexivity. }
  destruct (applyPlowAction_spec tractor plow world Hshape Eidle Hrow)
    as (w1 & Hrun1 & Hshape1 & Htiles1).
  destruct (applyPlowAction_spec tractor plow w1 Hshape1 Eidle Hrow)
    as (w2 & Hrun2 & Hshape2 & Htiles2).
  exists w1. split; [exact Hrun1 |]. rewrite Hrun2. f_equal. symmetry.
  apply world_ext; [exact Hshape1 | exact Hshape2 |].
  intros y x tile Ht.
  destruct (getTile_bounds w1 y x tile Hshape1 Ht) as [Hy Hx].
  destruct (getTile_total world y x Hshape Hy Hx) as [tile0 Ht0].
  pose proof (Htiles1 y x tile0 Ht0) as H1. rewrite Ht in H1. injection H1 as ->.
  rewrite (Htiles2 y x _ Ht). f_equal. apply plowedTile_twice.
Qed.

Lemma X8_witness :
  exists world',
    applyPlowAction plowingTractor initialPlow generateWorld = Ok world' /\
    applyPlowAction plowingTractor initialPlow world' = Ok world'.
Proof.
  apply (X8_plow_twice plowingTractor initialPlow generateWorld).
  - apply generateWorld_inv.
  - vm_compute. discriminate.
Defined.

(** X9.  One pass of the seeder over a grid of the generated shape ends
    without an error, and every tile it changed lies in the seeder's row,
    was tilled soil without a crop, and now carries the selected crop at
    stage SEED planted at the current time; every other tile is as it
    was. *)
Theorem X9_seeder_pass (tractor : Vehicle) (seeder : Attachment) world player
  (selected : CropType) (now : Z) :
  worldShape world -> 0 <= implementRow seeder ->
  exists world' player' shown,
    applySeederAction tractor seeder world player selected now = Ok (world', player', shown) /\
    worldShape world' /\
    forall y x tile, getTile world y x = Ok tile ->
      getTile world' y x = Ok tile \/
      (y = implementRow seeder /\ sowable tile = true /\
       getTile world' y x = Ok (mkTile CROP_PLANTED (Some (mkCrop selected SEED now)))).
Proof.
  intros Hshape Hrow.
  destruct (applySeederAction_run tractor seeder world player selected now Hshape Hrow)
    as (world' & consumed & shown & Hrun & [Hshape' Hrel] & _).
  eexists world', _, shown. split; [exact Hrun |]. split; [exact Hshape' | exact Hrel].
Qed.

Lemma X9_witness :
  exists world' player' shown,
    applySeederAction seedingTractor initialSeeder tilledStrip initialPlayer CORN 7
    = Ok (world', player', shown) /\
    worldShape world' /\
    forall y x tile, getTile tilledStrip y x = Ok tile ->
      getTile world' y x = Ok tile \/
      (y = implementRow initialSeeder /\ sowable tile = true /\
       getTile world' y x = Ok (mkTile CROP_PLANTED (Some (mkCrop CORN SEED 7)))).
Proof.
  apply (X9_seeder_pass seedingTractor initialSeeder tilledStrip initialPlayer CORN 7).
  - apply tilledStrip_shape.
  - vm_compute. discriminate.
Defined.

(** X10.  The seeder's accounting: the seeds of the selected kind that one
    pass takes from the player are as many as the tilled, empty tiles that
    the pass turned into planted ones; the pass takes no seed that the
    player does not have, and it changes nothing else of the player. *)
Theorem X10_seeder_accounting (tractor : Vehicle) (seeder : Attachment) world player
  (selected : CropType) (now : Z) :
  worldShape world -> 0 <= implementRow seeder ->
  0 <= seedCount (inventory (ent_extra player)) selected ->
  exists world' player' shown,
    applySeederAction tractor seeder world player selected now = Ok (world', player', shown) /\
    player' = setInventory player (inventory (ent_extra player')) /\
    sameButSeeds (inventory (ent_extra player)) (inventory (ent_extra player')) selected /\
    0 <= seedCount (inventory (ent_extra player')) selected
      <= seedCount (inventory (ent_extra player)) selected /\
    seedCount (inventory (ent_extra player)) selected
    - seedCount (inventory (ent_extra player')) selected
    = countTiles sowable world - countTiles sowable world'.
Proof.
  intros Hshape Hrow Hseeds.
  destruct (applySeederAction_run tractor seeder world player selected now Hshape Hrow)
    as (world' & consumed & shown & Hrun & _ & Hpos & Hwithin & Hcount).
  eexists world', _, shown. split; [exact Hrun |].
  destruct player as [x y w h vx vy g [s j v f i m ms sb]].
  cbn [ent_extra inventory] in *.
  destruct (Z.gtb_spec consumed 0) as [Hgt | Hle].
  - cbn [setInventory withExtra ent_extra inventory].
    split; [reflexivity |]. split; [apply sameButSeeds_set |].
    rewrite seedCount_set. destruct (decide (selected = selected)); [| contradiction].
    split; lia.
  - assert (consumed = 0) by lia. subst consumed.
    split; [reflexivity |]. split; [split; reflexivity |]. cbn [ent_extra inventory].
    split; lia.
Qed.

Lemma X10_witness :
  exists world' player' shown,
    applySeederAction seedingTractor initialSeeder tilledStrip initialPlayer CORN 7
    = Ok (world', player', shown) /\
    player' = setInventory initialPlayer (inventory (ent_extra player')) /\
    sameButSeeds (inventory (ent_extra initialPlayer)) (inventory (ent_extra player')) CORN /\
    0 <= seedCount (inventory (ent_extra player')) CORN
      <= seedCount (inventory (ent_extra initialPlayer)) CORN /\
    seedCount (inventory (ent_extra initialPlayer)) CORN
    - seedCount (inventory (ent_extra player')) CORN
    = countTiles sowable tilledStrip - countTiles sowable world'.
Proof.
  apply (X10_seeder_accounting seedingTractor initialSeeder tilledStrip initialPlayer CORN 7).
  - apply tilledStrip_shape.
  - vm_compute. discriminate.
  - vm_compute. discriminate.
Defined.

(** X11.  One pass of the combine harvester over a grid of the generated
    shape ends without an error, and every tile it changed lies in the row
    under the combine, carried a mature crop on a tile of type CROP_GROWN,
    and is now tilled soil without a crop; every other tile is as it was. *)
Theorem X11_combine_pass (combineHarvester : Vehicle) world player :
  worldShape world -> 0 <= combineRow combineHarvester ->
  exists world' player' shown,
    applyCombineAction combineHarvester world player = Ok (world', player', shown) /\
    worldShape world' /\
    forall y x tile, getTile world y x = Ok tile ->
      getTile world' y x = Ok tile \/
      (y = combineRow combineHarvester /\ ripe tile = true /\
       getTile world' y x = Ok (mkTile TILLED None)).
Proof.
  intros Hshape Hrow.
  destruct (applyCombineAction_run combineHarvester world player Hshape Hrow)
    as (world' & player' & shown & Hrun & [Hshape' Hrel] & _).
  exists world', player', shown. split; [exact Hrun |]. split; [exact Hshape' | exact Hrel].
Qed.

Lemma X11_witness :
  exists world' player' shown,
    applyCombineAction cuttingCombine ripeStrip initialPlayer = Ok (world', player', shown) /\
    worldShape world' /\
    forall y x tile, getTile ripeStrip y x = Ok tile ->
      getTile world' y x = Ok tile \/
      (y = combineRow cuttingCombine /\ ripe tile = true /\
       getTile world' y x = Ok (mkTile TILLED None)).
Proof.
  apply (X11_combine_pass cuttingCombine ripeStrip initialPlayer).
  - apply ripeStrip_shape.
  - vm_compute. discriminate.
Defined.

(** X12.  The combine's accounting: for every crop kind, the units one pass
    credits to the player are as many as the ripe tiles of that kind that
    the pass cleared; seeds, money and every other field of the player are
    as they were. *)
Theorem X12_combine_accounting (combineHarvester : Vehicle) world player :
  worldShape world -> 0 <= combineRow combineHarvester ->
  exists world' player' shown,
    applyCombineAction combineHarvester world player = Ok (world', player', shown) /\
    player' = setInventory player (inventory (ent_extra player')) /\
    (forall kind, seedCount (inventory (ent_extra player')) kind
                  = seedCount (inventory (ent_extra player)) kind) /\
    (forall kind, cropCount (inventory (ent_extra player')) kind
                  - cropCount (inventory (ent_extra player)) kind
                  = countTiles (ripeOf kind) world - countTiles (ripeOf kind) world').
Proof.
  intros Hshape Hrow.
  destruct (applyCombineAction_run combineHarvester world player Hshape Hrow)
    as (world' & player' & shown & Hrun & _ & Hrest).
  exists world', player', shown. split; [exact Hrun | exact Hrest].
Qed.

Lemma X12_witness :
  exists world' player' shown,
    applyCombineAction cuttingCombine ripeStrip initialPlayer = Ok (world', player', shown) /\
    player' = setInventory initialPlayer (inventory (ent_extra player')) /\
    (forall kind, seedCount (inventory (ent_extra player')) kind
                  = seedCount (inventory (ent_extra initialPlayer)) kind) /\
    (forall kind, cropCount (inventory (ent_extra player')) kind
                  - cropCount (inventory (ent_extra initialPlayer)) kind
                  = countTiles (ripeOf kind) ripeStrip - countTiles (ripeOf kind) world').
Proof.
  apply (X12_combine_accounting cuttingCombine ripeStrip initialPlayer).
  - apply ripeStrip_shape.
  - vm_compute. discriminate.
Defined.

End ImplementPasses.

(* ================================================================== *)
(** * Further properties: walking, driving, hitching *)
(* ================================================================== *)

Section Driving.
Implicit Types (v tractor combineHarvester : Vehicle) (p : Player) (keys : Keys).

(** The two driving handlers differ in the message only. *)
Lemma handleCombineMovement_same keys v :
  (handleCombineMovement keys v).1 = (handleTractorMovement keys v).1.
Proof.
  unfold handleCombineMovement, handleTractorMovement.
  destruct (negb (v_isInVehicle (ent_extra v))); [reflexivity |].
  destruct (Qleb (fuel (ent_extra v)) 0 && isMovingKey keys); [reflexivity |].
  destruct (key_a keys || key_arrowleft keys); [reflexivity |].
  destruct (key_d keys || key_arrowright keys); reflexivity.
Qed.

Lemma isMovingKey_split keys :
  isMovingKey keys = (key_a keys || key_arrowleft keys) || (key_d keys || key_arrowright keys).
Proof.
  unfold isMovingKey.
  destruct (key_a keys), (key_arrowleft keys), (key_d keys), (key_arrowright keys); reflexivity.
Qed.

(** One case of a driving handler. *)
Ltac tank_case :=
  cbn [fst set_vx setDrive ent_vx ent_x ent_y ent_extra fuel maxFuel fuelConsumption
       upgradeLevel v_type];
  repeat match goal with
  | |- _ /\ _ => split
  | |- _ -> _ => intro
  end;
  try reflexivity; try assumption; try lra;
  try (exfalso; match goal with H : ~ (_ == _)%Q |- _ => apply H; reflexivity end);
  try (left; reflexivity); try (right; split; reflexivity).

(** What driving does to the tank and what it leaves alone. *)
Lemma handleTractorMovement_tank keys v :
  let v' := (handleTractorMovement keys v).1 in
  (~ (ent_vx v' == 0)%Q ->
   v_isInVehicle (ent_extra v) = true /\ (0 < fuel (ent_extra v))%Q /\
   isMovingKey keys = true) /\
  ((0 <= fuel (ent_extra v))%Q -> (0 <= fuel (ent_extra v'))%Q) /\
  ((0 <= fuelConsumption (ent_extra v))%Q -> (fuel (ent_extra v') <= fuel (ent_extra v))%Q) /\
  (fuel (ent_extra v') = fuel (ent_extra v) \/
   (isMovingKey keys = true /\
    fuel (ent_extra v')
    = Math_max 0 (fuel (ent_extra v) - fuelConsumption (ent_extra v)))) /\
  maxFuel (ent_extra v') = maxFuel (ent_extra v) /\
  fuelConsumption (ent_extra v') = fuelConsumption (ent_extra v) /\
  upgradeLevel (ent_extra v') = upgradeLevel (ent_extra v) /\
  v_type (ent_extra v') = v_type (ent_extra v) /\
  ent_x v' = ent_x v /\ ent_y v' = ent_y v.
Proof.
  cbv zeta. unfold handleTractorMovement. rewrite (isMovingKey_split keys).
  destruct (v_isInVehicle (ent_extra v)); cbn [negb]; [| tank_case].
  destruct (Qleb (fuel (ent_extra v)) 0) eqn:Efuel; unfold Qleb in Efuel;
    [apply Qle_bool_iff in Efuel | apply Qle_bool_false_lt in Efuel];
    (destruct (key_a keys || key_arrowleft keys);
     [| destruct (key_d keys || key_arrowright keys)]);
    cbn [orb andb]; unfold Math_max; qbool; tank_case.
Qed.

(** X13.  The combine harvester drives like the tractor and never without
    driver, fuel and key: after the handler the horizontal speed is not zero
    only when the combine is occupied, has fuel left and a left or right key
    is down; the handler never takes the fuel below zero, never adds fuel,
    changes the fuel only when a left or right key is down, and then to
    [max 0 (fuel - fuelConsumption)]; it moves nothing.  Apart from the
    message the result is that of the tractor's handler. *)
Theorem X13_combine_drive keys combineHarvester :
  let moved := (handleCombineMovement keys combineHarvester).1 in
  (~ (ent_vx moved == 0)%Q ->
   v_isInVehicle (ent_extra combineHarvester) = true /\
   (0 < fuel (ent_extra combineHarvester))%Q /\ isMovingKey keys = true) /\
  ((0 <= fuel (ent_extra combineHarvester))%Q -> (0 <= fuel (ent_extra moved))%Q) /\
  ((0 <= fuelConsumption (ent_extra combineHarvester))%Q ->
   (fuel (ent_extra moved) <= fuel (ent_extra combineHarvester))%Q) /\
  (fuel (ent_extra moved) = fuel (ent_extra combineHarvester) \/
   (isMovingKey keys = true /\
    fuel (ent_extra moved)
    = Math_max 0 (fuel (ent_extra combineHarvester)
                  - fuelConsumption (ent_extra combineHarvester)))) /\
  ent_x moved = ent_x combineHarvester /\ ent_y moved = ent_y combineHarvester /\
  moved = (handleTractorMovement keys combineHarvester).1.
Proof.
  cbv zeta. rewrite handleCombineMovement_same.
  destruct (handleTractorMovement_tank keys combineHarvester)
    as (H1 & H2 & H3 & H4 & _ & _ & _ & _ & H5 & H6).
  split; [exact H1 |]. split; [exact H2 |]. split; [exact H3 |]. split; [exact H4 |].
  split; [exact H5 |]. split; [exact H6 | reflexivity].
Qed.

Lemma X13_witness :
  v_isInVehicle (ent_extra cuttingCombine) = true /\
  (0 < fuel (ent_extra cuttingCombine))%Q /\ isMovingKey keysRight = true.
Proof.
  destruct (X13_combine_drive keysRight cuttingCombine) as [Hmoves _].
  apply Hmoves. intros Hstill. vm_compute in Hstill. discriminate.
Defined.

(** One case of the walking handler. *)
Ltac walk_case :=
  cbn [andb setWalk ent_x ent_y ent_vx ent_vy ent_onGround ent_extra inventory money
       maxStorage];
  repeat match goal with
  | |- _ /\ _ => split
  | |- _ -> _ => intro
  end;
  try reflexivity; try discriminate; try congruence; auto.

(** X14.  Walking: the handler leaves a seated player as it is; it never
    moves the player and never touches inventory, money or storage; the new
    horizontal speed is the walking speed to the left or to the right, or
    zero; and the vertical speed changes only by a jump, which needs the up
    key and a player standing on the ground, so there is no jump in
    mid-air. *)
Theorem X14_player_walk keys p :
  let walked := handlePlayerMovement keys p in
  (isInVehicle p = true -> walked = p) /\
  ent_x walked = ent_x p /\ ent_y walked = ent_y p /\
  inventory (ent_extra walked) = inventory (ent_extra p) /\
  money (ent_extra walked) = money (ent_extra p) /\
  maxStorage (ent_extra walked) = maxStorage (ent_extra p) /\
  (isInVehicle p = false ->
   ent_vx walked = (- p_speed (ent_extra p))%Q \/ ent_vx walked = p_speed (ent_extra p) \/
   ent_vx walked = 0%Q) /\
  (ent_onGround p = false -> ent_vy walked = ent_vy p /\ ent_onGround walked = false) /\
  (ent_vy walked <> ent_vy p ->
   ent_onGround p = true /\ key_w keys || key_arrowup keys = true /\
   ent_vy walked = (- p_jumpPower (ent_extra p))%Q /\ ent_onGround walked = false).
Proof.
  cbv zeta. unfold handlePlayerMovement.
  destruct (isInVehicle p) eqn:Eseat; [walk_case |].
  destruct (key_a keys || key_arrowleft keys);
    [| destruct (key_d keys || key_arrowright keys)];
    destruct (key_w keys || key_arrowup keys); destruct (ent_onGround p) eqn:Eg;
    walk_case.
Qed.

Lemma X14_witness :
  ent_onGround standingPlayer = true /\ key_w keysUp || key_arrowup keysUp = true /\
  ent_vy (handlePlayerMovement keysUp standingPlayer)
  = (- p_jumpPower (ent_extra standingPlayer))%Q /\
  ent_onGround (handlePlayerMovement keysUp standingPlayer) = false.
Proof.
  destruct (X14_player_walk keysUp standingPlayer) as (_ & _ & _ & _ & _ & _ & _ & _ & Hjump).
  apply Hjump. intros Hsame. vm_compute in Hsame. discriminate.
Defined.

End Driving.

Section Hitching.
Implicit Types (tractor : Vehicle) (a plow seeder : Attachment).

Lemma closerAttachment_step tractor (seen : list Attachment) (best : option (Attachment * Q)) a :
  hitchSoFar tractor seen best ->
  hitchSoFar tractor (seen ++ [a]) (closerAttachment tractor best a).
Proof.
  unfold hitchSoFar, closerAttachment, nearestToHitch, inHitchRange.
  destruct (a_isHitched (ent_extra a)) eqn:Ehitched; cbn [negb].
  - destruct best as [[b m] |].
    + intros (-> & Hin & Hrange & Hmin). split; [reflexivity |].
      split; [apply in_or_app; left; exact Hin |]. split; [exact Hrange |].
      intros u Hu Hfree. apply in_app_or in Hu.
      destruct Hu as [Hu | [<- | []]]; [apply Hmin; assumption | congruence].
    + intros Hnone u Hu [Hfree Hnear]. apply in_app_or in Hu.
      destruct Hu as [Hu | [<- | []]]; [| congruence].
      eapply Hnone; [exact Hu |]. split; [exact Hfree | exact Hnear].
  - destruct best as [[b m] |].
    + intros (-> & Hin & [Hfree Hrange] & Hmin).
      unfold hitchRange in *.
      qbool;
        (split; [reflexivity |]; split;
         [apply in_or_app; first [left; assumption | right; left; reflexivity] |];
         split; [split; assumption |];
         intros u Hu Hu'; apply in_app_or in Hu;
         destruct Hu as [Hu | [<- | []]]; [pose proof (Hmin u Hu Hu') |]; lra).
    + intros Hnone. cbn [andb]. unfold hitchRange in *.
      qbool.
      * intros u Hu [Hfree Hrange]. apply in_app_or in Hu.
        destruct Hu as [Hu | [<- | []]]; [apply (Hnone u Hu); split; assumption | lra].
      * split; [reflexivity |]. split; [apply in_or_app; right; left; reflexivity |].
        split; [split; assumption |]. intros u Hu Hu'. apply in_app_or in Hu.
        destruct Hu as [Hu | [<- | []]]; [| lra].
        destruct (Qlt_le_dec (hitchDistance tractor u) 60) as [Hlt | Hge]; [| lra].
        exfalso. apply (Hnone u Hu). split; assumption.
Qed.

Lemma closestAttachment_fold tractor (attachments seen : list Attachment)
  (best : option (Attachment * Q)) :
  hitchSoFar tractor seen best ->
  hitchSoFar tractor (seen ++ attachments)
             (fold_left (closerAttachment tractor) attachments best).
Proof.
  revert seen best. induction attachments as [| a attachments IH]; intros seen best Hbest.
  - rewrite app_nil_r. exact Hbest.
  - cbn [fold_left].
    replace (seen ++ a :: attachments) with ((seen ++ [a]) ++ attachments)
      by (rewrite <- app_assoc; reflexivity).
    apply IH. apply closerAttachment_step. exact Hbest.
Qed.

(** The search returns the nearest free attachment within range, and
    nothing only when no free attachment is within range. *)
Lemma closestAttachment_spec tractor (attachments : list Attachment) :
  match closestAttachment tractor attachments with
  | Some a => nearestToHitch tractor attachments a
  | None => forall u, In u attachments -> ~ inHitchRange tractor u
  end.
Proof.
  unfold closestAttachment.
  pose proof (closestAttachment_fold tractor attachments [] None) as H.
  cbn [app] in H.
  destruct (fold_left (closerAttachment tractor) attachments None) as [[b m] |];
    cbn [option_map fst].
  - apply H. intros u [].
  - apply H. intros u [].
Qed.

Lemma setEquipment_back tractor a :
  v_equipment (ent_extra tractor) = None ->
  setEquipment (setEquipment tractor (Some a)) None = tractor.
Proof.
  destruct tractor as [x y w h vx vy g [s j e hi i t f fu mf fc ul]].
  cbn. intros ->. reflexivity.
Qed.

Lemma setHitched_back a :
  a_isHitched (ent_extra a) = false -> setHitched (setHitched a true) false = a.
Proof. destruct a as [x y w h vx vy g [hi t]]. cbn. intros ->. reflexivity. Qed.

(** X15.  Hitching picks the nearest free attachment.  A tractor without a
    driver refuses with a message and changes nothing.  An occupied tractor
    without equipment takes, when some attachment that is not hitched lies
    within 60 pixels of it horizontally, one such attachment that no free
    attachment is nearer than, stores it as its equipment and has the plow
    or seeder object of that type flagged as hitched; when none lies within
    range it reports the failure and changes nothing. *)
Theorem X15_hitch_nearest tractor plow seeder :
  let out := handleHitchClosestAttachment tractor plow seeder in
  (v_isInVehicle (ent_extra tractor) = false ->
   out = (tractor, plow, seeder,
          [("Must be in tractor to hitch attachments!"%string, 1000)])) /\
  (v_isInVehicle (ent_extra tractor) = true ->
   v_equipment (ent_extra tractor) = None ->
   ((exists u, In u [plow; seeder] /\ inHitchRange tractor u) ->
    exists a, nearestToHitch tractor [plow; seeder] a /\
              out.1.1.1 = setEquipment tractor (Some a) /\
              (out.1.1.2, out.1.2) = markAttachment (a_type (ent_extra a)) true plow seeder) /\
   ((forall u, In u [plow; seeder] -> ~ inHitchRange tractor u) ->
    out = (tractor, plow, seeder,
           [("No attachment close enough to hitch!"%string, 1000)]))).
Proof.
  cbv zeta. unfold handleHitchClosestAttachment. split.
  - intros ->. reflexivity.
  - intros -> ->. cbn [negb].
    pose proof (closestAttachment_spec tractor [plow; seeder]) as Hspec.
    destruct (closestAttachment tractor [plow; seeder]) as [a |]; split.
    + intros _. exists a. split; [exact Hspec |].
      destruct (markAttachment (a_type (ent_extra a)) true plow seeder) as [p' s'].
      split; reflexivity.
    + intros Hnone. exfalso. destruct Hspec as (Hin & Hrange & _).
      exact (Hnone a Hin Hrange).
    + intros (u & Hin & Hrange). exfalso. exact (Hspec u Hin Hrange).
    + intros _. reflexivity.
Qed.

Lemma X15_witness :
  exists a, nearestToHitch tractorByPlow [initialPlow; initialSeeder] a /\
            (handleHitchClosestAttachment tractorByPlow initialPlow initialSeeder).1.1.1
            = setEquipment tractorByPlow (Some a) /\
            ((handleHitchClosestAttachment tractorByPlow initialPlow initialSeeder).1.1.2,
             (handleHitchClosestAttachment tractorByPlow initialPlow initialSeeder).1.2)
            = markAttachment (a_type (ent_extra a)) true initialPlow initialSeeder.
Proof.
  destruct (X15_hitch_nearest tractorByPlow initialPlow initialSeeder) as [_ Hocc].
  destruct Hocc as [Hsome _]; [reflexivity | reflexivity |].
  apply Hsome. exists initialPlow. split; [left; reflexivity |].
  split; [reflexivity |]. vm_compute. reflexivity.
Defined.

(** X16.  Hitch, then detach, is a round trip: for an occupied tractor
    without equipment, a plow object of type plow and a seeder object of
    type seeder, one of them free and within range, the first request
    hitches an attachment, and the second request, on the objects the first
    one left, gives back the tractor, the plow and the seeder exactly as they
    were before the first. *)
Theorem X16_hitch_then_detach tractor plow seeder :
  v_isInVehicle (ent_extra tractor) = true ->
  v_equipment (ent_extra tractor) = None ->
  a_type (ent_extra plow) = Plow -> a_type (ent_extra seeder) = Seeder ->
  (exists u, In u [plow; seeder] /\ inHitchRange tractor u) ->
  let hitched := handleHitchClosestAttachment tractor plow seeder in
  let detached := handleHitchClosestAttachment hitched.1.1.1 hitched.1.1.2 hitched.1.2 in
  (exists a, In a [plow; seeder] /\ v_equipment (ent_extra hitched.1.1.1) = Some a) /\
  detached.1 = (tractor, plow, seeder).
Proof.
  intros Hocc Hnone Hplow Hseeder (u & Hu & Hrange). cbv zeta.
  pose proof (closestAttachment_spec tractor [plow; seeder]) as Hspec.
  destruct (closestAttachment tractor [plow; seeder]) as [a |] eqn:Eclosest;
    [| exfalso; exact (Hspec u Hu Hrange)].
  destruct Hspec as (Hin & [Hfree _] & _).
  assert (Hfirst :
    handleHitchClosestAttachment tractor plow seeder =
    (setEquipment tractor (Some a),
     (markAttachment (a_type (ent_extra a)) true plow seeder).1,
     (markAttachment (a_type (ent_extra a)) true plow seeder).2,
     [((capitalize (attachmentName (a_type (ent_extra a))) ++ " Attached")%string, 1500)])).
  { unfold handleHitchClosestAttachment. rewrite Hocc, Hnone, Eclosest. cbn [negb].
    destruct (markAttachment (a_type (ent_extra a)) true plow seeder); reflexivity. }
  rewrite Hfirst. cbn [fst snd].
  assert (Hocc' : v_isInVehicle (ent_extra (setEquipment tractor (Some a))) = true).
  { destruct tractor as [x y w h vx vy g [s j e hi i t f fu mf fc ul]]. exact Hocc. }
  assert (Heq' : v_equipment (ent_extra (setEquipment tractor (Some a))) = Some a).
  { destruct tractor as [x y w h vx vy g [s j e hi i t f fu mf fc ul]]. reflexivity. }
  split; [exists a; split; [exact Hin | exact Heq'] |].
  unfold handleHitchClosestAttachment. rewrite Hocc', Heq'. cbn [negb].
  rewrite setEquipment_back by exact Hnone.
  destruct Hin as [<- | [<- | []]].
  - rewrite Hplow. cbn [markAttachment fst snd].
    rewrite setHitched_back by exact Hfree. reflexivity.
  - rewrite Hseeder. cbn [markAttachment fst snd].
    rewrite setHitched_back by exact Hfree. reflexivity.
Qed.

Lemma X16_witness :
  (exists a, In a [initialPlow; initialSeeder] /\
             v_equipment (ent_extra (handleHitchClosestAttachment
                                       tractorByPlow initialPlow initialSeeder).1.1.1)
             = Some a) /\
  (handleHitchClosestAttachment
     (handleHitchClosestAttachment tractorByPlow initialPlow initialSeeder).1.1.1
     (handleHitchClosestAttachment tractorByPlow initialPlow initialSeeder).1.1.2
     (handleHitchClosestAttachment tractorByPlow initialPlow initialSeeder).1.2).1
  = (tractorByPlow, initialPlow, initialSeeder).
Proof.
  apply (X16_hitch_then_detach tractorByPlow initialPlow initialSeeder).
  - reflexivity.
  - reflexivity.
  - reflexivity.
  - reflexivity.
  - exists initialPlow. split; [left; reflexivity |].
    split; [reflexivity |]. vm_compute. reflexivity.
Defined.

End Hitching.

Section EnterAndLeave.
Implicit Types (p : Player) (v tractor combineHarvester : Vehicle).

Lemma setVehicleOccupied_back v :
  v_isInVehicle (ent_extra v) = false ->
  setVehicleOccupied (setVehicleOccupied v true) false = v.
Proof.
  destruct v as [x y w h vx vy g [s j e hi i t f fu mf fc ul]]. cbn. intros ->. reflexivity.
Qed.

(** X17.  Enter, then leave, is a round trip for the vehicles: a player on
    foot with both vehicles empty and one of them within range enters the
    nearest one; leaving it again gives back both vehicle objects exactly as
    they were, and puts the player, with every field other than position,
    velocity and ground contact as before, at the horizontal centre of that
    vehicle with the feet on the ground reference row and at rest. *)
Theorem X17_enter_then_leave p tractor combineHarvester :
  v_type (ent_extra tractor) = Tractor ->
  v_type (ent_extra combineHarvester) = CombineHarvester ->
  isInVehicle p = false ->
  v_isInVehicle (ent_extra tractor) = false ->
  v_isInVehicle (ent_extra combineHarvester) = false ->
  (exists u, In u [tractor; combineHarvester] /\ inEnterRange p u) ->
  let entered := handleEnterExitVehicle p tractor combineHarvester in
  let left := handleEnterExitVehicle entered.1.1.1 entered.1.1.2 entered.1.2 in
  exists v,
    nearestInRange p [tractor; combineHarvester] v /\
    isInVehicle entered.1.1.1 = true /\
    left.1.1.2 = tractor /\ left.1.2 = combineHarvester /\
    ent_extra left.1.1.1 = ent_extra p /\
    ent_width left.1.1.1 = ent_width p /\ ent_height left.1.1.1 = ent_height p /\
    (ent_x left.1.1.1 + ent_width p / 2 == ent_x v + ent_width v / 2)%Q /\
    (ent_y left.1.1.1 + ent_height p == inject_Z groundLevelY)%Q /\
    ent_vx left.1.1.1 = 0%Q /\ ent_vy left.1.1.1 = 0%Q.
Proof.
  intros Ht Hc Hfoot Het Hec (u & Hu & Hrange). cbv zeta.
  pose proof (closestVehicle_spec p [tractor; combineHarvester]) as Hspec.
  destruct (closestVehicle p [tractor; combineHarvester]) as [v |] eqn:Eclosest;
    [| exfalso; exact (Hspec u Hu Hrange)].
  rewrite (handleEnterExitVehicle_enter p tractor combineHarvester v Hfoot Eclosest).
  cbn [fst snd]. exists v. split; [exact Hspec |].
  destruct Hspec as (Hin & _ & _).
  set (seated := set_y (set_x (setPlayerInVehicle p true) _) _).
  assert (Hseated : isInVehicle seated = true).
  { destruct p as [x y w h vx vy g [s j i f inv m ms sb]]. reflexivity. }
  split; [exact Hseated |].
  assert (Hextra : ent_extra (setPlayerInVehicle seated false) = ent_extra p).
  { destruct p as [x y w h vx vy g [s j i f inv m ms sb]].
    unfold isInVehicle in Hfoot. cbn in Hfoot. subst i. reflexivity. }
  destruct Hin as [<- | [<- | []]]; unfold markVehicle.
  - rewrite Ht. cbn [fst snd].
    assert (Hcur : currentVehicle (setVehicleOccupied tractor true) combineHarvester
                   = Some (setVehicleOccupied tractor true)).
    { unfold currentVehicle.
      destruct tractor as [x y w h vx vy g [s j e hi i t f fu mf fc ul]]. reflexivity. }
    rewrite (handleEnterExitVehicle_exit seated _ _ _ Hseated Hcur).
    unfold markVehicle.
    replace (v_type (ent_extra (setVehicleOccupied tractor true))) with Tractor
      by (destruct tractor as [x y w h vx vy g [s j e hi i t f fu mf fc ul]];
          symmetry; exact Ht).
    cbn [fst snd ent_extra ent_x ent_y ent_vx ent_vy ent_width ent_height].
    rewrite setVehicleOccupied_back by exact Het.
    split; [reflexivity |]. split; [reflexivity |]. split; [exact Hextra |].
    destruct p as [x y w h vx vy g px]. destruct tractor as [x' y' w' h' vx' vy' g' tx].
    cbn. repeat split; try reflexivity; qdiv; lra.
  - rewrite Hc. cbn [fst snd].
    assert (Hcur : currentVehicle tractor (setVehicleOccupied combineHarvester true)
                   = Some (setVehicleOccupied combineHarvester true)).
    { unfold currentVehicle. rewrite Het.
      destruct combineHarvester as [x y w h vx vy g [s j e hi i t f fu mf fc ul]].
      reflexivity. }
    rewrite (handleEnterExitVehicle_exit seated _ _ _ Hseated Hcur).
    unfold markVehicle.
    replace (v_type (ent_extra (setVehicleOccupied combineHarvester true)))
      with CombineHarvester
      by (destruct combineHarvester as [x y w h vx vy g [s j e hi i t f fu mf fc ul]];
          symmetry; exact Hc).
    cbn [fst snd ent_extra ent_x ent_y ent_vx ent_vy ent_width ent_height].
    rewrite setVehicleOccupied_back by exact Hec.
    split; [reflexivity |]. split; [reflexivity |]. split; [exact Hextra |].
    destruct p as [x y w h vx vy g px].
    destruct combineHarvester as [x' y' w' h' vx' vy' g' tx].
    cbn. repeat split; try reflexivity; qdiv; lra.
Qed.

Lemma X17_witness :
  exists v,
    nearestInRange playerByTractor [initialTractor; initialCombineHarvester] v /\
    isInVehicle (handleEnterExitVehicle playerByTractor initialTractor
                   initialCombineHarvester).1.1.1 = true /\
    (handleEnterExitVehicle
       (handleEnterExitVehicle playerByTractor initialTractor initialCombineHarvester).1.1.1
       (handleEnterExitVehicle playerByTractor initialTractor initialCombineHarvester).1.1.2
       (handleEnterExitVehicle playerByTractor initialTractor initialCombineHarvester).1.2
    ).1.1.2 = initialTractor /\
    (handleEnterExitVehicle
       (handleEnterExitVehicle playerByTractor initialTractor initialCombineHarvester).1.1.1
       (handleEnterExitVehicle playerByTractor initialTractor initialCombineHarvester).1.1.2
       (handleEnterExitVehicle playerByTractor initialTractor initialCombineHarvester).1.2
    ).1.2 = initialCombineHarvester /\
    ent_extra
      (handleEnterExitVehicle
         (handleEnterExitVehicle playerByTractor initialTractor initialCombineHarvester).1.1.1
         (handleEnterExitVehicle playerByTractor initialTractor initialCombineHarvester).1.1.2
         (handleEnterExitVehicle playerByTractor initialTractor initialCombineHarvester).1.2
      ).1.1.1 = ent_extra playerByTractor.
Proof.
  destruct (X17_enter_then_leave playerByTractor initialTractor initialCombineHarvester)
    as (v & H1 & H2 & H3 & H4 & H5 & _).
  - reflexivity.
  - reflexivity.
  - reflexivity.
  - reflexivity.
  - reflexivity.
  - exists initialTractor. split; [left; reflexivity |]. vm_compute. reflexivity.
  - exists v. split; [exact H1 |]. split; [exact H2 |]. split; [exact H3 |].
    split; [exact H4 | exact H5].
Defined.

End EnterAndLeave.

(* ================================================================== *)
(** * Further properties: shop, money and tanks *)
(* ================================================================== *)

Section Shop.
Implicit Types (p : Player) (kind : CropType).

(** X18.  Buying seeds: when the money covers the price times the quantity
    the player pays exactly that and gets exactly [quantity] seeds of the
    kind, every other count and every other field of the player (position,
    velocity, storage, silo) unchanged; otherwise nothing changes and the
    shop says so.  Either way the player's money plus the value of the
    seeds of that kind at the shop price is the same before and after, and
    money that was not negative is not negative afterwards. *)
Theorem X18_buy_seeds kind (quantity : Z) p :
  let cost := (SEED_PRICES kind * inject_Z quantity)%Q in
  let bought := (handleBuySeeds kind quantity p).1 in
  ((cost <= money (ent_extra p))%Q ->
   money (ent_extra bought) = (money (ent_extra p) - cost)%Q /\
   seedCount (inventory (ent_extra bought)) kind
   = seedCount (inventory (ent_extra p)) kind + quantity /\
   sameButSeeds (inventory (ent_extra p)) (inventory (ent_extra bought)) kind /\
   maxStorage (ent_extra bought) = maxStorage (ent_extra p) /\
   bought = setInventory (setMoney p (money (ent_extra p) - cost)%Q)
                         (inventory (ent_extra bought))) /\
  ((money (ent_extra p) < cost)%Q ->
   handleBuySeeds kind quantity p = (p, [("Not enough money to buy seeds!"%string, 1500)])) /\
  (money (ent_extra bought)
   + SEED_PRICES kind * inject_Z (seedCount (inventory (ent_extra bought)) kind)
   == money (ent_extra p)
      + SEED_PRICES kind * inject_Z (seedCount (inventory (ent_extra p)) kind))%Q /\
  ((0 <= money (ent_extra p))%Q -> (0 <= money (ent_extra bought))%Q).
Proof.
  cbv zeta. unfold handleBuySeeds.
  destruct p as [x y w h vx vy g [s j i f inv m ms sb]].
  cbn [ent_extra money inventory maxStorage].
  unfold Qgeb. destruct (Qle_bool (SEED_PRICES kind * inject_Z quantity) m) eqn:E.
  - apply Qle_bool_iff in E.
    cbn [fst setInventory setMoney withExtra ent_extra money inventory maxStorage].
    rewrite seedCount_set. destruct (decide (kind = kind)); [| contradiction].
    split; [intros _; split; [reflexivity |]; split; [reflexivity |];
            split; [apply sameButSeeds_set |]; split; reflexivity |].
    split; [intros Hlt; exfalso; lra |].
    split; [rewrite inject_Z_plus; ring | intros Hm; lra].
  - apply Qle_bool_false_lt in E. cbn [fst ent_extra money inventory].
    split; [intros Hle; exfalso; lra |].
    split; [intros _; reflexivity |]. split; [reflexivity | intros Hm; exact Hm].
Qed.

Lemma X18_witness :
  money (ent_extra (handleBuySeeds WHEAT 10 initialPlayer).1)
  = (money (ent_extra initialPlayer) - SEED_PRICES WHEAT * inject_Z 10)%Q /\
  seedCount (inventory (ent_extra (handleBuySeeds WHEAT 10 initialPlayer).1)) WHEAT
  = seedCount (inventory (ent_extra initialPlayer)) WHEAT + 10 /\
  sameButSeeds (inventory (ent_extra initialPlayer))
               (inventory (ent_extra (handleBuySeeds WHEAT 10 initialPlayer).1)) WHEAT /\
  maxStorage (ent_extra (handleBuySeeds WHEAT 10 initialPlayer).1)
  = maxStorage (ent_extra initialPlayer) /\
  (handleBuySeeds WHEAT 10 initialPlayer).1
  = setInventory
      (setMoney initialPlayer
         (money (ent_extra initialPlayer) - SEED_PRICES WHEAT * inject_Z 10)%Q)
      (inventory (ent_extra (handleBuySeeds WHEAT 10 initialPlayer).1)).
Proof.
  destruct (X18_buy_seeds WHEAT 10 initialPlayer) as [Hpays _].
  apply Hpays. vm_compute. discriminate.
Defined.

Lemma sellKind_spec (inv : Inventory) (total : Z) kind :
  0 <= cropCount inv kind ->
  sellKind (inv, total) kind
  = (setCropCount inv kind 0, total + cropCount inv kind * CROP_PRICES kind) \/
  (cropCount inv kind = 0 /\ sellKind (inv, total) kind = (inv, total)).
Proof.
  intros Hpos. unfold sellKind.
  destruct (Z.gtb_spec (cropCount inv kind) 0) as [Hgt | Hle].
  - left. reflexivity.
  - right. split; [lia | reflexivity].
Qed.

(** What selling does, for crop counts that are not negative. *)
Lemma handleSellCrops_all p :
  (forall kind, 0 <= cropCount (inventory (ent_extra p)) kind) ->
  let sold := (handleSellCrops None p).1 in
  let inv := inventory (ent_extra p) in
  inventory (ent_extra sold)
  = mkInventory (wheatSeeds inv) (cornSeeds inv) (potatoSeeds inv) 0 0 0 /\
  money (ent_extra sold)
  = (money (ent_extra p)
     + inject_Z (0 + wheat inv * CROP_PRICES WHEAT + corn inv * CROP_PRICES CORN
                 + potato inv * CROP_PRICES POTATO))%Q /\
  maxStorage (ent_extra sold) = maxStorage (ent_extra p).
Proof.
  intros Hpos. cbv zeta.
  destruct p as [x y w h vx vy g [s j i f [a b c d e f0] m ms sb]].
  pose proof (Hpos WHEAT) as Hw. pose proof (Hpos CORN) as Hc.
  pose proof (Hpos POTATO) as Hp. cbn in Hw, Hc, Hp.
  unfold handleSellCrops, sellKind.
  cbn [ent_extra inventory money fold_left cropCount wheat].
  destruct (Z.gtb_spec d 0);
    cbn [cropCount setCropCount wheat corn potato wheatSeeds cornSeeds potatoSeeds];
    destruct (Z.gtb_spec e 0);
    cbn [cropCount setCropCount wheat corn potato wheatSeeds cornSeeds potatoSeeds];
    destruct (Z.gtb_spec f0 0);
    cbn [cropCount setCropCount wheat corn potato wheatSeeds cornSeeds potatoSeeds];
    match goal with |- context [?t >? 0] => destruct (t >? 0) end;
    cbn [fst setInventory setMoney withExtra ent_extra inventory money maxStorage
         wheat corn potato wheatSeeds cornSeeds potatoSeeds];
    (split; [f_equal; lia | split; [f_equal; f_equal; cbn [CROP_PRICES]; lia | reflexivity]]).
Qed.

Lemma handleSellCrops_one p kind :
  0 <= cropCount (inventory (ent_extra p)) kind ->
  let sold := (handleSellCrops (Some kind) p).1 in
  let inv := inventory (ent_extra p) in
  inventory (ent_extra sold) = setCropCount inv kind 0 /\
  money (ent_extra sold)
  = (money (ent_extra p) + inject_Z (cropCount inv kind * CROP_PRICES kind))%Q /\
  maxStorage (ent_extra sold) = maxStorage (ent_extra p) /\
  ent_x sold = ent_x p.
Proof.
  intros Hpos. cbv zeta.
  destruct p as [x y w h vx vy g [s j i f inv m ms sb]].
  cbn [ent_extra inventory money] in *. unfold handleSellCrops.
  cbn [ent_extra inventory money].
  destruct (Z.gtb_spec (cropCount inv kind) 0) as [Hgt | Hle];
    cbn [fst setInventory setMoney withExtra ent_extra inventory money maxStorage ent_x].
  - repeat split; reflexivity.
  - assert (Hzero : cropCount inv kind = 0) by lia. rewrite Hzero.
    split; [| repeat split; reflexivity].
    destruct inv as [a b c d e f0]. destruct kind; cbn in Hzero |- *; subst; reflexivity.
Qed.

(** X19.  Selling, for crop counts that are not negative: selling all
    crops leaves every crop count at zero and every seed count as it was
    and adds to the money the counts times the crop prices; selling one
    kind does the same for that kind alone; and selling the three kinds one
    after the other ends with the same inventory and the same money as
    selling all at once. *)
Theorem X19_sell_crops p :
  (forall kind, 0 <= cropCount (inventory (ent_extra p)) kind) ->
  let inv := inventory (ent_extra p) in
  let all := (handleSellCrops None p).1 in
  let each :=
    (handleSellCrops (Some POTATO)
       (handleSellCrops (Some CORN) (handleSellCrops (Some WHEAT) p).1).1).1 in
  (forall kind, cropCount (inventory (ent_extra all)) kind = 0 /\
                seedCount (inventory (ent_extra all)) kind = seedCount inv kind) /\
  (money (ent_extra all)
   == money (ent_extra p)
      + inject_Z (cropCount inv WHEAT * CROP_PRICES WHEAT
                  + cropCount inv CORN * CROP_PRICES CORN
                  + cropCount inv POTATO * CROP_PRICES POTATO))%Q /\
  (forall kind,
     cropCount (inventory (ent_extra (handleSellCrops (Some kind) p).1)) kind = 0 /\
     sameButCrop inv (inventory (ent_extra (handleSellCrops (Some kind) p).1)) kind /\
     (money (ent_extra (handleSellCrops (Some kind) p).1)
      == money (ent_extra p) + inject_Z (cropCount inv kind * CROP_PRICES kind))%Q) /\
  inventory (ent_extra each) = inventory (ent_extra all) /\
  (money (ent_extra each) == money (ent_extra all))%Q.
Proof.
  intros Hpos. cbv zeta.
  destruct (handleSellCrops_all p Hpos) as (Hinv & Hmoney & _). cbv zeta in Hinv, Hmoney.
  split; [| split; [| split]].
  - intros kind. rewrite Hinv. destruct kind; split; reflexivity.
  - rewrite Hmoney. cbn [cropCount]. rewrite !inject_Z_plus. ring.
  - intros kind. destruct (handleSellCrops_one p kind (Hpos kind)) as (H1 & H2 & _).
    cbv zeta in H1, H2. rewrite H1, H2. rewrite cropCount_set.
    destruct (decide (kind = kind)); [| contradiction].
    split; [reflexivity |]. split; [apply sameButCrop_set | reflexivity].
  - destruct (handleSellCrops_one p WHEAT (Hpos WHEAT)) as (W1 & W2 & _).
    cbv zeta in W1, W2.
    set (p1 := (handleSellCrops (Some WHEAT) p).1) in *.
    assert (Hc : 0 <= cropCount (inventory (ent_extra p1)) CORN).
    { rewrite W1. rewrite cropCount_set. destruct (decide (WHEAT = CORN)); [lia |].
      apply Hpos. }
    destruct (handleSellCrops_one p1 CORN Hc) as (C1 & C2 & _). cbv zeta in C1, C2.
    set (p2 := (handleSellCrops (Some CORN) p1).1) in *.
    assert (Hp : 0 <= cropCount (inventory (ent_extra p2)) POTATO).
    { rewrite C1, W1. rewrite !cropCount_set.
      destruct (decide (CORN = POTATO)); [lia |].
      destruct (decide (WHEAT = POTATO)); [lia |]. apply Hpos. }
    destruct (handleSellCrops_one p2 POTATO Hp) as (P1 & P2 & _). cbv zeta in P1, P2.
    rewrite P1, P2, C1, C2, W1, W2, Hinv, Hmoney.
    destruct (inventory (ent_extra p)) as [a b c d e f0].
    cbn [setCropCount cropCount wheat corn potato wheatSeeds cornSeeds potatoSeeds].
    split; [reflexivity |]. rewrite !inject_Z_plus. ring.
Qed.

Lemma X19_witness :
  (forall kind, cropCount (inventory (ent_extra (handleSellCrops None playerWithCrops).1)) kind
                = 0 /\
                seedCount (inventory (ent_extra (handleSellCrops None playerWithCrops).1)) kind
                = seedCount (inventory (ent_extra playerWithCrops)) kind) /\
  (money (ent_extra (handleSellCrops None playerWithCrops).1) == 100 + inject_Z 106)%Q.
Proof.
  destruct (X19_sell_crops playerWithCrops) as (H1 & H2 & _).
  - intros kind. destruct kind; vm_compute; discriminate.
  - split; [exact H1 |]. rewrite H2. reflexivity.
Defined.

Lemma handleBuildSilo_built p (silos : list Silo) :
  siloBuilt (ent_extra p) = true ->
  handleBuildSilo p silos = (p, silos, [("Silo already built!"%string, 1500)]).
Proof. intros H. unfold handleBuildSilo. rewrite H. reflexivity. Qed.

Lemma handleBuildSilo_poor p (silos : list Silo) :
  siloBuilt (ent_extra p) = false -> (money (ent_extra p) < STRUCTURE_PRICE_silo)%Q ->
  handleBuildSilo p silos = (p, silos, [("Not enough money to build silo!"%string, 1500)]).
Proof.
  intros H Hpoor. unfold handleBuildSilo. rewrite H. unfold Qgeb.
  replace (Qle_bool STRUCTURE_PRICE_silo (money (ent_extra p))) with false; [reflexivity |].
  symmetry. apply not_true_is_false. intros Hle. apply Qle_bool_iff in Hle. lra.
Qed.

Lemma handleBuildSilo_pays p (silos : list Silo) :
  siloBuilt (ent_extra p) = false -> (STRUCTURE_PRICE_silo <= money (ent_extra p))%Q ->
  handleBuildSilo p silos =
  (withExtra p (mkPlayerX (p_speed (ent_extra p)) (p_jumpPower (ent_extra p))
                          (p_isInVehicle (ent_extra p)) (p_facing (ent_extra p))
                          (inventory (ent_extra p))
                          (money (ent_extra p) - STRUCTURE_PRICE_silo)
                          (maxStorage (ent_extra p) + 200) true),
   silos ++ [newSilo], [("Silo built! Max storage increased!"%string, 1500)]).
Proof.
  intros H Hrich. unfold handleBuildSilo. rewrite H. unfold Qgeb.
  replace (Qle_bool STRUCTURE_PRICE_silo (money (ent_extra p))) with true; [reflexivity |].
  symmetry. apply Qle_bool_iff. exact Hrich.
Qed.

(** X20.  The silo is built at most once: a player without a silo whose
    money covers the price pays it, gets 200 more storage and one silo more
    in the world; a player with a silo, or without the money, changes
    nothing; and a second request, on what the first one left, never changes
    player or silos whatever the first one did.  Storage never shrinks and
    money that was not negative stays so. *)
Theorem X20_build_silo p (silos : list Silo) :
  let built := (handleBuildSilo p silos).1 in
  (siloBuilt (ent_extra p) = false -> (STRUCTURE_PRICE_silo <= money (ent_extra p))%Q ->
   siloBuilt (ent_extra built.1) = true /\
   maxStorage (ent_extra built.1) = maxStorage (ent_extra p) + 200 /\
   money (ent_extra built.1) = (money (ent_extra p) - STRUCTURE_PRICE_silo)%Q /\
   inventory (ent_extra built.1) = inventory (ent_extra p) /\
   built.2 = silos ++ [newSilo]) /\
  (siloBuilt (ent_extra p) = true \/ (money (ent_extra p) < STRUCTURE_PRICE_silo)%Q ->
   built = (p, silos)) /\
  (handleBuildSilo built.1 built.2).1 = built /\
  maxStorage (ent_extra p) <= maxStorage (ent_extra built.1) /\
  ((0 <= money (ent_extra p))%Q -> (0 <= money (ent_extra built.1))%Q).
Proof.
  cbv zeta.
  destruct (siloBuilt (ent_extra p)) eqn:Ebuilt.
  - rewrite (handleBuildSilo_built p silos Ebuilt). cbn [fst snd].
    rewrite (handleBuildSilo_built p silos Ebuilt). cbn [fst].
    split; [intros; discriminate |]. split; [reflexivity |].
    split; [reflexivity |]. split; [lia | auto].
  - destruct (Qlt_le_dec (money (ent_extra p)) STRUCTURE_PRICE_silo) as [Hpoor | Hrich].
    + rewrite (handleBuildSilo_poor p silos Ebuilt Hpoor). cbn [fst snd].
      rewrite (handleBuildSilo_poor p silos Ebuilt Hpoor). cbn [fst].
      split; [intros _ Hle; exfalso; lra |]. split; [reflexivity |].
      split; [reflexivity |]. split; [lia | auto].
    + rewrite (handleBuildSilo_pays p silos Ebuilt Hrich). cbn [fst snd].
      rewrite handleBuildSilo_built by (destruct p; reflexivity). cbn [fst].
      destruct p as [x y w h vx vy g [s j i f inv m ms sb]].
      cbn [withExtra ent_extra siloBuilt money maxStorage inventory] in *.
      unfold STRUCTURE_PRICE_silo in *.
      split; [intros _ _; repeat split; reflexivity |].
      split; [intros [Hb | Hlt]; [discriminate | exfalso; lra] |].
      split; [reflexivity |]. split; [lia | intros _; lra].
Qed.

Lemma X20_witness :
  siloBuilt (ent_extra (handleBuildSilo richPlayer []).1.1) = true /\
  maxStorage (ent_extra (handleBuildSilo richPlayer []).1.1)
  = maxStorage (ent_extra richPlayer) + 200 /\
  money (ent_extra (handleBuildSilo richPlayer []).1.1)
  = (money (ent_extra richPlayer) - STRUCTURE_PRICE_silo)%Q /\
  inventory (ent_extra (handleBuildSilo richPlayer []).1.1) = inventory (ent_extra richPlayer) /\
  (handleBuildSilo richPlayer []).1.2 = [] ++ [newSilo].
Proof.
  destruct (X20_build_silo richPlayer []) as [Hbuilds _].
  apply Hbuilds; [reflexivity | vm_compute; discriminate].
Defined.

End Shop.

Section PlayerInvariant.
Implicit Types (p : Player) (world : World) (kind : CropType).

Lemma playerInv_same p p' :
  money (ent_extra p') = money (ent_extra p) ->
  inventory (ent_extra p') = inventory (ent_extra p) ->
  maxStorage (ent_extra p') = maxStorage (ent_extra p) ->
  playerInv p -> playerInv p'.
Proof. unfold playerInv. intros -> -> ->. auto. Qed.

Lemma playerInv_seeds p kind (n : Z) :
  0 <= n -> playerInv p ->
  playerInv (setInventory p (setSeedCount (inventory (ent_extra p)) kind n)).
Proof.
  intros Hn [Hmoney Hcounts].
  destruct p as [x y w h vx vy g [s j i f inv m ms sb]].
  unfold playerInv. cbn [setInventory withExtra ent_extra money inventory maxStorage] in *.
  split; [exact Hmoney |]. intros k. rewrite seedCount_set, cropCount_set_seed.
  destruct (decide (kind = k)); specialize (Hcounts k); lia.
Qed.

Lemma playerInv_crops p kind (n : Z) :
  0 <= n <= maxStorage (ent_extra p) -> playerInv p ->
  playerInv (setInventory p (setCropCount (inventory (ent_extra p)) kind n)).
Proof.
  intros Hn [Hmoney Hcounts].
  destruct p as [x y w h vx vy g [s j i f inv m ms sb]].
  unfold playerInv. cbn [setInventory withExtra ent_extra money inventory maxStorage] in *.
  split; [exact Hmoney |]. intros k. rewrite seedCount_set_crop, cropCount_set.
  destruct (decide (kind = k)); specialize (Hcounts k); lia.
Qed.

Lemma handleTillSoil_player world p : (handleTillSoil world p).1.2 = p.
Proof.
  unfold handleTillSoil.
  destruct (isInVehicle p); [reflexivity |].
  destruct (Z.of_nat (length world) =? 0); [reflexivity |].
  destruct ((targetTileY p <? WORLD_HEIGHT_TILES) && (targetTileX p <? WORLD_WIDTH_TILES));
    [| reflexivity].
  destruct (mapTiles _ world). reflexivity.
Qed.

Lemma handlePlantCrop_player world p (selected : CropType) (now : Z) world' p' shown :
  handlePlantCrop world p selected now = Ok (world', p', shown) ->
  p' = p \/
  (0 < seedCount (inventory (ent_extra p)) selected /\
   p' = setInventory p
          (setSeedCount (inventory (ent_extra p)) selected
             (seedCount (inventory (ent_extra p)) selected - 1))).
Proof.
  unfold handlePlantCrop.
  destruct (isInVehicle p); [intros H; injection H as _ <- _; left; reflexivity |].
  destruct (Z.of_nat (length world) =? 0);
    [intros H; injection H as _ <- _; left; reflexivity |].
  destruct ((targetTileY p <? WORLD_HEIGHT_TILES) && (targetTileX p <? WORLD_WIDTH_TILES));
    [| intros H; injection H as _ <- _; left; reflexivity].
  destruct (getTile world (targetTileY p) (targetTileX p)) as [tile |]; [| discriminate].
  destruct (TileType_eqb (type tile) TILLED && negb (hasCrop tile)).
  - destruct (Z.gtb_spec (seedCount (inventory (ent_extra p)) selected) 0) as [Hgt | Hle].
    + destruct (mapTiles _ world). intros H. injection H as _ <- _. right.
      split; [lia | reflexivity].
    + intros H. injection H as _ <- _. left. reflexivity.
  - destruct (hasCrop tile); intros H; injection H as _ <- _; left; reflexivity.
Qed.

Lemma handleHarvestCrop_player world p world' p' shown :
  handleHarvestCrop world p = Ok (world', p', shown) ->
  p' = p \/
  exists kind,
    cropCount (inventory (ent_extra p)) kind < maxStorage (ent_extra p) /\
    p' = setInventory p
           (setCropCount (inventory (ent_extra p)) kind
              (cropCount (inventory (ent_extra p)) kind + 1)).
Proof.
  unfold handleHarvestCrop.
  destruct (isInVehicle p); [intros H; injection H as _ <- _; left; reflexivity |].
  destruct (Z.of_nat (length world) =? 0);
    [intros H; injection H as _ <- _; left; reflexivity |].
  destruct ((targetTileY p <? WORLD_HEIGHT_TILES) && (targetTileX p <? WORLD_WIDTH_TILES));
    [| intros H; injection H as _ <- _; left; reflexivity].
  destruct (getTile world (targetTileY p) (targetTileX p)) as [tile |]; [| discriminate].
  destruct (matureCrop tile) as [c |].
  - destruct (Z.ltb_spec (cropCount (inventory (ent_extra p)) (crop_type c))
                (maxStorage (ent_extra p))) as [Hlt | Hge].
    + destruct (mapTiles _ world). intros H. injection H as _ <- _. right.
      exists (crop_type c). split; [exact Hlt | reflexivity].
    + intros H. injection H as _ <- _. left. reflexivity.
  - destruct (crop tile) as [c |];
      [destruct (negb (stage c =? MATURE)) |];
      intros H; injection H as _ <- _; left; reflexivity.
Qed.

Lemma applySeederAction_player (tractor : Vehicle) (seeder : Attachment) world p
  (selected : CropType) (now : Z) world' p' shown :
  applySeederAction tractor seeder world p selected now = Ok (world', p', shown) ->
  p' = p \/
  exists consumed,
    0 < consumed <= seedCount (inventory (ent_extra p)) selected /\
    p' = setInventory p
           (setSeedCount (inventory (ent_extra p)) selected
              (seedCount (inventory (ent_extra p)) selected - consumed)).
Proof.
  unfold applySeederAction.
  destruct (implementIdle tractor Seeder);
    [intros H; injection H as _ <- _; left; reflexivity |].
  destruct (Z.of_nat (length world) =? 0);
    [intros H; injection H as _ <- _; left; reflexivity |].
  destruct (forZ _ _ _ _) as [[[nw consumed] sh] |] eqn:Eloop; [| discriminate].
  unfold forZ in Eloop.
  assert (Hcons : consumedWithin p selected (nw, consumed, sh)).
  { eapply (for_range_preserve (consumedWithin p selected)); [| | exact Eloop].
    - unfold consumedWithin. cbn. lia.
    - intros j s0 s1 Hs0. apply seederStep_consumed. exact Hs0. }
  unfold consumedWithin in Hcons. cbn [fst snd] in Hcons.
  destruct (Z.gtb_spec consumed 0) as [Hgt | Hle]; intros H; injection H as _ <- _.
  - right. exists consumed. split; [lia | reflexivity].
  - left. reflexivity.
Qed.

Lemma applyCombineAction_player (combineHarvester : Vehicle) world p world' p' shown :
  applyCombineAction combineHarvester world p = Ok (world', p', shown) ->
  money (ent_extra p') = money (ent_extra p) /\
  maxStorage (ent_extra p') = maxStorage (ent_extra p) /\
  (forall kind, seedCount (inventory (ent_extra p')) kind
                = seedCount (inventory (ent_extra p)) kind) /\
  (forall kind,
     cropCount (inventory (ent_extra p')) kind = cropCount (inventory (ent_extra p)) kind \/
     (cropCount (inventory (ent_extra p)) kind < cropCount (inventory (ent_extra p')) kind /\
      cropCount (inventory (ent_extra p')) kind <= maxStorage (ent_extra p))).
Proof.
  intros Hrun.
  destruct (applyCombineAction_credit combineHarvester world p world' p' shown Hrun)
    as [Hmax Hcrops].
  split; [| split; [exact Hmax |]; split; [| exact Hcrops]];
    revert Hrun; unfold applyCombineAction;
    (destruct (combineIdle combineHarvester);
     [intros H; injection H as _ <- _; reflexivity |]);
    (destruct (Z.of_nat (length world) =? 0);
     [intros H; injection H as _ <- _; reflexivity |]);
    destruct (headerSpan combineHarvester) as [startX endX];
    (destruct (forZ _ _ _ _) as [[[nw harvested] sh] |]; [| discriminate]);
    destruct ((h_wheat harvested >? 0) || (h_corn harvested >? 0) ||
              (h_potato harvested >? 0));
    intros H; injection H as _ <- _; try reflexivity;
    destruct p as [x y w h vx vy g [s j i f [a b c d e f0] m ms sb]];
    try reflexivity; intros kind; destruct kind; reflexivity.
Qed.

Lemma handlePlayerMovement_account keys p :
  money (ent_extra (handlePlayerMovement keys p)) = money (ent_extra p) /\
  inventory (ent_extra (handlePlayerMovement keys p)) = inventory (ent_extra p) /\
  maxStorage (ent_extra (handlePlayerMovement keys p)) = maxStorage (ent_extra p).
Proof.
  unfold handlePlayerMovement.
  destruct (isInVehicle p); [repeat split |].
  destruct (key_a keys || key_arrowleft keys);
    [| destruct (key_d keys || key_arrowright keys)];
    destruct ((key_w keys || key_arrowup keys) && ent_onGround p); repeat split.
Qed.

Lemma handleEnterExitVehicle_account p (tractor combineHarvester : Vehicle) :
  money (ent_extra (handleEnterExitVehicle p tractor combineHarvester).1.1.1)
  = money (ent_extra p) /\
  inventory (ent_extra (handleEnterExitVehicle p tractor combineHarvester).1.1.1)
  = inventory (ent_extra p) /\
  maxStorage (ent_extra (handleEnterExitVehicle p tractor combineHarvester).1.1.1)
  = maxStorage (ent_extra p).
Proof.
  unfold handleEnterExitVehicle.
  destruct (isInVehicle p).
  - destruct (currentVehicle tractor combineHarvester) as [v |]; [| repeat split].
    destruct (markVehicle v false tractor combineHarvester). repeat split.
  - destruct (closestVehicle p [tractor; combineHarvester]) as [v |]; [| repeat split].
    destruct (markVehicle v true tractor combineHarvester). repeat split.
Qed.

Lemma playerStep_inv p p' : playerStep p p' -> playerInv p -> playerInv p'.
Proof.
  intros Hstep Hinv. destruct Hstep.
  - destruct (handlePlayerMovement_account keys p) as (H1 & H2 & H3).
    exact (playerInv_same _ _ H1 H2 H3 Hinv).
  - destruct (PhysicsFacts.updateEntityPosition_frame p world WORLD_WIDTH_TILES p' H) as (_ & _ & Hextra).
    apply (playerInv_same p p'); [rewrite Hextra; reflexivity .. | exact Hinv].
  - destruct (handleEnterExitVehicle_account p tractor combineHarvester) as (H1 & H2 & H3).
    exact (playerInv_same _ _ H1 H2 H3 Hinv).
  - exact Hinv.
  - rewrite handleTillSoil_player. exact Hinv.
  - destruct (handlePlantCrop_player _ _ _ _ _ _ _ H) as [-> | [Hseeds ->]];
      [exact Hinv |].
    apply playerInv_seeds; [lia | exact Hinv].
  - destruct (handleHarvestCrop_player _ _ _ _ _ H) as [-> | (kind & Hroom & ->)];
      [exact Hinv |].
    apply playerInv_crops; [| exact Hinv].
    destruct Hinv as [_ Hcounts]. specialize (Hcounts kind). lia.
  - destruct (applySeederAction_player _ _ _ _ _ _ _ _ _ H)
      as [-> | (consumed & Hcons & ->)]; [exact Hinv |].
    apply playerInv_seeds; [lia | exact Hinv].
  - destruct (applyCombineAction_player _ _ _ _ _ _ H) as (Hm & Hmax & Hseeds & Hcrops).
    destruct Hinv as [Hmoney Hcounts]. split; [rewrite Hm; exact Hmoney |].
    intros kind. specialize (Hcounts kind). rewrite Hseeds, Hmax.
    destruct (Hcrops kind) as [-> | [Hlt Hle]]; lia.
  - unfold handleBuySeeds. unfold Qgeb.
    destruct (Qle_bool (SEED_PRICES kind * inject_Z quantity) (money (ent_extra p))) eqn:E;
      [| exact Hinv].
    apply Qle_bool_iff in E. destruct Hinv as [Hmoney Hcounts]. cbn [fst].
    destruct p as [x y w h vx vy g [s j i f inv m ms sb]].
    unfold playerInv.
    cbn [setInventory setMoney withExtra ent_extra money inventory maxStorage] in *.
    split; [lra |]. intros k. rewrite seedCount_set, cropCount_set_seed.
    pose proof (Hcounts kind) as Hkind. specialize (Hcounts k).
    destruct (decide (kind = k)); lia.
  - assert (Hpos : forall kind, 0 <= cropCount (inventory (ent_extra p)) kind)
      by (intros kind; apply (proj2 Hinv kind)).
    assert (Hprice : forall kind, 0 < CROP_PRICES kind) by (intros []; reflexivity).
    destruct Hinv as [Hmoney Hcounts].
    destruct cropTypeToSell as [kind |].
    + destruct (handleSellCrops_one p kind (Hpos kind)) as (H1 & H2 & H3 & _).
      cbv zeta in H1, H2. split.
      * rewrite H2. pose proof (Hpos kind). specialize (Hprice kind).
        assert (0 <= cropCount (inventory (ent_extra p)) kind * CROP_PRICES kind) by nia.
        assert (Hq : (0 <= inject_Z (cropCount (inventory (ent_extra p)) kind
                                     * CROP_PRICES kind))%Q)
          by (change 0%Q with (inject_Z 0); rewrite <- Zle_Qle; assumption).
        lra.
      * intros k. rewrite H1, H3, seedCount_set_crop, cropCount_set.
        specialize (Hcounts k). destruct (decide (kind = k)); lia.
    + destruct (handleSellCrops_all p Hpos) as (H1 & H2 & H3).
      cbv zeta in H1, H2. split.
      * rewrite H2.
        pose proof (Hpos WHEAT) as Pw. pose proof (Hpos CORN) as Pc.
        pose proof (Hpos POTATO) as Pp. cbn [cropCount] in Pw, Pc, Pp.
        cbn [CROP_PRICES].
        set (inv := inventory (ent_extra p)) in *.
        assert (Hq : (0 <= inject_Z (0 + wheat inv * 10 + corn inv * 15 + potato inv * 12))%Q)
          by (change 0%Q with (inject_Z 0); rewrite <- Zle_Qle; lia).
        lra.
      * intros k. rewrite H1, H3. specialize (Hcounts k).
        destruct k; cbn [seedCount cropCount wheat corn potato wheatSeeds cornSeeds
                         potatoSeeds] in *; lia.
  - destruct Hinv as [Hmoney Hcounts].
    destruct (siloBuilt (ent_extra p)) eqn:Ebuilt.
    + rewrite (handleBuildSilo_built p silos Ebuilt). split; assumption.
    + destruct (Qlt_le_dec (money (ent_extra p)) STRUCTURE_PRICE_silo) as [Hpoor | Hrich].
      * rewrite (handleBuildSilo_poor p silos Ebuilt Hpoor). split; assumption.
      * rewrite (handleBuildSilo_pays p silos Ebuilt Hrich). cbn [fst].
        destruct p as [x y w h vx vy g [s j i f inv m ms sb]].
        unfold playerInv, STRUCTURE_PRICE_silo in *.
        cbn [withExtra ent_extra money inventory maxStorage] in *.
        split; [lra |]. intros k. specialize (Hcounts k). lia.
Qed.

Lemma initialPlayer_inv : playerInv initialPlayer.
Proof. split; [vm_compute; discriminate |]. intros []; vm_compute; repeat split; discriminate. Qed.

(** X21.  In every state the player object can come to from the start of a
    new session through the handlers of the game (walking, physics, entering
    and leaving, riding, tilling, planting, harvesting, the seeder, the
    combine, and the shop's buying, selling and building), the money is not
    negative, no seed or crop count is negative, and no crop count is above
    the storage limit. *)
Theorem X21_player_invariant p : reachablePlayer p -> playerInv p.
Proof.
  intros Hreach. induction Hreach as [| p p' _ IH Hstep].
  - exact initialPlayer_inv.
  - exact (playerStep_inv p p' Hstep IH).
Qed.

(** A player who buys ten wheat seeds, plants one on tilled soil, harvests
    ripe wheat and sells it. *)
Lemma X21_witness :
  exists p,
    reachablePlayer p /\ playerInv p /\
    (money (ent_extra p) == 90)%Q /\
    seedCount (inventory (ent_extra p)) WHEAT = 59 /\
    cropCount (inventory (ent_extra p)) WHEAT = 0.
Proof.
  pose (p1 := (handleBuySeeds WHEAT 10 initialPlayer).1).
  pose (tilled := setTile generateWorld (targetTileY initialPlayer)
                          (targetTileX initialPlayer) (mkTile TILLED None)).
  pose (p2 := match handlePlantCrop tilled p1 WHEAT 0 with
              | Ok (_, q, _) => q
              | TypeError => p1
              end).
  pose (p3 := match handleHarvestCrop ripeField p2 with
              | Ok (_, q, _) => q
              | TypeError => p2
              end).
  pose (p4 := (handleSellCrops None p3).1).
  assert (Hreach : reachablePlayer p4).
  { eapply reach_player_next; [| apply (pstep_sell None p3)].
    eapply reach_player_next;
      [| eapply (pstep_harvest ripeField p2 _ p3 _); vm_compute; reflexivity].
    eapply reach_player_next;
      [| eapply (pstep_plant tilled p1 WHEAT 0 _ p2 _); vm_compute; reflexivity].
    eapply reach_player_next; [apply reach_player_start |].
    apply (pstep_buy WHEAT 10 initialPlayer). lia. }
  exists p4. split; [exact Hreach |].
  split; [apply (X21_player_invariant p4 Hreach) |].
  split; [vm_compute; reflexivity |]. split; vm_compute; reflexivity.
Defined.

End PlayerInvariant.

Section VehicleInvariant.
Implicit Types (v : Vehicle) (kind : VehicleType).

(** The rows of the upgrade tables: the row at index [i] has level [i], a
    tank that is not negative, and a price. *)
Lemma tier_at kind (i : Z) (t : Tier) :
  js_index (VEHICLE_UPGRADE_TIERS kind) i = Some t ->
  tier_level t = i /\ 0 <= i <= 2 /\ (0 <= tier_maxFuel t)%Q /\ (0 < tier_speed t)%Q /\
  (0 <= tier_cost t)%Q.
Proof.
  intros H. apply js_index_Some in H. destruct H as [Hi H].
  assert (Hn : (Z.to_nat i < 3)%nat).
  { apply lookup_lt_Some in H. destruct kind; exact H. }
  assert (Hcases : i = 0 \/ i = 1 \/ i = 2) by lia.
  destruct Hcases as [-> | [-> | ->]]; destruct kind; cbn in H; injection H as <-;
    cbn; repeat split; try lia; try discriminate; try reflexivity.
Qed.

Lemma tiers_length kind : Z.of_nat (length (VEHICLE_UPGRADE_TIERS kind)) = 3.
Proof. destruct kind; reflexivity. Qed.

(** What an upgrade request does, by the three cases of the handler. *)
Lemma upgradeVehicle_cases kind (playerMoney : Q) v :
  0 <= upgradeLevel (ent_extra v) ->
  (2 <= upgradeLevel (ent_extra v) /\
   upgradeVehicle kind playerMoney v
   = Ok (v, [((upgradeName kind ++ " is already max level!")%string, 1500)])) \/
  (exists t,
     js_index (VEHICLE_UPGRADE_TIERS kind) (upgradeLevel (ent_extra v) + 1) = Some t /\
     ((tier_cost t <= playerMoney)%Q /\
      upgradeVehicle kind playerMoney v
      = Ok (applyTier v t (upgradeLevel (ent_extra v) + 1),
            [((upgradeName kind ++ " upgraded to level "
               ++ showInteger (upgradeLevel (ent_extra v) + 1) ++ "!")%string, 1500)])
      \/
      (playerMoney < tier_cost t)%Q /\
      upgradeVehicle kind playerMoney v
      = Ok (v, [(("Not enough money to upgrade " ++ upgradeTarget kind ++ "!")%string,
                 1500)]))).
Proof.
  intros Hlevel. unfold upgradeVehicle. rewrite tiers_length.
  destruct (Z.geb_spec (upgradeLevel (ent_extra v) + 1) 3) as [Hmax | Hlow].
  - left. split; [lia | reflexivity].
  - right.
    destruct (js_index_in_range (VEHICLE_UPGRADE_TIERS kind) (upgradeLevel (ent_extra v) + 1))
      as [t Ht]; [rewrite tiers_length; lia |].
    exists t. split; [exact Ht |]. rewrite Ht. unfold Qgeb.
    destruct (Qle_bool (tier_cost t) playerMoney) eqn:E.
    + apply Qle_bool_iff in E. left. split; [exact E | reflexivity].
    + apply Qle_bool_false_lt in E. right. split; [exact E | reflexivity].
Qed.

(** X22.  Upgrading a vehicle at a level that is not negative never fails
    and shows one message.  At level 2 or above nothing changes.  Below, the
    row of the upgrade table for the next level decides: when the player's
    money reaches its price, the level goes up by exactly one to the level
    that the row names, which is at most 2, speed and tank size become the
    row's, the tank is filled, and position, occupancy, equipment and fuel
    consumption stay; otherwise nothing changes.  At a level below -1 the
    request dies with a TypeError. *)
Theorem X22_upgrade_vehicle kind (playerMoney : Q) v :
  (0 <= upgradeLevel (ent_extra v) ->
   exists v' message,
     upgradeVehicle kind playerMoney v = Ok (v', [message]) /\
     (2 <= upgradeLevel (ent_extra v) -> v' = v) /\
     (upgradeLevel (ent_extra v) < 2 ->
      exists t,
        js_index (VEHICLE_UPGRADE_TIERS kind) (upgradeLevel (ent_extra v) + 1) = Some t /\
        tier_level t = upgradeLevel (ent_extra v) + 1 /\
        ((playerMoney < tier_cost t)%Q -> v' = v) /\
        ((tier_cost t <= playerMoney)%Q ->
         upgradeLevel (ent_extra v') = upgradeLevel (ent_extra v) + 1 /\
         upgradeLevel (ent_extra v') <= 2 /\
         v_speed (ent_extra v') = tier_speed t /\
         maxFuel (ent_extra v') = tier_maxFuel t /\
         fuel (ent_extra v') = tier_maxFuel t /\
         v' = applyTier v t (tier_level t)))) /\
  (upgradeLevel (ent_extra v) < -1 -> upgradeVehicle kind playerMoney v = TypeError).
Proof.
  split.
  - intros Hlevel.
    destruct (upgradeVehicle_cases kind playerMoney v Hlevel)
      as [[Hmax Hrun] | (t & Ht & [[Hrich Hrun] | [Hpoor Hrun]])];
      rewrite Hrun; eexists _, _; (split; [reflexivity |]).
    + split; [reflexivity | intros Hlow; lia].
    + destruct (tier_at kind _ t Ht) as (Hlev & Hrange & _).
      split; [intros Hmax; lia |]. intros _. exists t.
      split; [exact Ht |]. split; [exact Hlev |].
      split; [intros Hpoor; exfalso; lra |]. intros _.
      rewrite Hlev. destruct v as [x y w h vx vy g [s j e hi i ty f fu mf fc ul]].
      cbn [applyTier withExtra ent_extra upgradeLevel v_speed maxFuel fuel] in *.
      repeat split; try reflexivity. lia.
    + destruct (tier_at kind _ t Ht) as (Hlev & Hrange & _).
      split; [reflexivity |]. intros _. exists t.
      split; [exact Ht |]. split; [exact Hlev |].
      split; [reflexivity |]. intros Hrich. exfalso. lra.
  - intros Hneg. unfold upgradeVehicle. rewrite tiers_length.
    replace (upgradeLevel (ent_extra v) + 1 >=? 3) with false
      by (symmetry; rewrite Z.geb_leb; apply Z.leb_gt; lia).
    unfold js_index.
    replace (upgradeLevel (ent_extra v) + 1 <? 0) with true
      by (symmetry; apply Z.ltb_lt; lia).
    reflexivity.
Qed.

Lemma X22_witness :
  exists v' message,
    upgradeVehicle Tractor 200 initialTractor = Ok (v', [message]) /\
    upgradeLevel (ent_extra v') = 1 /\ v_speed (ent_extra v') = (35 # 10)%Q /\
    maxFuel (ent_extra v') = 150%Q /\ fuel (ent_extra v') = 150%Q.
Proof.
  destruct (X22_upgrade_vehicle Tractor 200 initialTractor) as [Hruns _].
  destruct Hruns as (v' & message & Hrun & _ & Hlow); [vm_compute; discriminate |].
  destruct Hlow as (t & Ht & _ & _ & Hrich); [vm_compute; reflexivity |].
  vm_compute in Ht. injection Ht as <-.
  destruct Hrich as (H1 & _ & H3 & H4 & H5 & _); [vm_compute; discriminate |].
  exists v', message. split; [exact Hrun |]. split; [exact H1 |].
  split; [exact H3 |]. split; [exact H4 | exact H5].
Defined.

Lemma vehicleInv_same v v' :
  ent_extra v' = ent_extra v -> vehicleInv v -> vehicleInv v'.
Proof. unfold vehicleInv. intros ->. auto. Qed.

Lemma handleHitchClosestAttachment_tank v (plow seeder : Attachment) :
  let v' := (handleHitchClosestAttachment v plow seeder).1.1.1 in
  fuel (ent_extra v') = fuel (ent_extra v) /\ maxFuel (ent_extra v') = maxFuel (ent_extra v) /\
  fuelConsumption (ent_extra v') = fuelConsumption (ent_extra v) /\
  upgradeLevel (ent_extra v') = upgradeLevel (ent_extra v) /\
  v_type (ent_extra v') = v_type (ent_extra v).
Proof.
  cbv zeta. unfold handleHitchClosestAttachment.
  destruct (negb (v_isInVehicle (ent_extra v))); [repeat split |].
  destruct (v_equipment (ent_extra v)) as [equipment |].
  - destruct (markAttachment _ false plow seeder). repeat split.
  - destruct (closestAttachment v [plow; seeder]) as [closest |]; [| repeat split].
    destruct (markAttachment _ true plow seeder). repeat split.
Qed.

Lemma vehicleStep_inv v v' : vehicleStep v v' -> vehicleInv v -> vehicleInv v'.
Proof.
  intros Hstep (Hlow & Hhigh & Hcons & Hlevel). destruct Hstep.
  - destruct (handleTractorMovement_tank keys v)
      as (_ & H2 & H3 & _ & H5 & H6 & H7 & H8 & _).
    unfold vehicleInv. rewrite H5, H6, H7, H8.
    specialize (H2 Hlow). specialize (H3 Hcons). repeat split; try assumption; try lra; lia.
  - rewrite handleCombineMovement_same.
    destruct (handleTractorMovement_tank keys v)
      as (_ & H2 & H3 & _ & H5 & H6 & H7 & H8 & _).
    unfold vehicleInv. rewrite H5, H6, H7, H8.
    specialize (H2 Hlow). specialize (H3 Hcons). repeat split; try assumption; try lra; lia.
  - destruct (PhysicsFacts.updateEntityPosition_frame v world WORLD_WIDTH_TILES v' H)
      as (_ & _ & Hextra).
    apply (vehicleInv_same v v' Hextra). repeat split; assumption || lia.
  - destruct v as [x y w h vx vy g [s j e hi i ty f fu mf fc ul]].
    unfold vehicleInv in *. cbn in *. repeat split; assumption || lia.
  - destruct (handleHitchClosestAttachment_tank v plow seeder) as (H1 & H2 & H3 & H4 & H5).
    cbv zeta in *. unfold vehicleInv. rewrite H1, H2, H3, H4, H5.
    repeat split; assumption || lia.
  - unfold refuel. destruct (v_isInVehicle (ent_extra v));
      [| repeat split; assumption || lia].
    destruct v as [x y w h vx vy g [s j e hi i ty f fu mf fc ul]].
    unfold vehicleInv in *. cbn in *. repeat split; try assumption; try lra; lia.
  - assert (Hge : 0 <= upgradeLevel (ent_extra v)) by lia.
    destruct (upgradeVehicle_cases kind playerMoney v Hge)
      as [[_ Hrun] | (t & Ht & [[_ Hrun] | [_ Hrun]])];
      rewrite Hrun in H; injection H as <- _;
      try (repeat split; assumption || lia).
    destruct (tier_at kind _ t Ht) as (_ & Hrange & Htank & _).
    destruct v as [x y w h vx vy g [s j e hi i ty f fu mf fc ul]].
    unfold vehicleInv in *.
    cbn [applyTier withExtra ent_extra fuel maxFuel fuelConsumption upgradeLevel v_type] in *.
    rewrite tiers_length in *. repeat split; try assumption; try lra; lia.
Qed.

Lemma initialVehicles_inv : vehicleInv initialTractor /\ vehicleInv initialCombineHarvester.
Proof. split; vm_compute; repeat split; discriminate. Qed.

(** X23.  In every state a vehicle object can come to from the start of a
    new session through the handlers of the game (driving, physics, entering
    and leaving, hitching, refuelling, upgrading), the fuel is between zero
    and the tank size, the fuel consumption is not negative, and the upgrade
    level is an index of the upgrade table. *)
Theorem X23_vehicle_invariant v : reachableVehicle v -> vehicleInv v.
Proof.
  intros Hreach. induction Hreach as [| | v v' _ IH Hstep].
  - apply initialVehicles_inv.
  - apply initialVehicles_inv.
  - exact (vehicleStep_inv v v' Hstep IH).
Qed.

Lemma X23_witness :
  vehicleInv (refuel (handleTractorMovement keysRight occupiedTractor).1).
Proof.
  apply (X23_vehicle_invariant (refuel (handleTractorMovement keysRight occupiedTractor).1)).
  eapply reach_vehicle_next; [| apply vstep_refuel].
  eapply reach_vehicle_next; [| apply vstep_tractor].
  eapply reach_vehicle_next; [| apply (vstep_occupied initialTractor true)].
  apply reach_tractor_start.
Defined.

End VehicleInvariant.

(* ================================================================== *)
(** * Further properties: colours, time of day, camera, clouds *)
(* ================================================================== *)

Section ColourFacts.

Lemma toInt32_small (z : Z) :
  - 2 ^ 31 <= z < 2 ^ 31 -> Celestial.toInt32 z = z.
Proof.
  intros Hz. unfold Celestial.toInt32. rewrite Z.mod_small; lia.
Qed.

Lemma land_shifted (a b n : Z) : 0 <= n -> 0 <= b < 2 ^ n -> Z.land (a * 2 ^ n) b = 0.
Proof.
  intros Hn Hb. apply Z.bits_inj'. intros i Hi.
  rewrite Z.land_spec, Z.bits_0.
  destruct (Z.lt_ge_cases i n) as [Hlow | Hhigh].
  - rewrite Z.mul_pow2_bits_low by exact Hlow. reflexivity.
  - assert (Hbit : Z.testbit b i = false).
    { destruct (Z.eq_dec b 0) as [-> | Hnz]; [apply Z.bits_0 |].
      apply Z.bits_above_log2; [lia |].
      apply Z.log2_lt_pow2; [lia |].
      assert (2 ^ n <= 2 ^ i) by (apply Z.pow_le_mono_r; lia). lia. }
    rewrite Hbit. apply andb_false_r.
Qed.

Lemma lor_shifted (a b n : Z) : 0 <= n -> 0 <= b < 2 ^ n -> Z.lor (a * 2 ^ n) b = a * 2 ^ n + b.
Proof.
  intros Hn Hb. pose proof (Z.add_lor_land (a * 2 ^ n) b) as H.
  rewrite land_shifted in H by assumption. lia.
Qed.

(** The number whose hexadecimal digits [rgbToHex] prints. *)
Lemma packed_bytes (r g b : Z) :
  isByte r -> isByte g -> isByte b ->
  Celestial.js_or
    (Celestial.js_or
       (Celestial.js_or (Celestial.js_shl 1 24)
                        (Celestial.js_shl (Celestial.numToInt32 (Some r)) 16))
       (Celestial.js_shl (Celestial.numToInt32 (Some g)) 8))
    (Celestial.numToInt32 (Some b))
  = 16777216 + 65536 * r + 256 * g + b.
Proof.
  unfold isByte. intros Hr Hg Hb.
  unfold Celestial.js_or, Celestial.js_shl, Celestial.numToInt32.
  rewrite !(toInt32_small r), !(toInt32_small g), !(toInt32_small b) by lia.
  rewrite !Z.shiftl_mul_pow2 by lia.
  rewrite (toInt32_small (1 * 2 ^ 24)) by lia.
  rewrite (toInt32_small (r * 2 ^ 16)) by lia.
  rewrite (toInt32_small (g * 2 ^ 8)) by lia.
  rewrite (lor_shifted 1 (r * 2 ^ 16) 24) by lia.
  replace (1 * 2 ^ 24 + r * 2 ^ 16) with ((256 + r) * 2 ^ 16) by lia.
  rewrite (lor_shifted (256 + r) (g * 2 ^ 8) 16) by lia.
  replace ((256 + r) * 2 ^ 16 + g * 2 ^ 8) with (((256 + r) * 256 + g) * 2 ^ 8) by lia.
  rewrite (lor_shifted ((256 + r) * 256 + g) b 8) by lia.
  lia.
Qed.

Lemma hex_digits_packed (n : Z) :
  16777216 <= n < 33554432 ->
  Celestial.hex_digits n =
  String (Celestial.hex_digit ((n / 16777216) mod 16))
    (String (Celestial.hex_digit ((n / 1048576) mod 16))
       (String (Celestial.hex_digit ((n / 65536) mod 16))
          (String (Celestial.hex_digit ((n / 4096) mod 16))
             (String (Celestial.hex_digit ((n / 256) mod 16))
                (String (Celestial.hex_digit ((n / 16) mod 16))
                   (String (Celestial.hex_digit ((n / 1) mod 16)) EmptyString)))))).
Proof.
  intros Hn. unfold Celestial.hex_digits.
  replace (n =? 0) with false by (symmetry; apply Z.eqb_neq; lia).
  assert (Hlog : Z.log2 n = 24) by (apply Z.log2_unique; lia).
  rewrite Hlog. reflexivity.
Qed.

Lemma parse_two_digits (d1 d0 : Z) :
  0 <= d1 < 16 -> 0 <= d0 < 16 ->
  Celestial.parseInt16
    (String (upper_ascii (Celestial.hex_digit d1))
       (String (upper_ascii (Celestial.hex_digit d0)) EmptyString))
  = Some (16 * d1 + d0).
Proof.
  intros H1 H0.
  assert (C1 : d1 = 0 \/ d1 = 1 \/ d1 = 2 \/ d1 = 3 \/ d1 = 4 \/ d1 = 5 \/ d1 = 6 \/ d1 = 7 \/
               d1 = 8 \/ d1 = 9 \/ d1 = 10 \/ d1 = 11 \/ d1 = 12 \/ d1 = 13 \/ d1 = 14 \/
               d1 = 15) by lia.
  assert (C0 : d0 = 0 \/ d0 = 1 \/ d0 = 2 \/ d0 = 3 \/ d0 = 4 \/ d0 = 5 \/ d0 = 6 \/ d0 = 7 \/
               d0 = 8 \/ d0 = 9 \/ d0 = 10 \/ d0 = 11 \/ d0 = 12 \/ d0 = 13 \/ d0 = 14 \/
               d0 = 15) by lia.
  clear H1 H0.
  repeat (destruct C1 as [-> | C1]);
    try subst d1; repeat (destruct C0 as [-> | C0]); try subst d0; reflexivity.
Qed.

Lemma parse_byteHex (z : Z) : isByte z -> Celestial.parseInt16 (byteHex z) = Some z.
Proof.
  unfold isByte. intros Hz. unfold byteHex.
  rewrite (parse_two_digits (z / 16) (z mod 16))
    by (Z.to_euclidean_division_equations; lia).
  f_equal. Z.to_euclidean_division_equations. lia.
Qed.

(** What [rgbToHex] prints for three bytes. *)
Lemma rgbToHex_bytes (r g b : Z) :
  isByte r -> isByte g -> isByte b ->
  Celestial.rgbToHex (Some r) (Some g) (Some b)
  = ("#" ++ byteHex r ++ byteHex g ++ byteHex b)%string.
Proof.
  intros Hr Hg Hb. unfold Celestial.rgbToHex.
  rewrite (packed_bytes r g b Hr Hg Hb).
  unfold isByte in *. unfold Celestial.toString16.
  replace (16777216 + 65536 * r + 256 * g + b <? 0) with false
    by (symmetry; apply Z.ltb_ge; lia).
  rewrite hex_digits_packed by lia.
  cbn [Celestial.slice1]. unfold toUpperCase.
  cbn [list_ascii_of_string List.map string_of_list_ascii]. unfold byteHex.
  cbn [String.append].
  replace ((16777216 + 65536 * r + 256 * g + b) / 1048576 mod 16) with (r / 16)
    by (Z.to_euclidean_division_equations; lia).
  replace ((16777216 + 65536 * r + 256 * g + b) / 65536 mod 16) with (r mod 16)
    by (Z.to_euclidean_division_equations; lia).
  replace ((16777216 + 65536 * r + 256 * g + b) / 4096 mod 16) with (g / 16)
    by (Z.to_euclidean_division_equations; lia).
  replace ((16777216 + 65536 * r + 256 * g + b) / 256 mod 16) with (g mod 16)
    by (Z.to_euclidean_division_equations; lia).
  replace ((16777216 + 65536 * r + 256 * g + b) / 16 mod 16) with (b / 16)
    by (Z.to_euclidean_division_equations; lia).
  replace ((16777216 + 65536 * r + 256 * g + b) / 1 mod 16) with (b mod 16)
    by (Z.to_euclidean_division_equations; lia).
  reflexivity.
Qed.

Lemma hexToRgb_bytes (r g b : Z) :
  isByte r -> isByte g -> isByte b ->
  Celestial.hexToRgb ("#" ++ byteHex r ++ byteHex g ++ byteHex b)%string
  = (Some r, Some g, Some b).
Proof.
  intros Hr Hg Hb. unfold Celestial.hexToRgb.
  change (substring 1 2 ("#" ++ byteHex r ++ byteHex g ++ byteHex b)) with (byteHex r).
  change (substring 3 2 ("#" ++ byteHex r ++ byteHex g ++ byteHex b)) with (byteHex g).
  change (substring 5 2 ("#" ++ byteHex r ++ byteHex g ++ byteHex b)) with (byteHex b).
  rewrite !parse_byteHex by assumption. reflexivity.
Qed.

End ColourFacts.

Section ColourProperties.



Lemma isByte_Q (z : Z) : isByte z -> (0 <= inject_Z z /\ inject_Z z <= 255)%Q.
Proof.
  unfold isByte. intros [H1 H2]. split.
  - change 0%Q with (inject_Z 0). rewrite <- Zle_Qle. exact H1.
  - change 255%Q with (inject_Z 255). rewrite <- Zle_Qle. exact H2.
Qed.




(** X24.  Printing three bytes as a colour and reading the colour back
    gives the three bytes: [hexToRgb (rgbToHex r g b)] is [(r, g, b)] for
    channels from 0 to 255, and the string printed is '#' followed by the
    two upper-case hexadecimal digits of each channel, seven characters in
    all. *)
Theorem X24_hex_round_trip (r g b : Z) :
  isByte r -> isByte g -> isByte b ->
  Celestial.hexToRgb (Celestial.rgbToHex (Some r) (Some g) (Some b))
  = (Some r, Some g, Some b) /\
  Celestial.rgbToHex (Some r) (Some g) (Some b)
  = ("#" ++ byteHex r ++ byteHex g ++ byteHex b)%string /\
  String.length (Celestial.rgbToHex (Some r) (Some g) (Some b)) = 7%nat.
Proof.
  intros Hr Hg Hb. rewrite (rgbToHex_bytes r g b Hr Hg Hb).
  split; [apply hexToRgb_bytes; assumption |]. split; reflexivity.
Qed.

Lemma X24_witness :
  Celestial.hexToRgb (Celestial.rgbToHex (Some 26) (Some 26) (Some 46))
  = (Some 26, Some 26, Some 46) /\
  Celestial.rgbToHex (Some 26) (Some 26) (Some 46)
  = ("#" ++ byteHex 26 ++ byteHex 26 ++ byteHex 46)%string /\
  String.length (Celestial.rgbToHex (Some 26) (Some 26) (Some 46)) = 7%nat.
Proof. apply (X24_hex_round_trip 26 26 46); unfold isByte; lia. Defined.





End ColourProperties.

Section SkyAndCamera.

Lemma advanceGameTime_range (t : Q) :
  (0 <= t)%Q -> (t < 24)%Q ->
  (0 <= advanceGameTime t)%Q /\ (advanceGameTime t < 24)%Q /\
  ((t + DAY_SPEED < 24)%Q -> (advanceGameTime t == t + DAY_SPEED)%Q) /\
  ((24 <= t + DAY_SPEED)%Q -> (advanceGameTime t == t + DAY_SPEED - 24)%Q).
Proof.
  intros H0 H24. unfold advanceGameTime, js_rem, Math_trunc, DAY_SPEED.
  unfold Qdiv. change (/ 1800)%Q with (1 # 1800)%Q. change (/ 24)%Q with (1 # 24)%Q.
  unfold Qltb.
  replace (Qle_bool 0 ((t + 1 * (1 # 1800)) * (1 # 24))) with true
    by (symmetry; apply Qle_bool_iff; lra).
  cbn [negb].
  destruct (Qlt_le_dec (t + 1 * (1 # 1800)) 24) as [Hlt | Hge].
  - rewrite (Qfloor_unique 0 ((t + 1 * (1 # 1800)) * (1 # 24)))
      by (change (inject_Z 0) with 0%Q; lra).
    change (inject_Z 0) with 0%Q. repeat split; intros; lra.
  - rewrite (Qfloor_unique 1 ((t + 1 * (1 # 1800)) * (1 # 24)))
      by (change (inject_Z 1) with 1%Q; lra).
    change (inject_Z 1) with 1%Q. repeat split; intros; lra.
Qed.

(** X27.  The time of day stays a time of day: from a time in [0, 24) the
    game loop's update gives a time in [0, 24) again, which is the old time
    plus DAY_SPEED, less 24 once that reaches 24; so does any number of
    updates. *)
Theorem X27_game_time_wraps (t : Q) (n : nat) :
  (0 <= t)%Q -> (t < 24)%Q ->
  ((0 <= advanceGameTime t)%Q /\ (advanceGameTime t < 24)%Q) /\
  ((t + DAY_SPEED < 24)%Q -> (advanceGameTime t == t + DAY_SPEED)%Q) /\
  ((24 <= t + DAY_SPEED)%Q -> (advanceGameTime t == t + DAY_SPEED - 24)%Q) /\
  ((0 <= Nat.iter n advanceGameTime t)%Q /\ (Nat.iter n advanceGameTime t < 24)%Q).
Proof.
  intros H0 H24. destruct (advanceGameTime_range t H0 H24) as (A & B & C & D).
  split; [split; assumption |]. split; [exact C |]. split; [exact D |].
  induction n as [| n [IH0 IH24]]; cbn [Nat.iter]; [split; assumption |].
  destruct (advanceGameTime_range _ IH0 IH24) as (A' & B' & _). split; assumption.
Qed.

Lemma X27_witness :
  ((0 <= advanceGameTime (23 + (1799 # 1800)))%Q /\
   (advanceGameTime (23 + (1799 # 1800)) < 24)%Q) /\
  (advanceGameTime (23 + (1799 # 1800)) == 23 + (1799 # 1800) + DAY_SPEED - 24)%Q.
Proof.
  destruct (X27_game_time_wraps (23 + (1799 # 1800)) 0) as (H1 & _ & H3 & _).
  - vm_compute. discriminate.
  - vm_compute. reflexivity.
  - split; [exact H1 |]. apply H3. vm_compute. discriminate.
Defined.

Lemma Qltb_true (a b : Q) : (a < b)%Q -> Qltb a b = true.
Proof.
  intros H. unfold Qltb. apply negb_true_iff. apply not_true_is_false.
  intros Hle. apply Qle_bool_iff in Hle. lra.
Qed.

Lemma Qltb_false (a b : Q) : (b <= a)%Q -> Qltb a b = false.
Proof.
  intros H. unfold Qltb. apply negb_false_iff. apply Qle_bool_iff. exact H.
Qed.

Lemma clamp_camera (pos viewport size : Q) :
  (0 <= viewport)%Q -> (viewport <= size)%Q ->
  let c := Math_max 0 (Math_min (pos - viewport / 2) (size - viewport)) in
  (0 <= c)%Q /\ (c + viewport <= size)%Q /\
  ((viewport / 2 <= pos)%Q -> (pos <= size - viewport / 2)%Q -> (c == pos - viewport / 2)%Q) /\
  ((pos <= viewport / 2)%Q -> (c == 0)%Q) /\
  ((size - viewport / 2 <= pos)%Q -> (c == size - viewport)%Q).
Proof.
  intros Hv Hs. cbv zeta. qdiv. unfold Math_min.
  destruct (Qlt_le_dec (size - viewport) (pos - viewport * (1 # 2))) as [Hmin | Hmin];
    [rewrite (Qltb_true _ _ Hmin) | rewrite (Qltb_false _ _ Hmin)];
    unfold Math_max;
    match goal with
    | |- context [Qltb 0 ?m] =>
        destruct (Qlt_le_dec 0 m) as [Hmax | Hmax];
        [rewrite (Qltb_true _ _ Hmax) | rewrite (Qltb_false _ _ Hmax)]
    end;
    (split; [lra |]; split; [lra |]; split; [intros; lra |]; split; intros; lra).
Qed.

(** X28.  The camera never shows anything outside the world: for a canvas
    not larger than the world, both camera coordinates are at least 0 and
    the camera plus the canvas size is at most the world size; the camera
    follows the tractor when it is occupied, else the combine harvester when
    it is occupied, else the player, and keeps that object at the centre of
    the canvas whenever the world's edges allow. *)
Theorem X28_camera_in_world (player : Player) (tractor combineHarvester : Vehicle)
  (canvasWidth canvasHeight : Q) :
  (0 <= canvasWidth)%Q -> (canvasWidth <= inject_Z WORLD_WIDTH_PIXELS)%Q ->
  (0 <= canvasHeight)%Q -> (canvasHeight <= inject_Z WORLD_HEIGHT_PIXELS)%Q ->
  let camera := cameraOf player tractor combineHarvester canvasWidth canvasHeight in
  let target := controlledPosition player tractor combineHarvester in
  (0 <= camera.1)%Q /\ (camera.1 + canvasWidth <= inject_Z WORLD_WIDTH_PIXELS)%Q /\
  (0 <= camera.2)%Q /\ (camera.2 + canvasHeight <= inject_Z WORLD_HEIGHT_PIXELS)%Q /\
  ((canvasWidth / 2 <= target.1)%Q ->
   (target.1 <= inject_Z WORLD_WIDTH_PIXELS - canvasWidth / 2)%Q ->
   (camera.1 == target.1 - canvasWidth / 2)%Q) /\
  ((canvasHeight / 2 <= target.2)%Q ->
   (target.2 <= inject_Z WORLD_HEIGHT_PIXELS - canvasHeight / 2)%Q ->
   (camera.2 == target.2 - canvasHeight / 2)%Q) /\
  (v_isInVehicle (ent_extra tractor) = true -> target = (ent_x tractor, ent_y tractor)) /\
  (v_isInVehicle (ent_extra tractor) = false ->
   v_isInVehicle (ent_extra combineHarvester) = true ->
   target = (ent_x combineHarvester, ent_y combineHarvester)) /\
  (v_isInVehicle (ent_extra tractor) = false ->
   v_isInVehicle (ent_extra combineHarvester) = false ->
   target = (ent_x player, ent_y player)).
Proof.
  intros Hw0 Hw1 Hh0 Hh1. cbv zeta. unfold cameraOf.
  destruct (controlledPosition player tractor combineHarvester) as [x y] eqn:Etarget.
  cbn [fst snd].
  destruct (clamp_camera x canvasWidth (inject_Z WORLD_WIDTH_PIXELS) Hw0 Hw1)
    as (X1 & X2 & X3 & _).
  destruct (clamp_camera y canvasHeight (inject_Z WORLD_HEIGHT_PIXELS) Hh0 Hh1)
    as (Y1 & Y2 & Y3 & _).
  split; [exact X1 |]. split; [exact X2 |]. split; [exact Y1 |]. split; [exact Y2 |].
  split; [exact X3 |]. split; [exact Y3 |].
  unfold controlledPosition in Etarget.
  destruct (v_isInVehicle (ent_extra tractor));
    [| destruct (v_isInVehicle (ent_extra combineHarvester))];
    injection Etarget as <- <-; repeat split; intros; try reflexivity; discriminate.
Qed.

Lemma X28_witness :
  (0 <= (cameraOf initialPlayer initialTractor initialCombineHarvester 800 600).1)%Q /\
  ((cameraOf initialPlayer initialTractor initialCombineHarvester 800 600).1 + 800
   <= inject_Z WORLD_WIDTH_PIXELS)%Q /\
  (0 <= (cameraOf initialPlayer initialTractor initialCombineHarvester 800 600).2)%Q /\
  ((cameraOf initialPlayer initialTractor initialCombineHarvester 800 600).2 + 600
   <= inject_Z WORLD_HEIGHT_PIXELS)%Q.
Proof.
  destruct (X28_camera_in_world initialPlayer initialTractor initialCombineHarvester 800 600)
    as (H1 & H2 & H3 & H4 & _).
  - vm_compute. discriminate.
  - vm_compute. discriminate.
  - vm_compute. discriminate.
  - vm_compute. discriminate.
  - split; [exact H1 |]. split; [exact H2 |]. split; [exact H3 | exact H4].
Defined.

(** X29.  One update of the clouds keeps their number and order and, for
    every cloud, its height above ground, size and speed; it moves the
    cloud by its speed, and a cloud that would pass the right edge of the
    world is put back just outside the left edge, at minus its width; the
    opacity becomes 0.8 times the ambient light factor, which lies between
    0.08 and 0.8.  So after an update no cloud of non-negative width is to
    the right of the world's right edge. *)
Theorem X29_clouds_drift (gameTime : Q) (clouds : list Cloud) :
  Forall2 (cloudMoved gameTime) clouds (updateClouds gameTime clouds) /\
  length (updateClouds gameTime clouds) = length clouds /\
  Forall (fun cloud' =>
            match cloud_opacity cloud' with
            | Some o => ((8 # 100) <= o /\ o <= (8 # 10))%Q
            | None => False
            end /\
            ((0 <= cloud_width cloud')%Q ->
             (cloud_x cloud' <= inject_Z WORLD_WIDTH_PIXELS)%Q))
         (updateClouds gameTime clouds).
Proof.
  unfold updateClouds.
  induction clouds as [| cloud clouds (IH1 & IH2 & IH3)]; cbn [List.map length].
  - split; [constructor |]. split; [reflexivity | constructor].
  - pose proof (CelestialFacts.light_range gameTime) as [Hlo Hhi].
    split; [| split; [rewrite IH2; reflexivity |]].
    + constructor; [| exact IH1].
      unfold cloudMoved. cbn [cloud_x cloud_y cloud_width cloud_height cloud_speed
                              cloud_opacity].
      repeat (split; [reflexivity |]). change (inject_Z WORLD_WIDTH_PIXELS) with 3000%Q.
      qbool; [left | right]; split; try reflexivity; lra.
    + constructor; [| exact IH3].
      cbn [cloud_x cloud_width cloud_opacity]. split; [split; lra |].
      intros Hwidth. change (inject_Z WORLD_WIDTH_PIXELS) with 3000%Q.
      qbool; lra.
Qed.

Lemma X29_witness :
  Forall2 (cloudMoved 12) [cloudAtEdge] (updateClouds 12 [cloudAtEdge]) /\
  updateClouds 12 [cloudAtEdge] = [mkCloud (- 120) 50 120 50 (3 # 10) (Some ((8 # 10) * 1)%Q)].
Proof.
  destruct (X29_clouds_drift 12 [cloudAtEdge]) as (H & _).
  split; [exact H | reflexivity].
Defined.

End SkyAndCamera.
